(** * mcp-server-obsidian: kanban document engine

    A shallow embedding of the kanban tools of the server
    (parser and serializer, text validators, path validator, file operations
    and the item, column, board and bulk tools) together with the
    properties that the specification states about them and further
    properties of the code: round trips, invariants, what the tools do to
    the files, and containment of validated paths in the vault.

    JavaScript strings are sequences of UTF-16 code units; they are embedded
    as lists of [N].  Exceptions are embedded as an error value. *)

From Stdlib Require Import List NArith ZArith Lia Bool String Ascii Arith.
From Stdlib Require Import Permutation.
Import ListNotations.

Local Open Scope N_scope.

(* ================================================================== *)
(** * JavaScript strings *)
(* ================================================================== *)

(** A string is the list of its UTF-16 code units. *)
Definition str := list N.

(** ASCII literal to code units (used for the constants of the source). *)
Definition u (s : string) : str :=
  List.map N_of_ascii (list_ascii_of_string s).

(** [a === b] on strings *)
Fixpoint str_eqb (a b : str) : bool :=
  match a, b with
  | [], [] => true
  | x :: a', y :: b' => (x =? y) && str_eqb a' b'
  | _, _ => false
  end.

Definition LF : N := 10.
Definition CR : N := 13.
Definition TAB : N := 9.
Definition NUL : N := 0.

(** ECMAScript LineTerminator: LF, CR, U+2028, U+2029.  The regular
    expression atom [.] (without the [s] flag) matches every code unit
    except these. *)
Definition is_line_terminator (c : N) : bool :=
  (c =? 10) || (c =? 13) || (c =? 8232) || (c =? 8233).

(** ECMAScript WhiteSpace together with LineTerminator: the set stripped
    by [String.prototype.trim] and matched by the regular expression
    class [\s]. *)
Definition is_space (c : N) : bool :=
  (c =? 9) || (c =? 10) || (c =? 11) || (c =? 12) || (c =? 13) ||
  (c =? 32) || (c =? 160) || (c =? 5760) ||
  ((8192 <=? c) && (c <=? 8202)) ||
  (c =? 8232) || (c =? 8233) || (c =? 8239) || (c =? 8287) ||
  (c =? 12288) || (c =? 65279).

Fixpoint trimStart (s : str) : str :=
  match s with
  | c :: s' => if is_space c then trimStart s' else s
  | [] => []
  end.

Definition trimEnd (s : str) : str := rev (trimStart (rev s)).

(** [s.trim()] *)
Definition trim (s : str) : str := trimEnd (trimStart s).

(** [s.length] *)
Definition strlen (s : str) : N := N.of_nat (List.length s).

(** [s.includes(c)] for a one-unit needle *)
Definition includes (c : N) (s : str) : bool := existsb (N.eqb c) s.

(** [s.startsWith(p)] *)
Fixpoint startsWith (p s : str) : bool :=
  match p, s with
  | [], _ => true
  | a :: p', b :: s' => (a =? b) && startsWith p' s'
  | _ :: _, [] => false
  end.

(** [s.split(c)] for a one-unit separator: never empty, the last piece
    may be the empty string. *)
Fixpoint split_on (sep : N) (s : str) : list str :=
  match s with
  | [] => [[]]
  | c :: s' =>
      if c =? sep then [] :: split_on sep s'
      else match split_on sep s' with
           | l :: ls => (c :: l) :: ls
           | [] => [[c]]
           end
  end.

(** [parts.join(c)] for a one-unit separator *)
Definition join_with (sep : N) (parts : list str) : str :=
  match parts with
  | [] => []
  | p :: ps => p ++ flat_map (cons sep) ps
  end.

Definition split_lines : str -> list str := split_on LF.
Definition join_lines : list str -> str := join_with LF.

(* ================================================================== *)
(** * Errors *)
(* ================================================================== *)

(** The messages of [InputValidationError] (utils/input-validator.ts).
    [MustBeString] cannot arise here: every argument is a string by type. *)
Inductive input_msg :=
| MustBeString | ContainsNullByte | ForbiddenControlCharacters
| CannotContainNewlines | CannotBeEmpty | ExceedsMaximumLength.

(** The messages of [PathValidationError] (utils/path-validator.ts). *)
Inductive path_msg :=
| VaultPathEmpty | TargetPathEmpty | PathContainsNullByte
| VaultPathNotAbsolute | VaultPathDoesNotExist
| PathEscapesVault | PathTooLong | SymlinkEscapesVault.

(** The messages of the plain [Error]s thrown by the tools and by the
    file operations. *)
Inductive tool_msg :=
| ColumnNotFound | SourceColumnNotFound | TargetColumnNotFound
| ItemNotFound | ColumnContainsItems | CannotMoveToSelf
| FailedToRead | FailedToWrite.

Inductive error :=
| InputValidationError (m : input_msg)
| PathValidationError (m : path_msg)
| ZodError
| Error (m : tool_msg).

Inductive result (A : Type) :=
| Ok (a : A)
| Err (e : error).
Arguments Ok {A} a.
Arguments Err {A} e.

Definition is_err {A} (r : result A) : bool :=
  match r with Ok _ => false | Err _ => true end.

Definition rbind {A B} (r : result A) (k : A -> result B) : result B :=
  match r with
  | Ok a => k a
  | Err e => Err e
  end.

Notation "x <-? c ;; k" := (rbind c (fun x => k))
  (at level 61, c at next level, right associativity).

(* ================================================================== *)
(** * Text validators (utils/input-validator.ts) *)
(* ================================================================== *)

Definition MAX_ITEM_TEXT_LENGTH : N := 10240.
Definition MAX_COLUMN_NAME_LENGTH : N := 200.

Definition containsNullByte (text : str) : bool := includes NUL text.

(** The loop over [charCodeAt]: tab always passes, LF and CR pass when
    [allowNewlines], every other code below 32 is forbidden. *)
Fixpoint containsControlCharacters (text : str) (allowNewlines : bool) : bool :=
  match text with
  | [] => false
  | code :: rest =>
      if code =? 9 then containsControlCharacters rest allowNewlines
      else if allowNewlines && ((code =? 10) || (code =? 13))
      then containsControlCharacters rest allowNewlines
      else if code <? 32 then true
      else containsControlCharacters rest allowNewlines
  end.

Definition validateItemText (text : str) : result str :=
  if containsNullByte text then Err (InputValidationError ContainsNullByte)
  else if containsControlCharacters text true
  then Err (InputValidationError ForbiddenControlCharacters)
  else
    let trimmed := trim text in
    if includes LF trimmed || includes CR trimmed
    then Err (InputValidationError CannotContainNewlines)
    else if strlen trimmed =? 0
    then Err (InputValidationError CannotBeEmpty)
    else if MAX_ITEM_TEXT_LENGTH <? strlen trimmed
    then Err (InputValidationError ExceedsMaximumLength)
    else Ok trimmed.

Definition validateColumnName (name : str) : result str :=
  if containsNullByte name then Err (InputValidationError ContainsNullByte)
  else if includes LF name || includes CR name
  then Err (InputValidationError CannotContainNewlines)
  else if containsControlCharacters name false
  then Err (InputValidationError ForbiddenControlCharacters)
  else
    let trimmed := trim name in
    if strlen trimmed =? 0
    then Err (InputValidationError CannotBeEmpty)
    else if MAX_COLUMN_NAME_LENGTH <? strlen trimmed
    then Err (InputValidationError ExceedsMaximumLength)
    else Ok trimmed.

(* ================================================================== *)
(** * Data model (types/board.ts) *)
(* ================================================================== *)

(** A JavaScript object with string values: its own enumerable keys in
    insertion order. *)
Definition obj := list (str * str).

Fixpoint obj_get (k : str) (o : obj) : option str :=
  match o with
  | [] => None
  | (k', v) :: o' => if str_eqb k k' then Some v else obj_get k o'
  end.

(** [o[k] = v]: an existing key keeps its place, a new key goes last. *)
Fixpoint obj_set (k v : str) (o : obj) : obj :=
  match o with
  | [] => [(k, v)]
  | (k', v') :: o' =>
      if str_eqb k k' then (k', v) :: o' else (k', v') :: obj_set k v o'
  end.

(** [{ ...a, ...b }] *)
Definition obj_spread (a b : obj) : obj :=
  fold_left (fun acc kv => obj_set (fst kv) (snd kv) acc) b a.

Record Item := mkItem {
  text : str;
  completed : bool;
  metadata : option obj
}.

Record Column := mkColumn {
  name : str;
  items : list Item
}.

Definition BoardSettings := obj.

Record Board := mkBoard {
  path : str;
  settings : BoardSettings;
  columns : list Column
}.

Definition kanban_plugin : str := Eval cbv in u "kanban-plugin".
Definition basic : str := Eval cbv in u "basic".
Definition advanced : str := Eval cbv in u "advanced".

(* ================================================================== *)
(** * Frontmatter extraction (the gray-matter package) *)
(* ================================================================== *)

(** [hay.indexOf(needle)] *)
Fixpoint indexOf (needle hay : str) : option nat :=
  if startsWith needle hay then Some O
  else match hay with
       | [] => None
       | _ :: hay' => option_map S (indexOf needle hay')
       end.

(** Everything of [s] before the first unit [c], and what follows it. *)
Fixpoint break_at (c : N) (s : str) : option (str * str) :=
  match s with
  | [] => None
  | d :: s' =>
      if d =? c then Some ([], s')
      else match break_at c s' with
           | Some (a, b) => Some (d :: a, b)
           | None => None
           end
  end.

(** Modelled from the spec: the YAML reader of gray-matter is not among the
    sources.  Following section 6 of the specification the metadata block
    is read as [key: value] lines: a line is split at its first colon and
    both sides are trimmed; blank lines, comment lines and lines without a
    colon carry no entry. *)
Definition yaml_line (line : str) : option (str * str) :=
  let t := trim line in
  if startsWith [35] t then None
  else match break_at 58 t with
       | Some (k, v) =>
           if strlen (trim k) =? 0 then None else Some (trim k, trim v)
       | None => None
       end.

Definition yaml_load (block : str) : obj :=
  fold_left
    (fun acc line =>
       match yaml_line line with
       | Some (k, v) => obj_set k v acc
       | None => acc
       end)
    (split_lines block) [].

Definition strip_first (c : N) (s : str) : str :=
  match s with
  | d :: s' => if d =? c then s' else s
  | [] => []
  end.

Definition delimiter : str := Eval cbv in u "---".

(** Modelled from the spec: [matter(content)] of the gray-matter package,
    which is not among the sources.  A document that opens with the
    three-dash delimiter (not followed by a fourth dash) has its metadata
    block end at the first line break followed by the delimiter; the block
    is read by [yaml_load]; the body is what follows the closing delimiter,
    less one leading line break.  The rest of the opening line (a language
    tag) is dropped.  Any other document has no metadata and is all body. *)
Definition matter (content : str) : obj * str :=
  if startsWith delimiter content && negb (startsWith [45] (skipn 3 content))
  then
    let s := skipn 3 content in
    let s := match break_at LF s with
             | Some (_, after) => LF :: after
             | None => s
             end in
    match indexOf (LF :: delimiter) s with
    | Some i =>
        (yaml_load (firstn i s),
         strip_first LF (strip_first CR (skipn (i + 4) s)))
    | None => (yaml_load s, [])
    end
  else ([], content).

(* ================================================================== *)
(** * Parser and serializer (parsers/kanban.ts) *)
(* ================================================================== *)

(** ** The two regular expressions

    The matchers follow the backtracking semantics of the expressions:
    a greedy [\s+] first tries to take one more unit and only then hands
    over to what follows it. *)

(** [\s+] followed by the continuation [k]. *)
Fixpoint ws_plus_then {A} (k : str -> option A) (s : str) : option A :=
  match s with
  | c :: s' =>
      if is_space c then
        match ws_plus_then k s' with
        | Some r => Some r
        | None => k s'
        end
      else None
  | [] => None
  end.

(** A greedy dot-star group up to the end of the input: the rest of the
    input, which must be free of line terminators. *)
Definition dot_star_end (s : str) : option str :=
  if existsb is_line_terminator s then None else Some s.

(** A greedy dot-plus group up to the end of the input. *)
Definition dot_plus_end (s : str) : option str :=
  match s with
  | [] => None
  | _ :: _ => dot_star_end s
  end.

(** The header expression: start of input, two hashes, [\s+], a dot-plus
    group, end of input.  Returns the captured group. *)
Definition headerMatch (line : str) : option str :=
  match line with
  | 35 :: 35 :: rest => ws_plus_then dot_plus_end rest
  | _ => None
  end.

(** The item expression: start of input, a dash, [\s+], an opening bracket,
    a group holding a space or an x, a closing bracket, [\s+], a dot-star
    group, end of input.  Returns groups 1 and 2. *)
Definition itemMatch (line : str) : option (N * str) :=
  match line with
  | 45 :: rest =>
      ws_plus_then
        (fun s =>
           match s with
           | 91 :: c :: 93 :: s' =>
               if (c =? 32) || (c =? 120)
               then ws_plus_then
                      (fun t => option_map (pair c) (dot_star_end t)) s'
               else None
           | _ => None
           end)
        rest
  | _ => None
  end.

Definition sentinel : str := Eval cbv in u "%%".

(** ** parseKanban *)

(** [line.trim().startsWith('%%')] *)
Definition is_sentinel_line (line : str) : bool :=
  startsWith sentinel (trim line).

(** The [for (const line of lines)] loop.  [cols] are the columns pushed
    so far and [cur] is [currentColumn]. *)
Fixpoint scan_lines (lines : list str) (cols : list Column)
         (cur : option Column) : list Column * option Column :=
  match lines with
  | [] => (cols, cur)
  | line :: rest =>
      match headerMatch line with
      | Some g =>
          scan_lines rest
            (match cur with Some c => cols ++ [c] | None => cols end)
            (Some (mkColumn (trim g) []))
      | None =>
          match itemMatch line, cur with
          | Some (box, g), Some c =>
              scan_lines rest cols
                (Some (mkColumn (name c)
                         (items c ++ [mkItem (trim g) (box =? 120) None])))
          | _, _ =>
              if is_sentinel_line line then (cols, cur)
              else scan_lines rest cols cur
          end
      end
  end.

(** [x || 'basic'] for a looked-up string: undefined and the empty string
    are falsy. *)
Definition or_basic (v : option str) : str :=
  match v with
  | Some (c :: s) => c :: s
  | _ => basic
  end.

Definition parseKanban (content : str) : Board :=
  let (frontmatter, bodyContent) := matter content in
  let settings :=
    obj_spread [(kanban_plugin, or_basic (obj_get kanban_plugin frontmatter))]
               frontmatter in
  let lines := split_lines bodyContent in
  let (cols, cur) := scan_lines lines [] None in
  mkBoard []
          settings
          (match cur with Some c => cols ++ [c] | None => cols end).

(** ** serializeKanban *)

Definition hex_digit (n : N) : N :=
  if n <? 10 then 48 + n else 87 + n.

(** [\uXXXX] with lower-case digits. *)
Definition unicode_escape (c : N) : str :=
  [92; 117; hex_digit (c / 4096 mod 16); hex_digit (c / 256 mod 16);
   hex_digit (c / 16 mod 16); hex_digit (c mod 16)].

Definition is_high_surrogate (c : N) : bool := (55296 <=? c) && (c <=? 56319).
Definition is_low_surrogate (c : N) : bool := (56320 <=? c) && (c <=? 57343).

(** The body of a JSON string literal as [JSON.stringify] writes it. *)
Fixpoint json_escape (s : str) : str :=
  match s with
  | [] => []
  | c :: s' =>
      if c =? 34 then 92 :: 34 :: json_escape s'
      else if c =? 92 then 92 :: 92 :: json_escape s'
      else if c =? 8 then 92 :: 98 :: json_escape s'
      else if c =? 12 then 92 :: 102 :: json_escape s'
      else if c =? 10 then 92 :: 110 :: json_escape s'
      else if c =? 13 then 92 :: 114 :: json_escape s'
      else if c =? 9 then 92 :: 116 :: json_escape s'
      else if c <? 32 then unicode_escape c ++ json_escape s'
      else if is_high_surrogate c then
        match s' with
        | d :: s'' =>
            if is_low_surrogate d then c :: d :: json_escape s''
            else unicode_escape c ++ json_escape s'
        | [] => unicode_escape c
        end
      else if is_low_surrogate c then unicode_escape c ++ json_escape s'
      else c :: json_escape s'
  end.

Definition json_string (s : str) : str := 34 :: json_escape s ++ [34].

Fixpoint json_members (o : obj) : str :=
  match o with
  | [] => []
  | [(k, v)] => json_string k ++ 58 :: json_string v
  | (k, v) :: o' => json_string k ++ 58 :: json_string v ++ 44 :: json_members o'
  end.

(** [JSON.stringify(o)] for an object with string values. *)
Definition JSON_stringify (o : obj) : str := 123 :: json_members o ++ [125].

Definition undefined_str : str := Eval cbv in u "undefined".
Definition checked_prefix : str := Eval cbv in u "- [x] ".
Definition unchecked_prefix : str := Eval cbv in u "- [ ] ".
Definition header_prefix : str := Eval cbv in u "## ".
Definition plugin_prefix : str := Eval cbv in u "kanban-plugin: ".
Definition settings_open : str := Eval cbv in u "%% kanban:settings".
Definition fence : str := Eval cbv in u "```".

(** A looked-up string inside a template literal. *)
Definition template (v : option str) : str :=
  match v with
  | Some s => s
  | None => undefined_str
  end.

Definition item_line (item : Item) : str :=
  (if completed item then checked_prefix else unchecked_prefix) ++ text item.

Definition column_lines (column : Column) : list str :=
  (header_prefix ++ name column) :: [] ::
    List.map item_line (items column) ++ [[]].

Definition settings_block (s : BoardSettings) : list str :=
  [ settings_open; fence; JSON_stringify s; fence; sentinel; [] ].

Definition frontmatter_lines (s : BoardSettings) : list str :=
  [ delimiter; [];
    plugin_prefix ++ template (obj_get kanban_plugin s);
    []; delimiter; [] ].

Definition serializeKanban (board : Board) : str :=
  join_lines (frontmatter_lines (settings board)
              ++ flat_map column_lines (columns board)
              ++ settings_block (settings board)).

(* ================================================================== *)
(** * POSIX paths (the [node:path] module on a POSIX host) *)
(* ================================================================== *)

(** Modelled from the spec: the functions of [node:path] are not among the
    sources.  Section 4.1 of the specification speaks of OS-path
    normalization and of the relative path between root and candidate; the
    definitions below follow those functions as they behave on a POSIX
    host, at the level of path segments. *)
Module PosixPath.

Definition SLASH : N := 47.
Definition sep : str := [SLASH].
Definition dotdot : str := [46; 46].
Definition dot : str := [46].

(** [isAbsolute(path)]: a non-empty path whose first unit is a slash. *)
Definition isAbsolute (p : str) : bool :=
  match p with
  | c :: _ => c =? SLASH
  | [] => false
  end.

(** One segment in [normalizeString]; [stk] holds the segments kept so
    far, last one first.  Empty and single-dot segments vanish; a
    double-dot segment removes the last kept segment unless there is none
    or it is itself a double dot, in which case it is kept only when
    [allowAboveRoot]. *)
Definition norm_step (allowAboveRoot : bool) (stk : list str) (seg : str)
  : list str :=
  if str_eqb seg [] || str_eqb seg dot then stk
  else if str_eqb seg dotdot then
    match stk with
    | top :: stk' =>
        if str_eqb top dotdot
        then (if allowAboveRoot then seg :: stk else stk)
        else stk'
    | [] => if allowAboveRoot then [seg] else []
    end
  else seg :: stk.

Definition normalizeSegments (p : str) (allowAboveRoot : bool) : list str :=
  rev (fold_left (norm_step allowAboveRoot) (split_on SLASH p) []).

(** [normalizeString(path, allowAboveRoot, '/', isPosixPathSeparator)] *)
Definition normalizeString (p : str) (allowAboveRoot : bool) : str :=
  join_with SLASH (normalizeSegments p allowAboveRoot).

(** The right-to-left loop of [resolve]: arguments are prepended until an
    absolute one is met; [args] is given last argument first and ends with
    the working directory. *)
Fixpoint resolve_loop (args : list str) (resolvedPath : str) : str * bool :=
  match args with
  | [] => (resolvedPath, false)
  | p :: rest =>
      match p with
      | [] => resolve_loop rest resolvedPath
      | c :: _ =>
          let resolvedPath' := p ++ SLASH :: resolvedPath in
          if c =? SLASH then (resolvedPath', true)
          else resolve_loop rest resolvedPath'
      end
  end.

(** [resolve(...args)] with the working directory [cwd]. *)
Definition resolve (cwd : str) (args : list str) : str :=
  let (resolvedPath, resolvedAbsolute) := resolve_loop (rev args ++ [cwd]) [] in
  let r := normalizeString resolvedPath (negb resolvedAbsolute) in
  if resolvedAbsolute then SLASH :: r
  else match r with [] => dot | _ => r end.

(** [normalize(path)] *)
Definition normalize (p : str) : str :=
  match p with
  | [] => dot
  | _ =>
      let isAbs := isAbsolute p in
      let trailingSeparator :=
        match rev p with c :: _ => c =? SLASH | [] => false end in
      let r := normalizeString p (negb isAbs) in
      match r with
      | [] => if isAbs then sep
              else if trailingSeparator then [46; SLASH] else dot
      | _ =>
          let r := if trailingSeparator then r ++ sep else r in
          if isAbs then SLASH :: r else r
      end
  end.

(** The segments of a resolved (absolute, normalized) path. *)
Definition segments (p : str) : list str :=
  match p with
  | [_] => []
  | _ :: rest => split_on SLASH rest
  | [] => []
  end.

Fixpoint strip_common (a b : list str) : list str * list str :=
  match a, b with
  | x :: a', y :: b' => if str_eqb x y then strip_common a' b' else (a, b)
  | _, _ => (a, b)
  end.

(** [relative(from, to)]: one double dot for every segment of [from] below
    the longest common directory, followed by the segments of [to] below
    it. *)
Definition relative (cwd : str) (from to : str) : str :=
  if str_eqb from to then []
  else
    let from := resolve cwd [from] in
    let to := resolve cwd [to] in
    if str_eqb from to then []
    else
      let (up, down) := strip_common (segments from) (segments to) in
      join_with SLASH (List.map (fun _ => dotdot) up ++ down).

End PosixPath.

(* ================================================================== *)
(** * The host: file system and runtime *)
(* ================================================================== *)

(** What the path validator asks of its environment. *)
Record Host := mkHost {
  cwd : str;                            (* process.cwd() *)
  nfc : str -> str;                     (* NFC of a non-ASCII string *)
  realpath : str -> option str;         (* fs.realpath, None when it rejects *)
  access : str -> bool;                 (* fs.access(p, F_OK) resolves *)
  can_write : str -> bool;              (* fs.writeFile(p, ...) resolves *)
  can_rename : str -> str -> bool;      (* fs.rename(a, b) resolves *)
  can_unlink : str -> bool;             (* fs.unlink(p) resolves *)
  (* what the file at p holds once fs.writeFile(p, content) has rejected,
     given what it held: the same when it could not be opened, a part of
     the content when the writing broke off *)
  partial_write : str -> str -> option str -> option str
}.

(** The regular files, by path: each one holds the UTF-8 encoding of a
    text, and the state records that text as it was handed to the
    encoder. *)
Definition Files := str -> option str.

Definition put (fs : Files) (p : str) (v : option str) : Files :=
  fun q => if str_eqb q p then v else fs q.

(** What a string has become once it is encoded as UTF-8 and decoded
    again, as [writeFile] and [readFile] do with the encoding ['utf-8']: a
    surrogate that is not part of a pair is replaced by U+FFFD, everything
    else stays (no byte order mark is added or removed). *)
Fixpoint toWellFormed (s : str) : str :=
  match s with
  | [] => []
  | c :: s' =>
      if is_high_surrogate c then
        match s' with
        | d :: s'' =>
            if is_low_surrogate d then c :: d :: toWellFormed s''
            else 65533 :: toWellFormed s'
        | [] => [65533]
        end
      else if is_low_surrogate c then 65533 :: toWellFormed s'
      else c :: toWellFormed s'
  end.

Definition is_surrogate (c : N) : bool :=
  is_high_surrogate c || is_low_surrogate c.

(** A string without lone surrogates: the encoding gives it back. *)
Definition well_formed (s : str) : Prop := toWellFormed s = s.

(** [readFile(p, 'utf-8')]: the text decoded from the file, when there is
    one. *)
Definition readFile (fs : Files) (p : str) : option str :=
  option_map toWellFormed (fs p).

(** [try { await unlink(p) } catch { }] *)
Definition try_unlink (h : Host) (p : str) (fs : Files) : Files :=
  if can_unlink h p then put fs p None else fs.

(** [s.normalize('NFC')]: a string of ASCII units is its own normal form,
    any other string is normalized by the host. *)
Definition normalizeNFC (h : Host) (s : str) : str :=
  if forallb (fun c => c <? 128) s then s else nfc h s.

(* ================================================================== *)
(** * Path validator (utils/path-validator.ts) *)
(* ================================================================== *)

Definition MAX_PATH_LENGTH : N := 4096.

(** [rel.startsWith('..' + sep) || isAbsolute(rel)], then [rel === '..'] *)
Definition escapes (rel : str) : bool :=
  startsWith (PosixPath.dotdot ++ PosixPath.sep) rel
  || PosixPath.isAbsolute rel
  || str_eqb rel PosixPath.dotdot.

Definition validateVaultPath (h : Host) (vaultPath targetPath : str)
  : result str :=
  if strlen vaultPath =? 0 then Err (PathValidationError VaultPathEmpty)
  else if strlen targetPath =? 0 then Err (PathValidationError TargetPathEmpty)
  else if includes NUL vaultPath || includes NUL targetPath
  then Err (PathValidationError PathContainsNullByte)
  else
    let normalizedVault := normalizeNFC h vaultPath in
    let normalizedTarget := normalizeNFC h targetPath in
    if negb (PosixPath.isAbsolute normalizedVault)
    then Err (PathValidationError VaultPathNotAbsolute)
    else
      match realpath h normalizedVault with
      | None => Err (PathValidationError VaultPathDoesNotExist)
      | Some canonicalVault =>
          let candidatePath :=
            if PosixPath.isAbsolute normalizedTarget
            then PosixPath.resolve (cwd h) [normalizedTarget]
            else PosixPath.resolve (cwd h) [canonicalVault; normalizedTarget] in
          let normalizedCandidate := PosixPath.normalize candidatePath in
          let relativePath :=
            PosixPath.relative (cwd h) canonicalVault normalizedCandidate in
          if escapes relativePath
          then Err (PathValidationError PathEscapesVault)
          else if MAX_PATH_LENGTH <? strlen normalizedCandidate
          then Err (PathValidationError PathTooLong)
          else if access h normalizedCandidate then
            match realpath h normalizedCandidate with
            | Some canonicalTarget =>
                let relativeCanonical :=
                  PosixPath.relative (cwd h) canonicalVault canonicalTarget in
                if escapes relativeCanonical
                then Err (PathValidationError SymlinkEscapesVault)
                else Ok canonicalTarget
            | None => Ok normalizedCandidate
            end
          else Ok normalizedCandidate
      end.

(* ================================================================== *)
(** * File operations (utils/file-ops.ts) *)
(* ================================================================== *)

(** A computation that may throw and may change the files. *)
Definition IO (A : Type) := Files -> result A * Files.

Definition ret {A} (a : A) : IO A := fun fs => (Ok a, fs).

Definition throw {A} (e : error) : IO A := fun fs => (Err e, fs).

Definition bind {A B} (c : IO A) (k : A -> IO B) : IO B :=
  fun fs =>
    match c fs with
    | (Ok a, fs') => k a fs'
    | (Err e, fs') => (Err e, fs')
    end.

Definition lift {A} (r : result A) : IO A := fun fs => (r, fs).

Notation "x <- c ;; k" := (bind c (fun x => k))
  (at level 61, c at next level, right associativity).

Definition tmp_suffix : str := Eval cbv in u ".tmp".

Definition readKanbanFile (p : str) : IO Board :=
  fun fs =>
    match readFile fs p with
    | Some content =>
        let board := parseKanban content in
        (Ok (mkBoard p (settings board) (columns board)), fs)
    | None => (Err (Error FailedToRead), fs)
    end.

(** Write to the temporary file, then rename it onto the target; when
    either step fails, an attempt is made to unlink the temporary file,
    whatever comes of it, and the failure is thrown again. *)
Definition writeKanbanFile (h : Host) (p : str) (board : Board) : IO unit :=
  fun fs =>
    let tempPath := p ++ tmp_suffix in
    let content := serializeKanban board in
    if can_write h tempPath then
      let fs1 := put fs tempPath (Some content) in
      if can_rename h tempPath p
      then (Ok tt, put (put fs1 p (Some content)) tempPath None)
      else (Err (Error FailedToWrite), try_unlink h tempPath fs1)
    else
      let fs1 :=
        put fs tempPath (partial_write h tempPath content (fs tempPath)) in
      (Err (Error FailedToWrite), try_unlink h tempPath fs1).

(* ================================================================== *)
(** * Array helpers *)
(* ================================================================== *)

(** [l.find(p)] together with [l.findIndex(p)]: the first element that
    satisfies [p] and its index. *)
Fixpoint findFirst {A} (p : A -> bool) (l : list A) : option (nat * A) :=
  match l with
  | [] => None
  | x :: l' =>
      if p x then Some (O, x)
      else match findFirst p l' with
           | Some (i, y) => Some (S i, y)
           | None => None
           end
  end.

(** [l.splice(i, 1)] *)
Fixpoint removeAt {A} (i : nat) (l : list A) : list A :=
  match l, i with
  | [], _ => []
  | _ :: l', O => l'
  | x :: l', S j => x :: removeAt j l'
  end.

(** [l.splice(i, 0, x)] *)
Fixpoint insertAt {A} (i : nat) (x : A) (l : list A) : list A :=
  match i, l with
  | O, _ => x :: l
  | S j, y :: l' => y :: insertAt j x l'
  | S _, [] => [x]
  end.

(** Mutation of the element at index [i] through a reference to it. *)
Fixpoint updateAt {A} (i : nat) (f : A -> A) (l : list A) : list A :=
  match l, i with
  | [], _ => []
  | x :: l', O => f x :: l'
  | x :: l', S j => x :: updateAt j f l'
  end.

Definition named (n : str) (c : Column) : bool := str_eqb (name c) n.
Definition texted (t : str) (i : Item) : bool := str_eqb (text i) t.

Definition set_columns (b : Board) (cols : list Column) : Board :=
  mkBoard (path b) (settings b) cols.

Definition set_items (its : list Item) (c : Column) : Column :=
  mkColumn (name c) its.

Definition push_items (its : list Item) (c : Column) : Column :=
  mkColumn (name c) (items c ++ its).

(* ================================================================== *)
(** * Argument schemas (schemas/board.ts, schemas/bulk.ts) *)
(* ================================================================== *)

(** [z.string().min(1)] *)
Definition nonEmpty (s : str) : result str :=
  if strlen s =? 0 then Err ZodError else Ok s.

(** [z.string().min(1).transform(validateColumnName)] *)
Definition columnNameArg (s : str) : result str :=
  s' <-? nonEmpty s ;; validateColumnName s'.

(** [z.string().min(1).transform(validateItemText)] *)
Definition itemTextArg (s : str) : result str :=
  s' <-? nonEmpty s ;; validateItemText s'.

(** [z.number().int().min(0)] *)
Definition positionArg (n : Z) : result Z :=
  if (n <? 0)%Z then Err ZodError else Ok n.

(** [z.string().optional().transform(val => val ? validateColumnName(val) : val)] *)
Definition optionalColumnNameArg (o : option str) : result (option str) :=
  match o with
  | Some (c :: s) => v <-? validateColumnName (c :: s) ;; Ok (Some v)
  | other => Ok other
  end.

(* ================================================================== *)
(** * kanban_item_reorder (tools/kanban/items/reorder.ts) *)
(* ================================================================== *)

Record KanbanItemReorderResult := mkReorderResult {
  reorder_board : str;
  reorder_column : str;
  reorder_item : Item;
  oldPosition : nat;
  newPosition : nat
}.

(** The part of [kanbanItemReorder] that works on the board in memory,
    between reading and writing the file ([reorderItem] in the
    specification). *)
Definition reorderItem (board : Board) (column text : str) (position : Z)
  : result (Board * (Item * nat * nat)) :=
  match findFirst (named column) (columns board) with
  | None => Err (Error ColumnNotFound)
  | Some (ci, col) =>
      match findFirst (texted text) (items col) with
      | None => Err (Error ItemNotFound)
      | Some (oldPos, item) =>
          let items1 := removeAt oldPos (items col) in
          let newPos :=
            Z.to_nat (Z.max 0 (Z.min position (Z.of_nat (List.length items1)))) in
          let items2 := insertAt newPos item items1 in
          Ok (set_columns board (updateAt ci (set_items items2) (columns board)),
              (item, oldPos, newPos))
      end
  end.

Definition kanbanItemReorder (h : Host) (vault board column text : str)
           (position : Z) : IO KanbanItemReorderResult :=
  vault' <- lift (nonEmpty vault) ;;
  board' <- lift (nonEmpty board) ;;
  column' <- lift (columnNameArg column) ;;
  text' <- lift (itemTextArg text) ;;
  position' <- lift (positionArg position) ;;
  boardPath <- lift (validateVaultPath h vault' board') ;;
  b <- readKanbanFile boardPath ;;
  r <- lift (reorderItem b column' text' position') ;;
  _ <- writeKanbanFile h boardPath (fst r) ;;
  ret (mkReorderResult board' column' (fst (fst (snd r)))
         (snd (fst (snd r))) (snd (snd r))).

(* ================================================================== *)
(** * kanban_column_remove (tools/kanban/columns/remove.ts) *)
(* ================================================================== *)

Record KanbanColumnRemoveResult := mkRemoveResult {
  remove_board : str;
  removedColumn : str;
  itemsRemoved : nat;
  remove_targetColumn : option str;
  itemsMoved : option nat
}.

(** [!validated.targetColumn]: undefined or the empty string. *)
Definition falsy (o : option str) : bool :=
  match o with
  | Some (_ :: _) => false
  | _ => true
  end.

(** The part of [kanbanColumnRemove] that works on the board in memory
    ([removeColumn] in the specification).  Returns the board and the
    number of items the removed column held. *)
Definition removeColumn (board : Board) (n : str) (targetColumn : option str)
  : result (Board * nat) :=
  match findFirst (named n) (columns board) with
  | None => Err (Error ColumnNotFound)
  | Some (columnIndex, column) =>
      let itemCount := List.length (items column) in
      if Nat.ltb 0 itemCount then
        if falsy targetColumn then Err (Error ColumnContainsItems)
        else
          let t := match targetColumn with Some t => t | None => [] end in
          match findFirst (named t) (columns board) with
          | None => Err (Error TargetColumnNotFound)
          | Some (ti, _) =>
              if str_eqb t n then Err (Error CannotMoveToSelf)
              else
                let cols := updateAt ti (push_items (items column))
                                     (columns board) in
                Ok (set_columns board (removeAt columnIndex cols), itemCount)
          end
      else Ok (set_columns board (removeAt columnIndex (columns board)),
               itemCount)
  end.

Definition kanbanColumnRemove (h : Host) (vault board n : str)
           (targetColumn : option str) : IO KanbanColumnRemoveResult :=
  vault' <- lift (nonEmpty vault) ;;
  board' <- lift (nonEmpty board) ;;
  n' <- lift (columnNameArg n) ;;
  target' <- lift (optionalColumnNameArg targetColumn) ;;
  boardPath <- lift (validateVaultPath h vault' board') ;;
  b <- readKanbanFile boardPath ;;
  r <- lift (removeColumn b n' target') ;;
  _ <- writeKanbanFile h boardPath (fst r) ;;
  ret (if negb (falsy target') && Nat.ltb 0 (snd r)
       then mkRemoveResult board' n' (snd r) target' (Some (snd r))
       else mkRemoveResult board' n' (snd r) None None).

(* ================================================================== *)
(** * kanban_archive_done (tools/kanban/bulk/archive.ts) *)
(* ================================================================== *)

Definition Archive : str := Eval cbv in u "Archive".

(** [x || 'Archive'] *)
Definition or_Archive (v : option str) : str :=
  match v with
  | Some (c :: s) => c :: s
  | _ => Archive
  end.

(** One round of the loop over the columns: a column that bears the
    archive name is skipped, any other column gives up its completed
    items. *)
Definition archive_step (archiveColumnName : str)
           (acc : list Column * list Item) (column : Column)
  : list Column * list Item :=
  let (done, archivedItems) := acc in
  if str_eqb (name column) archiveColumnName
  then (done ++ [column], archivedItems)
  else (done ++ [set_items (filter (fun i => negb (completed i)) (items column))
                           column],
        archivedItems ++ filter completed (items column)).

(** The part of [kanbanArchiveDone] that works on the board in memory
    ([archiveDone] in the specification). *)
Definition archiveDone (board : Board) (archiveColumnName : str) : Board :=
  let (cols, ai) :=
    match findFirst (named archiveColumnName) (columns board) with
    | Some (i, _) => (columns board, i)
    | None => (columns board ++ [mkColumn archiveColumnName []],
               List.length (columns board))
    end in
  let (cols', archivedItems) :=
    fold_left (archive_step archiveColumnName) cols ([], []) in
  set_columns board (updateAt ai (push_items archivedItems) cols').

Definition kanbanArchiveDone (h : Host) (vault board : str)
           (archiveColumn : option str) : IO Board :=
  vault' <- lift (nonEmpty vault) ;;
  board' <- lift (nonEmpty board) ;;
  let archiveColumn' :=
    match archiveColumn with Some a => a | None => Archive end in
  boardPath <- lift (validateVaultPath h vault' board') ;;
  b <- readKanbanFile boardPath ;;
  let archiveColumnName := or_Archive (Some archiveColumn') in
  let b' := archiveDone b archiveColumnName in
  _ <- writeKanbanFile h boardPath b' ;;
  ret b'.

(* ================================================================== *)
(** * kanban_merge (tools/kanban/bulk/clone.ts) *)
(* ================================================================== *)

(** One round of the loop over the items of a source column: the item is
    pushed unless some item of the target column has its text. *)
Definition mergeItem (targetItems : list Item) (item : Item) : list Item :=
  if existsb (texted (text item)) targetItems then targetItems
  else targetItems ++ [mkItem (text item) (completed item) (metadata item)].

(** One round of the loop over the columns of a source board. *)
Definition mergeColumn (targetColumns : list Column) (sourceColumn : Column)
  : list Column :=
  match findFirst (named (name sourceColumn)) targetColumns with
  | Some (ti, _) =>
      updateAt ti
        (fun c => set_items (fold_left mergeItem (items sourceColumn) (items c)) c)
        targetColumns
  | None =>
      targetColumns
        ++ [mkColumn (name sourceColumn)
                     (fold_left mergeItem (items sourceColumn) [])]
  end.

(** The body of the loop over the source boards, once the source is read
    ([merge] in the specification, for one source). *)
Definition mergeBoard (targetBoard sourceBoard : Board) : Board :=
  set_columns targetBoard
    (fold_left mergeColumn (columns sourceBoard) (columns targetBoard)).

(** The loop over [validated.sourceBoards]. *)
Fixpoint mergeSources (h : Host) (vault : str) (sourceBoards : list str)
         (targetBoard : Board) : IO Board :=
  match sourceBoards with
  | [] => ret targetBoard
  | sourceBoardPath :: rest =>
      sourcePath <- lift (validateVaultPath h vault sourceBoardPath) ;;
      sourceBoard <- readKanbanFile sourcePath ;;
      mergeSources h vault rest (mergeBoard targetBoard sourceBoard)
  end.

(** [z.array(z.string().min(1)).min(1)] *)
Fixpoint nonEmptyAll (l : list str) : result (list str) :=
  match l with
  | [] => Ok []
  | s :: l' => s' <-? nonEmpty s ;; r <-? nonEmptyAll l' ;; Ok (s' :: r)
  end.

Definition sourceBoardsArg (l : list str) : result (list str) :=
  match l with
  | [] => Err ZodError
  | _ => nonEmptyAll l
  end.

(** The board that stands in for a target that cannot be read. *)
Definition newBoard (targetPath : str) : Board :=
  mkBoard targetPath [(kanban_plugin, basic)] [].

(** [try { targetBoard = await readKanbanFile(targetPath) } catch { ... }] *)
Definition readOrCreate (targetPath : str) : IO Board :=
  fun fs =>
    match readKanbanFile targetPath fs with
    | (Ok b, fs') => (Ok b, fs')
    | (Err _, fs') => (Ok (newBoard targetPath), fs')
    end.

Definition kanbanMerge (h : Host) (vault : str) (sourceBoards : list str)
           (targetBoard : str) : IO Board :=
  vault' <- lift (nonEmpty vault) ;;
  sourceBoards' <- lift (sourceBoardsArg sourceBoards) ;;
  targetBoard' <- lift (nonEmpty targetBoard) ;;
  targetPath <- lift (validateVaultPath h vault' targetBoard') ;;
  target <- readOrCreate targetPath ;;
  merged <- mergeSources h vault' sourceBoards' target ;;
  _ <- writeKanbanFile h targetPath merged ;;
  ret merged.

(** What reading a source board gives: the parsed document, stamped with
    its path. *)
Definition reads (h : Host) (vault : str) (fs : Files)
           (sourceBoard : str) (b : Board) : Prop :=
  exists sp content,
    validateVaultPath h vault sourceBoard = Ok sp
    /\ readFile fs sp = Some content
    /\ b = mkBoard sp (settings (parseKanban content))
                   (columns (parseKanban content)).

(* ================================================================== *)
(** * Example inputs *)
(* ================================================================== *)

Definition task : str := Eval cbv in u "Task".

(** The text [Task] with a line feed and a space before it and a space, a
    carriage return and a line feed after it. *)
Definition padded_task : str := [10; 32] ++ task ++ [32; 13; 10].

(** A vertical tab followed by the letter a. *)
Definition vt_text : str := [11; 97].

(** The text [Task 1] between two spaces. *)
Definition padded_task1 : str := Eval cbv in u " Task 1 ".

Definition vault_root : str := Eval cbv in u "/vault".
Definition vault_root_slash : str := Eval cbv in u "/vault/".
Definition board_md : str := Eval cbv in u "board.md".
Definition board_path : str := Eval cbv in u "/vault/board.md".
Definition backlog : str := Eval cbv in u "Backlog".
Definition done_col : str := Eval cbv in u "Done".
Definition todo : str := Eval cbv in u "To Do".
Definition nowhere : str := Eval cbv in u "Nowhere".
Definition task1 : str := Eval cbv in u "Task 1".
Definition task2 : str := Eval cbv in u "Task 2".
Definition done_task : str := Eval cbv in u "Done task".

Definition home_user : str := Eval cbv in u "/home/user".

(** A host whose vault is the real directory [/vault], holding the given
    files and no symbolic links; every write succeeds. *)
Definition vault_host (existing : list str) : Host :=
  mkHost home_user
         (fun s => s)
         (fun p => if str_eqb p vault_root || str_eqb p vault_root_slash
                   then Some vault_root
                   else if existsb (str_eqb p) existing then Some p else None)
         (fun p => str_eqb p vault_root || existsb (str_eqb p) existing)
         (fun _ => true)
         (fun _ _ => true)
         (fun _ => true)
         (fun _ _ old => old).

(** The files of a vault that holds one document. *)
Definition one_file (p content : str) : Files := put (fun _ => None) p (Some content).

(** The document of scenario A. *)
Definition scenario_doc : str :=
  join_lines
    [ delimiter; []; plugin_prefix ++ basic; []; delimiter; [];
      header_prefix ++ backlog; [];
      unchecked_prefix ++ task1;
      unchecked_prefix ++ task2; [];
      header_prefix ++ done_col; [];
      checked_prefix ++ done_task; [];
      settings_open; fence; JSON_stringify [(kanban_plugin, basic)]; fence;
      sentinel; [] ].

(** A board of two empty columns. *)
Definition empty_pair : Board :=
  mkBoard board_path [(kanban_plugin, basic)]
          [mkColumn todo []; mkColumn done_col []].

(** The board of scenario A. *)
Definition scenario_board : Board :=
  mkBoard [] [(kanban_plugin, basic)]
          [ mkColumn backlog [mkItem task1 false None; mkItem task2 false None];
            mkColumn done_col [mkItem done_task true None] ].

(** What the code makes of the board of scenario A when it archives the
    completed items. *)
Definition scenario_archived : list Column :=
  [ mkColumn backlog [mkItem task1 false None; mkItem task2 false None];
    mkColumn done_col [];
    mkColumn Archive [mkItem done_task true None] ].

(** What scenario B expects: the first column emptied as well. *)
Definition scenario_archived_as_stated : list Column :=
  [ mkColumn backlog [];
    mkColumn done_col [];
    mkColumn Archive [mkItem done_task true None] ].

(** ** What the parser reads, in the words of the specification *)

(** The columns a scan ends with: those pushed, then the open one. *)
Definition finalize (r : list Column * option Column) : list Column :=
  match snd r with
  | Some c => fst r ++ [c]
  | None => fst r
  end.

(** The lines that come before the first sentinel line. *)
Fixpoint scanned (lines : list str) : list str :=
  match lines with
  | [] => []
  | line :: rest => if is_sentinel_line line then [] else line :: scanned rest
  end.

(** The column names announced by the header lines among [lines]. *)
Definition header_names (lines : list str) : list str :=
  flat_map (fun line => match headerMatch line with
                        | Some g => [trim g]
                        | None => []
                        end) lines.

Definition column_X : str := Eval cbv in u "X".

(** Two identical header lines. *)
Definition repeated_header_doc : str :=
  join_lines [header_prefix ++ column_X; header_prefix ++ column_X].

(** A header line that follows a sentinel line. *)
Definition late_header_doc : str :=
  join_lines [sentinel; header_prefix ++ column_X].

Definition buy_milk : str := Eval cbv in u "Buy milk".
Definition a_md : str := Eval cbv in u "a.md".
Definition b_md : str := Eval cbv in u "b.md".
Definition merged_md : str := Eval cbv in u "merged.md".
Definition a_path : str := Eval cbv in u "/vault/a.md".
Definition b_path : str := Eval cbv in u "/vault/b.md".
Definition merged_path : str := Eval cbv in u "/vault/merged.md".

(** A board with the single column [To Do] holding the single item
    [Buy milk]. *)
Definition milk_board (p : str) (checked : bool) : Board :=
  mkBoard p [(kanban_plugin, basic)]
          [mkColumn todo [mkItem buy_milk checked None]].

(** A vault with two such boards and no third file. *)
Definition milk_files : Files :=
  put (one_file a_path (serializeKanban (milk_board a_path false)))
      b_path (Some (serializeKanban (milk_board b_path true))).

Definition traversal : str := Eval cbv in u "../../etc/passwd".
Definition etc_passwd : str := Eval cbv in u "/etc/passwd".
Definition windows_path : str := Eval cbv in u "C:\Windows\System32".
Definition windows_path_in_vault : str :=
  Eval cbv in u "/vault/C:\Windows\System32".

(** ** Boards that survive a write and a read *)

(** U+2028 and U+2029, the line terminators that the validators let
    through. *)
Definition has_line_separator (s : str) : bool :=
  includes 8232 s || includes 8233 s.

Definition valid_item (i : Item) : Prop :=
  validateItemText (text i) = Ok (text i)
  /\ has_line_separator (text i) = false.

Definition valid_column (c : Column) : Prop :=
  validateColumnName (name c) = Ok (name c)
  /\ has_line_separator (name c) = false
  /\ Forall valid_item (items c).

(** The claim's condition on items and columns: the validators alone. *)
Definition validated_item (i : Item) : Prop :=
  validateItemText (text i) = Ok (text i).

Definition validated_column (c : Column) : Prop :=
  validateColumnName (name c) = Ok (name c)
  /\ Forall validated_item (items c).

(** An item and a column as the parser builds them: text and flag, no
    metadata. *)
Definition plain_item (i : Item) : Item :=
  mkItem (text i) (completed i) None.

Definition plain_column (c : Column) : Column :=
  mkColumn (name c) (List.map plain_item (items c)).

Definition column_A : str := Eval cbv in u "A".

(** The letters a and b with U+2028 between them. *)
Definition separated_text : str := [97; 8232; 98].

(** A board whose single item holds that text. *)
Definition separated_board : Board :=
  mkBoard [] [(kanban_plugin, basic)]
          [mkColumn column_A [mkItem separated_text false None]].

(* ================================================================== *)
(** * Path validator, synchronous variant (utils/path-validator.ts) *)
(* ================================================================== *)

(** [validateVaultPathSync]: the same checks without any access to the
    file system; the vault path is taken as it is written. *)
Definition validateVaultPathSync (h : Host) (vaultPath targetPath : str)
  : result str :=
  if strlen vaultPath =? 0 then Err (PathValidationError VaultPathEmpty)
  else if strlen targetPath =? 0 then Err (PathValidationError TargetPathEmpty)
  else if includes NUL vaultPath || includes NUL targetPath
  then Err (PathValidationError PathContainsNullByte)
  else
    let normalizedVault := normalizeNFC h vaultPath in
    let normalizedTarget := normalizeNFC h targetPath in
    if negb (PosixPath.isAbsolute normalizedVault)
    then Err (PathValidationError VaultPathNotAbsolute)
    else
      let candidatePath :=
        if PosixPath.isAbsolute normalizedTarget
        then PosixPath.resolve (cwd h) [normalizedTarget]
        else PosixPath.resolve (cwd h) [normalizedVault; normalizedTarget] in
      let normalizedCandidate := PosixPath.normalize candidatePath in
      let relativePath :=
        PosixPath.relative (cwd h) normalizedVault normalizedCandidate in
      if escapes relativePath
      then Err (PathValidationError PathEscapesVault)
      else if MAX_PATH_LENGTH <? strlen normalizedCandidate
      then Err (PathValidationError PathTooLong)
      else Ok normalizedCandidate.

(** A path segment as [resolve] leaves it: not empty, not a dot, not a
    double dot, and free of slashes. *)
Definition clean_segment (seg : str) : Prop :=
  seg <> [] /\ seg <> PosixPath.dot /\ seg <> PosixPath.dotdot
  /\ includes PosixPath.SLASH seg = false.

(** [p] lies in the directory [dir] or below it: resolved, its segments
    are those of [dir] followed by clean segments. *)
Definition inside (wd dir p : str) : Prop :=
  exists down,
    PosixPath.segments (PosixPath.resolve wd [p])
    = PosixPath.segments (PosixPath.resolve wd [dir]) ++ down
    /\ Forall clean_segment down.

(* ================================================================== *)
(** * kanban_read (tools/kanban/read.ts) *)
(* ================================================================== *)

Definition kanbanRead (h : Host) (vault board : str) : IO Board :=
  vault' <- lift (nonEmpty vault) ;;
  board' <- lift (nonEmpty board) ;;
  boardPath <- lift (validateVaultPath h vault' board') ;;
  readKanbanFile boardPath.

(* ================================================================== *)
(** * kanban_item_add (tools/kanban/items/add.ts) *)
(* ================================================================== *)

Record KanbanItemAddResult := mkAddResult {
  add_board : str;
  add_column : str;
  add_item : Item
}.

(** The part of [kanbanItemAdd] that works on the board in memory
    ([addItem] in the specification). *)
Definition addItem (board : Board) (column txt : str) (flag : bool)
  : result (Board * Item) :=
  match findFirst (named column) (columns board) with
  | None => Err (Error ColumnNotFound)
  | Some (ci, _) =>
      let item := mkItem txt flag None in
      Ok (set_columns board (updateAt ci (push_items [item]) (columns board)),
          item)
  end.

(** [z.boolean().optional().default(false)] *)
Definition completedArg (o : option bool) : bool :=
  match o with Some b => b | None => false end.

Definition kanbanItemAdd (h : Host) (vault board column txt : str)
           (flag : option bool) : IO KanbanItemAddResult :=
  vault' <- lift (nonEmpty vault) ;;
  board' <- lift (nonEmpty board) ;;
  column' <- lift (columnNameArg column) ;;
  text' <- lift (itemTextArg txt) ;;
  boardPath <- lift (validateVaultPath h vault' board') ;;
  b <- readKanbanFile boardPath ;;
  r <- lift (addItem b column' text' (completedArg flag)) ;;
  _ <- writeKanbanFile h boardPath (fst r) ;;
  ret (mkAddResult board' column' (snd r)).

(* ================================================================== *)
(** * kanban_item_remove (tools/kanban/items/remove.ts) *)
(* ================================================================== *)

Record KanbanItemRemoveResult := mkItemRemoveResult {
  item_remove_board : str;
  item_remove_column : str;
  removed : Item
}.

(** The part of [kanbanItemRemove] that works on the board in memory
    ([removeItem] in the specification). *)
Definition removeItem (board : Board) (column txt : str)
  : result (Board * Item) :=
  match findFirst (named column) (columns board) with
  | None => Err (Error ColumnNotFound)
  | Some (ci, col) =>
      match findFirst (texted txt) (items col) with
      | None => Err (Error ItemNotFound)
      | Some (itemIndex, item) =>
          Ok (set_columns board
                (updateAt ci (fun c => set_items (removeAt itemIndex (items c)) c)
                          (columns board)),
              item)
      end
  end.

Definition kanbanItemRemove (h : Host) (vault board column txt : str)
  : IO KanbanItemRemoveResult :=
  vault' <- lift (nonEmpty vault) ;;
  board' <- lift (nonEmpty board) ;;
  column' <- lift (columnNameArg column) ;;
  text' <- lift (itemTextArg txt) ;;
  boardPath <- lift (validateVaultPath h vault' board') ;;
  b <- readKanbanFile boardPath ;;
  r <- lift (removeItem b column' text') ;;
  _ <- writeKanbanFile h boardPath (fst r) ;;
  ret (mkItemRemoveResult board' column' (snd r)).

(* ================================================================== *)
(** * kanban_item_move (tools/kanban/items/move.ts) *)
(* ================================================================== *)

Record KanbanItemMoveResult := mkMoveResult {
  move_board : str;
  move_sourceColumn : str;
  move_targetColumn : str;
  move_item : Item
}.

(** The part of [kanbanItemMove] that works on the board in memory
    ([moveItem] in the specification).  Source and target are looked up
    before anything changes; when both names find the same column the push
    acts on the column the splice has just changed. *)
Definition moveItem (board : Board) (txt sourceColumn targetColumn : str)
  : result (Board * Item) :=
  match findFirst (named sourceColumn) (columns board) with
  | None => Err (Error SourceColumnNotFound)
  | Some (si, sourceCol) =>
      match findFirst (named targetColumn) (columns board) with
      | None => Err (Error TargetColumnNotFound)
      | Some (ti, _) =>
          match findFirst (texted txt) (items sourceCol) with
          | None => Err (Error ItemNotFound)
          | Some (itemIndex, item) =>
              let cols1 :=
                updateAt si
                  (fun c => set_items (removeAt itemIndex (items c)) c)
                  (columns board) in
              let cols2 := updateAt ti (push_items [item]) cols1 in
              Ok (set_columns board cols2, item)
          end
      end
  end.

Definition kanbanItemMove (h : Host) (vault board txt sourceColumn
                                       targetColumn : str)
  : IO KanbanItemMoveResult :=
  vault' <- lift (nonEmpty vault) ;;
  board' <- lift (nonEmpty board) ;;
  text' <- lift (itemTextArg txt) ;;
  source' <- lift (columnNameArg sourceColumn) ;;
  target' <- lift (columnNameArg targetColumn) ;;
  boardPath <- lift (validateVaultPath h vault' board') ;;
  b <- readKanbanFile boardPath ;;
  r <- lift (moveItem b text' source' target') ;;
  _ <- writeKanbanFile h boardPath (fst r) ;;
  ret (mkMoveResult board' source' target' (snd r)).

(* ================================================================== *)
(** * kanban_item_update (tools/kanban/items/update.ts) *)
(* ================================================================== *)

Record KanbanItemUpdateResult := mkUpdateResult {
  update_board : str;
  update_column : str;
  oldItem : Item;
  newItem : Item
}.

(** [item.text = newText] *)
Definition set_text (newText : str) (i : Item) : Item :=
  mkItem newText (completed i) (metadata i).

(** The part of [kanbanItemUpdate] that works on the board in memory
    ([updateItem] in the specification). *)
Definition updateItem (board : Board) (column oldText newText : str)
  : result (Board * (Item * Item)) :=
  match findFirst (named column) (columns board) with
  | None => Err (Error ColumnNotFound)
  | Some (ci, col) =>
      match findFirst (texted oldText) (items col) with
      | None => Err (Error ItemNotFound)
      | Some (ii, item) =>
          Ok (set_columns board
                (updateAt ci
                   (fun c => set_items (updateAt ii (set_text newText) (items c)) c)
                   (columns board)),
              (item, set_text newText item))
      end
  end.

Definition kanbanItemUpdate (h : Host) (vault board column oldText
                                         newText : str)
  : IO KanbanItemUpdateResult :=
  vault' <- lift (nonEmpty vault) ;;
  board' <- lift (nonEmpty board) ;;
  column' <- lift (columnNameArg column) ;;
  old' <- lift (itemTextArg oldText) ;;
  new' <- lift (itemTextArg newText) ;;
  boardPath <- lift (validateVaultPath h vault' board') ;;
  b <- readKanbanFile boardPath ;;
  r <- lift (updateItem b column' old' new') ;;
  _ <- writeKanbanFile h boardPath (fst r) ;;
  ret (mkUpdateResult board' column' (fst (snd r)) (snd (snd r))).

(* ================================================================== *)
(** * kanban_item_complete (tools/kanban/items/complete.ts) *)
(* ================================================================== *)

Record KanbanItemCompleteResult := mkCompleteResult {
  complete_board : str;
  complete_column : str;
  complete_item : Item;
  wasCompleted : bool;
  isCompleted : bool
}.

(** [item.completed = v] *)
Definition set_completed (v : bool) (i : Item) : Item :=
  mkItem (text i) v (metadata i).

(** The flag an item gets: the one supplied, or the opposite of the one
    it has. *)
Definition new_flag (supplied : option bool) (i : Item) : bool :=
  match supplied with
  | Some v => v
  | None => negb (completed i)
  end.

(** The part of [kanbanItemComplete] that works on the board in memory
    ([completeItem] in the specification). *)
Definition completeItem (board : Board) (column txt : str)
           (supplied : option bool)
  : result (Board * (Item * bool * bool)) :=
  match findFirst (named column) (columns board) with
  | None => Err (Error ColumnNotFound)
  | Some (ci, col) =>
      match findFirst (texted txt) (items col) with
      | None => Err (Error ItemNotFound)
      | Some (ii, item) =>
          let v := new_flag supplied item in
          Ok (set_columns board
                (updateAt ci
                   (fun c => set_items (updateAt ii (set_completed v) (items c)) c)
                   (columns board)),
              (set_completed v item, completed item, v))
      end
  end.

Definition kanbanItemComplete (h : Host) (vault board column txt : str)
           (supplied : option bool) : IO KanbanItemCompleteResult :=
  vault' <- lift (nonEmpty vault) ;;
  board' <- lift (nonEmpty board) ;;
  column' <- lift (columnNameArg column) ;;
  text' <- lift (itemTextArg txt) ;;
  boardPath <- lift (validateVaultPath h vault' board') ;;
  b <- readKanbanFile boardPath ;;
  r <- lift (completeItem b column' text' supplied) ;;
  _ <- writeKanbanFile h boardPath (fst r) ;;
  ret (mkCompleteResult board' column' (fst (fst (snd r)))
         (snd (fst (snd r))) (snd (snd r))).

(* ================================================================== *)
(** * kanban_clone (tools/kanban/bulk/clone.ts) *)
(* ================================================================== *)

Definition kanbanClone (h : Host) (vault sourceBoard targetBoard : str)
  : IO Board :=
  vault' <- lift (nonEmpty vault) ;;
  source' <- lift (nonEmpty sourceBoard) ;;
  target' <- lift (nonEmpty targetBoard) ;;
  sourcePath <- lift (validateVaultPath h vault' source') ;;
  b <- readKanbanFile sourcePath ;;
  targetPath <- lift (validateVaultPath h vault' target') ;;
  let b' := mkBoard targetPath (settings b) (columns b) in
  _ <- writeKanbanFile h targetPath b' ;;
  ret b'.

(* ================================================================== *)
(** * Errors of the column and board tools *)
(* ================================================================== *)

(** What the column and board tools throw: one of the errors above, or one
    of the plain [Error]s with a message of their own. *)
Inductive fault :=
| Raised (e : error)
| ColumnAlreadyExists
| PositionOutOfBounds
| BoardAlreadyExists
| AccessFailed
| MkdirFailed.

Inductive outcome (A : Type) :=
| Fine (a : A)
| Thrown (f : fault).
Arguments Fine {A} a.
Arguments Thrown {A} f.

Definition of_result {A} (r : result A) : outcome A :=
  match r with
  | Ok a => Fine a
  | Err e => Thrown (Raised e)
  end.

(** A computation of these tools. *)
Definition Run (A : Type) := Files -> outcome A * Files.

Definition finish {A} (a : A) : Run A := fun fs => (Fine a, fs).

Definition raise {A} (f : fault) : Run A := fun fs => (Thrown f, fs).

Definition andThen {A B} (c : Run A) (k : A -> Run B) : Run B :=
  fun fs =>
    match c fs with
    | (Fine a, fs') => k a fs'
    | (Thrown f, fs') => (Thrown f, fs')
    end.

Definition pure_step {A} (r : result A) : Run A := fun fs => (of_result r, fs).

Definition settle {A} (o : outcome A) : Run A := fun fs => (o, fs).

Definition io_step {A} (c : IO A) : Run A :=
  fun fs => let (r, fs') := c fs in (of_result r, fs').

Notation "x <~ c ;; k" := (andThen c (fun x => k))
  (at level 61, c at next level, right associativity).

(* ================================================================== *)
(** * kanban_column_add (tools/kanban/columns/add.ts) *)
(* ================================================================== *)

Record KanbanColumnAddResult := mkColumnAddResult {
  column_add_board : str;
  column_add_column : Column;
  column_add_position : nat
}.

(** The part of [kanbanColumnAdd] that works on the board in memory
    ([addColumn] in the specification).  The position, when given, is a
    non-negative integer (the schema has checked it). *)
Definition addColumn (board : Board) (n : str) (pos : option nat)
  : outcome (Board * (Column * nat)) :=
  match findFirst (named n) (columns board) with
  | Some _ => Thrown ColumnAlreadyExists
  | None =>
      let column := mkColumn n [] in
      let position :=
        match pos with
        | Some p => p
        | None => List.length (columns board)
        end in
      if Nat.ltb (List.length (columns board)) position
      then Thrown PositionOutOfBounds
      else Fine (set_columns board (insertAt position column (columns board)),
                 (column, position))
  end.

(** [z.number().int().min(0).optional()] *)
Definition optionalPositionArg (o : option Z) : result (option nat) :=
  match o with
  | Some n => p <-? positionArg n ;; Ok (Some (Z.to_nat p))
  | None => Ok None
  end.

Definition kanbanColumnAdd (h : Host) (vault board n : str) (pos : option Z)
  : Run KanbanColumnAddResult :=
  vault' <~ pure_step (nonEmpty vault) ;;
  board' <~ pure_step (nonEmpty board) ;;
  n' <~ pure_step (columnNameArg n) ;;
  pos' <~ pure_step (optionalPositionArg pos) ;;
  boardPath <~ pure_step (validateVaultPath h vault' board') ;;
  b <~ io_step (readKanbanFile boardPath) ;;
  r <~ settle (addColumn b n' pos') ;;
  _ <~ io_step (writeKanbanFile h boardPath (fst r)) ;;
  finish (mkColumnAddResult board' (fst (snd r)) (snd (snd r))).

(* ================================================================== *)
(** * kanban_column_rename (tools/kanban/columns/rename.ts) *)
(* ================================================================== *)

Record KanbanColumnRenameResult := mkRenameResult {
  rename_board : str;
  rename_oldName : str;
  rename_newName : str;
  rename_column : Column
}.

(** [column.name = newName] *)
Definition set_name (newName : str) (c : Column) : Column :=
  mkColumn newName (items c).

(** The part of [kanbanColumnRename] that works on the board in memory
    ([renameColumn] in the specification). *)
Definition renameColumn (board : Board) (oldName newName : str)
  : outcome (Board * Column) :=
  match findFirst (named oldName) (columns board) with
  | None => Thrown (Raised (Error ColumnNotFound))
  | Some (ci, column) =>
      match findFirst (named newName) (columns board) with
      | Some _ => Thrown ColumnAlreadyExists
      | None =>
          Fine (set_columns board (updateAt ci (set_name newName) (columns board)),
                set_name newName column)
      end
  end.

Definition kanbanColumnRename (h : Host) (vault board oldName newName : str)
  : Run KanbanColumnRenameResult :=
  vault' <~ pure_step (nonEmpty vault) ;;
  board' <~ pure_step (nonEmpty board) ;;
  old' <~ pure_step (columnNameArg oldName) ;;
  new' <~ pure_step (columnNameArg newName) ;;
  boardPath <~ pure_step (validateVaultPath h vault' board') ;;
  b <~ io_step (readKanbanFile boardPath) ;;
  r <~ settle (renameColumn b old' new') ;;
  _ <~ io_step (writeKanbanFile h boardPath (fst r)) ;;
  finish (mkRenameResult board' old' new' (snd r)).

(* ================================================================== *)
(** * kanban_column_move (tools/kanban/columns/move.ts) *)
(* ================================================================== *)

Record KanbanColumnMoveResult := mkColumnMoveResult {
  column_move_board : str;
  columnName : str;
  column_oldPosition : nat;
  column_newPosition : nat;
  column_move_column : Column
}.

(** The part of [kanbanColumnMove] that works on the board in memory
    ([moveColumn] in the specification).  The board is [None] when the
    column already sits at the position: the tool then returns without
    writing. *)
Definition moveColumn (board : Board) (n : str) (position : nat)
  : outcome (option Board * (nat * Column)) :=
  match findFirst (named n) (columns board) with
  | None => Thrown (Raised (Error ColumnNotFound))
  | Some (columnIndex, column) =>
      if Nat.leb (List.length (columns board)) position
      then Thrown PositionOutOfBounds
      else if Nat.eqb columnIndex position
      then Fine (None, (columnIndex, column))
      else Fine (Some (set_columns board
                         (insertAt position column
                            (removeAt columnIndex (columns board)))),
                 (columnIndex, column))
  end.

Definition kanbanColumnMove (h : Host) (vault board n : str) (position : Z)
  : Run KanbanColumnMoveResult :=
  vault' <~ pure_step (nonEmpty vault) ;;
  board' <~ pure_step (nonEmpty board) ;;
  n' <~ pure_step (columnNameArg n) ;;
  position' <~ pure_step (positionArg position) ;;
  boardPath <~ pure_step (validateVaultPath h vault' board') ;;
  b <~ io_step (readKanbanFile boardPath) ;;
  r <~ settle (moveColumn b n' (Z.to_nat position')) ;;
  match fst r with
  | None =>
      finish (mkColumnMoveResult board' n' (fst (snd r)) (Z.to_nat position')
              (snd (snd r)))
  | Some b' =>
      _ <~ io_step (writeKanbanFile h boardPath b') ;;
      finish (mkColumnMoveResult board' n' (fst (snd r)) (Z.to_nat position')
              (snd (snd r)))
  end.

(* ================================================================== *)
(** * kanban_create (tools/kanban/create.ts) *)
(* ================================================================== *)

(** The directories, by path. *)
Definition Folders := str -> bool.

(** What [kanbanCreate] asks of its environment besides the host: what
    [mkdir(dir, { recursive: true })] does to the directories and whether
    it resolves (directories it has made stay when it rejects), and the
    message of the error [access] rejects with. *)
Record Dirs := mkDirs {
  mkdir : str -> Folders -> bool * Folders;
  access_message : str -> str
}.

Fixpoint dropWhile {A} (p : A -> bool) (l : list A) : list A :=
  match l with
  | [] => []
  | x :: l' => if p x then dropWhile p l' else l
  end.

(** Modelled from the spec: [dirname] of [node:path] is not among the
    sources; the definition follows it on a POSIX host: trailing slashes
    and the last segment are dropped, the root stays. *)
Definition dirname (p : str) : str :=
  match p with
  | [] => PosixPath.dot
  | c :: rest =>
      let hasRoot := c =? PosixPath.SLASH in
      let r1 := dropWhile (fun x => x =? PosixPath.SLASH) (rev rest) in
      let r2 := dropWhile (fun x => negb (x =? PosixPath.SLASH)) r1 in
      match r2 with
      | [] => if hasRoot then PosixPath.sep else PosixPath.dot
      | _ :: r3 =>
          match r3 with
          | [] => if hasRoot then [PosixPath.SLASH; PosixPath.SLASH] else [c]
          | _ => c :: rev r3
          end
      end
  end.

Definition already_exists : str := Eval cbv in u "already exists".

(** [s.includes(needle)] *)
Definition includes_str (needle s : str) : bool :=
  match indexOf needle s with
  | Some _ => true
  | None => false
  end.

(** The [settings] field of [KanbanCreateSchema]: an optional object whose
    plugin key must be [basic] or [advanced], defaults to [basic] and comes
    first; the other keys pass through. *)
Definition settingsArg (o : option obj) : result (option obj) :=
  match o with
  | None => Ok None
  | Some s =>
      let others := filter (fun kv => negb (str_eqb (fst kv) kanban_plugin)) s in
      match obj_get kanban_plugin s with
      | None => Ok (Some ((kanban_plugin, basic) :: others))
      | Some v =>
          if str_eqb v basic || str_eqb v advanced
          then Ok (Some ((kanban_plugin, v) :: others))
          else Err ZodError
      end
  end.

(** [z.array(z.string().min(1).transform(validateColumnName)).min(1)] *)
Fixpoint columnNamesAll (l : list str) : result (list str) :=
  match l with
  | [] => Ok []
  | s :: l' => s' <-? columnNameArg s ;; r <-? columnNamesAll l' ;; Ok (s' :: r)
  end.

Definition columnsArg (l : list str) : result (list str) :=
  match l with
  | [] => Err ZodError
  | _ => columnNamesAll l
  end.

Record KanbanCreateResult := mkCreateResult {
  create_path : str;
  create_board : Board
}.

(** [validated.settings || { 'kanban-plugin': 'basic' }] *)
Definition or_default_settings (o : option obj) : obj :=
  match o with
  | Some s => s
  | None => [(kanban_plugin, basic)]
  end.

(** The arguments of [kanbanCreate] once [KanbanCreateSchema] and the path
    validator have accepted them: column names, settings, board path. *)
Definition createArgs (h : Host) (vault p : str) (cols : list str)
           (stg : option obj) : result (list str * option obj * str) :=
  vault' <-? nonEmpty vault ;;
  p' <-? nonEmpty p ;;
  cols' <-? columnsArg cols ;;
  stg' <-? settingsArg stg ;;
  boardPath <-? validateVaultPath h vault' p' ;;
  Ok (cols', stg', boardPath).

(** The tool runs on the files and the directories: the directories that
    [mkdir] makes are there afterwards, also when the write fails. *)
Definition kanbanCreate (h : Host) (d : Dirs) (vault p : str)
           (cols : list str) (stg : option obj)
  : Files * Folders -> outcome KanbanCreateResult * (Files * Folders) :=
  fun w =>
    match createArgs h vault p cols stg with
    | Err e => (Thrown (Raised e), w)
    | Ok (cols', stg', boardPath) =>
        if access h boardPath then (Thrown BoardAlreadyExists, w)
        else if includes_str already_exists (access_message d boardPath)
        then (Thrown AccessFailed, w)
        else
          let (made, folders) := mkdir d (dirname boardPath) (snd w) in
          if negb made then (Thrown MkdirFailed, (fst w, folders))
          else
            let b := mkBoard boardPath (or_default_settings stg')
                             (List.map (fun n => mkColumn n []) cols') in
            match writeKanbanFile h boardPath b (fst w) with
            | (Ok _, fs') => (Fine (mkCreateResult boardPath b), (fs', folders))
            | (Err e, fs') => (Thrown (Raised e), (fs', folders))
            end
    end.

(** The number of items on a board. *)
Definition item_count (cols : list Column) : nat :=
  list_sum (List.map (fun c => List.length (items c)) cols).

(** A board of one column holding two items of the same text, the first
    one checked. *)
Definition twin_board : Board :=
  mkBoard board_path [(kanban_plugin, basic)]
          [ mkColumn todo [mkItem buy_milk true None; mkItem task1 false None];
            mkColumn done_col [] ].

Definition review : str := Eval cbv in u "Review".

(** ** What archiving does to one column *)

(** What a column keeps: everything when it bears the archive name, its
    items that are not completed otherwise. *)
Definition kept (archiveColumnName : str) (c : Column) : Column :=
  if str_eqb (name c) archiveColumnName then c
  else set_items (filter (fun i => negb (completed i)) (items c)) c.

(** What a column gives up: nothing when it bears the archive name, its
    completed items otherwise. *)
Definition given_up (archiveColumnName : str) (c : Column) : list Item :=
  if str_eqb (name c) archiveColumnName then []
  else filter completed (items c).

(** The columns the loop runs over and the index of the archive column. *)
Definition archive_setup (b : Board) (A : str) : list Column * nat :=
  match findFirst (named A) (columns b) with
  | Some (i, _) => (columns b, i)
  | None => (columns b ++ [mkColumn A []], List.length (columns b))
  end.

(** ** What a merge achieves *)

(** The target columns hold a source column: the first target column of
    its name has, for every item of the source column, an item of the same
    text. *)
Definition holds (targetColumns : list Column) (sc : Column) : Prop :=
  exists ti tc,
    findFirst (named (name sc)) targetColumns = Some (ti, tc)
    /\ forall i, In i (items sc) ->
                 exists j, In j (items tc) /\ text j = text i.

(** A unit that may stand in a validated text: a tab, or no control
    character at all. *)
Definition printable (c : N) : Prop := c = 9 \/ 32 <= c.

(** ** What a tool does to the files *)

(** The temporary file can be written and renamed onto [p]. *)
Definition writable (h : Host) (p : str) : Prop :=
  can_write h (p ++ tmp_suffix) = true
  /\ can_rename h (p ++ tmp_suffix) p = true.

(** Every path holds what it held. *)
Definition untouched (fs fs' : Files) : Prop := forall q, fs' q = fs q.

(** The validated path holds a serialized board, its temporary file is
    gone, and every other path holds what it held. *)
Definition written (target : result str) (fs fs' : Files) : Prop :=
  exists p,
    target = Ok p
    /\ (exists b, fs' p = Some (serializeKanban b))
    /\ fs' (p ++ tmp_suffix) = None
    /\ forall q, q <> p -> q <> p ++ tmp_suffix -> fs' q = fs q.

(** Every path but the temporary file of the validated path holds what it
    held; the temporary file is gone when it can be unlinked. *)
Definition write_failed (h : Host) (target : result str) (fs fs' : Files)
  : Prop :=
  exists p,
    target = Ok p
    /\ (can_unlink h (p ++ tmp_suffix) = true -> fs' (p ++ tmp_suffix) = None)
    /\ forall q, q <> p ++ tmp_suffix -> fs' q = fs q.

(** A run that has written the board when it succeeds, and that has
    changed nothing when it fails, but for the temporary file of a failed
    write. *)
Definition changes_only {A} (h : Host) (target : result str) (fs : Files)
           (run : outcome A * Files) : Prop :=
  match fst run with
  | Fine _ => written target fs (snd run)
  | Thrown f =>
      untouched fs (snd run)
      \/ (f = Raised (Error FailedToWrite)
          /\ write_failed h target fs (snd run))
  end.

(** ** A tool and its in-memory part *)

(** The run of a tool on the file that holds the board [b] is its
    in-memory part followed by the write: when that part has computed a
    board and the file can be written, the tool returns the answer made of
    what was computed and the file holds the computed board, serialized;
    when that part fails, the tool fails with the same error and the files
    are as they were. *)
Definition runs_as {X R} (h : Host) (run : IO R) (b : Board)
           (computed : result (Board * X)) (answer : Board * X -> R) : Prop :=
  forall fs content,
    readFile fs (path b) = Some content ->
    settings (parseKanban content) = settings b ->
    columns (parseKanban content) = columns b ->
    (forall r, computed = Ok r -> writable h (path b) ->
               fst (run fs) = Ok (answer r)
               /\ snd (run fs) (path b) = Some (serializeKanban (fst r)))
    /\ (forall e, computed = Err e -> run fs = (Err e, fs)).

(** The same for the tools that throw messages of their own. *)
Definition settles_as {X R} (h : Host) (run : Run R) (b : Board)
           (computed : outcome (Board * X)) (answer : Board * X -> R) : Prop :=
  forall fs content,
    readFile fs (path b) = Some content ->
    settings (parseKanban content) = settings b ->
    columns (parseKanban content) = columns b ->
    (forall r, computed = Fine r -> writable h (path b) ->
               fst (run fs) = Fine (answer r)
               /\ snd (run fs) (path b) = Some (serializeKanban (fst r)))
    /\ (forall f, computed = Thrown f -> run fs = (Thrown f, fs)).

(** ** What the parser returns *)

(** A name or a text as the parser returns it: trimmed and free of line
    terminators. *)
Definition shaped_text (t : str) : Prop :=
  trim t = t /\ existsb is_line_terminator t = false.

Definition shaped_item (i : Item) : Prop := shaped_text (text i).

(** A column the serializer can write so that the parser finds it again:
    texts shaped as above and a name that is not empty. *)
Definition shaped_column (c : Column) : Prop :=
  shaped_text (name c) /\ name c <> [] /\ Forall shaped_item (items c).

(** A column as the parser builds it. *)
Definition parsed_column (c : Column) : Prop :=
  shaped_text (name c)
  /\ Forall (fun i => shaped_text (text i) /\ metadata i = None) (items c).

(** A column whose name and texts hold no lone surrogate. *)
Definition well_formed_column (c : Column) : Prop :=
  well_formed (name c) /\ Forall (fun i => well_formed (text i)) (items c).

Definition lane_width : str := Eval cbv in u "lane-width".
Definition three_hundred : str := Eval cbv in u "300".

(** A board with a setting besides the plugin key and an item whose text
    is empty. *)
Definition wide_board : Board :=
  mkBoard board_path [(kanban_plugin, basic); (lane_width, three_hundred)]
          [ mkColumn todo [mkItem [] false None; mkItem task1 true None] ].

(** ** Boards on disk *)

(** The document at [p] reads as a board the program can write back: its
    plugin is [basic] or [advanced] and none of its columns has an empty
    name. *)
Definition holds_board (fs : Files) (p : str) (v : str)
           (cols : list Column) : Prop :=
  exists content,
    readFile fs p = Some content
    /\ obj_get kanban_plugin (settings (parseKanban content)) = Some v
    /\ (v = basic \/ v = advanced)
    /\ columns (parseKanban content) = cols
    /\ Forall (fun c => name c <> []) cols.

(** The message [access] rejects with when nothing exists at the path. *)
Definition no_such_file : str :=
  Eval cbv in u "ENOENT: no such file or directory".

(** Directories that can always be made, and paths at which [access]
    finds nothing. *)
Definition obliging : Dirs :=
  mkDirs (fun dir folders => (true, fun q => folders q || str_eqb q dir))
         (fun _ => no_such_file).

(** The board of scenario A with the first two items of its first column
    exchanged. *)
Definition scenario_swapped : Board :=
  mkBoard [] [(kanban_plugin, basic)]
          [ mkColumn backlog [mkItem task2 false None; mkItem task1 false None];
            mkColumn done_col [mkItem done_task true None] ].

(* ================================================================== *)
(** * Properties *)
(* ================================================================== *)

(** ** Strings *)

Lemma str_eqb_eq (a b : str) : str_eqb a b = true <-> a = b.
Proof.
  revert b; induction a as [|x a IH]; intros [|y b]; simpl;
    try (split; [discriminate | discriminate]); try tauto.
  rewrite andb_true_iff, N.eqb_eq, IH. split.
  - intros [-> ->]; reflexivity.
  - intros H; injection H; auto.
Qed.

Lemma str_eqb_refl (a : str) : str_eqb a a = true.
Proof. apply str_eqb_eq; reflexivity. Qed.

Lemma str_eqb_neq (a b : str) : str_eqb a b = false <-> a <> b.
Proof.
  split.
  - intros H E. apply str_eqb_eq in E. congruence.
  - intros H. destruct (str_eqb a b) eqn:E; [|reflexivity].
    apply str_eqb_eq in E. contradiction.
Qed.

Lemma strlen_zero (s : str) : (strlen s =? 0) = true <-> s = [].
Proof.
  unfold strlen. rewrite N.eqb_eq. destruct s; simpl; split; intros H;
    try reflexivity; try discriminate; lia.
Qed.

(** ** Validators *)

Lemma validateItemText_accepts (s : str) :
  containsNullByte s = false ->
  containsControlCharacters s true = false ->
  includes LF (trim s) = false ->
  includes CR (trim s) = false ->
  trim s <> [] ->
  strlen (trim s) <= MAX_ITEM_TEXT_LENGTH ->
  validateItemText s = Ok (trim s).
Proof.
  intros Hn Hc Hl Hr He Hlen. unfold validateItemText.
  rewrite Hn, Hc, Hl, Hr. simpl.
  destruct (strlen (trim s) =? 0) eqn:E.
  - apply strlen_zero in E. contradiction.
  - apply N.ltb_ge in Hlen. rewrite Hlen. reflexivity.
Qed.

Lemma validateColumnName_accepts (s : str) :
  containsNullByte s = false ->
  includes LF s = false ->
  includes CR s = false ->
  containsControlCharacters s false = false ->
  trim s <> [] ->
  strlen (trim s) <= MAX_COLUMN_NAME_LENGTH ->
  validateColumnName s = Ok (trim s).
Proof.
  intros Hn Hl Hr Hc He Hlen. unfold validateColumnName.
  rewrite Hn, Hl, Hr, Hc. simpl.
  destruct (strlen (trim s) =? 0) eqn:E.
  - apply strlen_zero in E. contradiction.
  - apply N.ltb_ge in Hlen. rewrite Hlen. reflexivity.
Qed.

Lemma validateColumnName_newline (s : str) :
  includes LF s = true \/ includes CR s = true ->
  is_err (validateColumnName s) = true.
Proof.
  intros H. unfold validateColumnName.
  destruct (containsNullByte s); [reflexivity|].
  assert (E : includes LF s || includes CR s = true)
    by (apply orb_true_iff; exact H).
  rewrite E. reflexivity.
Qed.

Lemma validateColumnName_too_long (s : str) :
  MAX_COLUMN_NAME_LENGTH < strlen (trim s) ->
  is_err (validateColumnName s) = true.
Proof.
  intros H. unfold validateColumnName.
  destruct (containsNullByte s); [reflexivity|].
  destruct (includes LF s || includes CR s); [reflexivity|].
  destruct (containsControlCharacters s false); [reflexivity|].
  simpl. destruct (strlen (trim s) =? 0); [reflexivity|].
  apply N.ltb_lt in H. rewrite H. reflexivity.
Qed.

(** C5 (as amended).  An item text is accepted, and returned trimmed,
    whenever the whole string is free of null bytes and of control
    characters other than tab, line feed and carriage return, and its
    trimmed form is non-empty, at most 10,240 units long and free of line
    feeds and carriage returns: line breaks in the surrounding white space
    are trimmed away before they are looked for.  A column name is rejected
    whenever it holds a line feed or a carriage return anywhere, and
    whenever its trimmed form is longer than 200 units; otherwise, free of
    null bytes and control characters other than tab and non-empty once
    trimmed, it is returned trimmed. *)
Theorem validators_newline_handling (s : str) :
  (containsNullByte s = false ->
   containsControlCharacters s true = false ->
   includes LF (trim s) = false ->
   includes CR (trim s) = false ->
   trim s <> [] ->
   strlen (trim s) <= MAX_ITEM_TEXT_LENGTH ->
   validateItemText s = Ok (trim s))
  /\ (includes LF s = true \/ includes CR s = true ->
      is_err (validateColumnName s) = true)
  /\ (MAX_COLUMN_NAME_LENGTH < strlen (trim s) ->
      is_err (validateColumnName s) = true)
  /\ (containsNullByte s = false ->
      includes LF s = false ->
      includes CR s = false ->
      containsControlCharacters s false = false ->
      trim s <> [] ->
      strlen (trim s) <= MAX_COLUMN_NAME_LENGTH ->
      validateColumnName s = Ok (trim s)).
Proof.
  split; [apply validateItemText_accepts|].
  split; [apply validateColumnName_newline|].
  split; [apply validateColumnName_too_long|].
  apply validateColumnName_accepts.
Qed.

(** A text wrapped in line breaks: accepted as an item text, rejected as a
    column name. *)
Lemma validators_newline_handling_witness :
  validateItemText padded_task = Ok (trim padded_task)
  /\ trim padded_task = task
  /\ is_err (validateColumnName padded_task) = true.
Proof.
  split; [|split].
  - apply (proj1 (validators_newline_handling padded_task));
      vm_compute; (reflexivity || discriminate).
  - reflexivity.
  - apply (proj1 (proj2 (validators_newline_handling padded_task))).
    left. reflexivity.
Defined.

(** C5 as stated fails: a leading vertical tab is white space, so the
    trimmed form of the string meets every condition of the claim, yet the
    control-character check runs on the untrimmed string and rejects it. *)
Lemma validateItemText_leading_vertical_tab :
  trim vt_text = [97]
  /\ containsNullByte (trim vt_text) = false
  /\ containsControlCharacters (trim vt_text) false = false
  /\ includes LF (trim vt_text) = false
  /\ includes CR (trim vt_text) = false
  /\ validateItemText vt_text = Err (InputValidationError ForbiddenControlCharacters)
  /\ validateItemText vt_text <> Ok (trim vt_text).
Proof.
  repeat split; try reflexivity. vm_compute. discriminate.
Qed.

(** ** Arrays *)

Lemma findFirst_None {A} (p : A -> bool) (l : list A) :
  findFirst p l = None <-> (forall x, In x l -> p x = false).
Proof.
  induction l as [|a l IH]; simpl.
  - split; [intros _ x [] | reflexivity].
  - destruct (p a) eqn:Ea.
    + split; [discriminate|]. intros H. rewrite (H a) in Ea by auto.
      discriminate.
    + destruct (findFirst p l) as [[i y]|].
      * split; [discriminate|]. intros H.
        assert (Some (i, y) = None) as E; [|discriminate E].
        apply IH. intros x Hx. apply H. auto.
      * split; [|reflexivity]. intros _ x [<-|Hx]; [exact Ea|].
        apply IH; auto.
Qed.

(** [findFirst] returns the first element that satisfies the test. *)
Lemma findFirst_Some {A} (p : A -> bool) (l : list A) (i : nat) (x : A) :
  findFirst p l = Some (i, x) ->
  nth_error l i = Some x /\ p x = true
  /\ (forall j y, (j < i)%nat -> nth_error l j = Some y -> p y = false).
Proof.
  revert i; induction l as [|a l IH]; simpl; intros i H; [discriminate|].
  destruct (p a) eqn:Ea.
  - injection H as <- <-. repeat split; auto. intros j y Hj. lia.
  - destruct (findFirst p l) as [[k y]|]; [|discriminate].
    injection H as <- <-. destruct (IH k eq_refl) as (H1 & H2 & H3).
    repeat split; auto. intros [|j] z Hj Hz; simpl in Hz.
    + injection Hz as <-. exact Ea.
    + apply (H3 j); [lia | exact Hz].
Qed.

Lemma findFirst_lt {A} (p : A -> bool) (l : list A) (i : nat) (x : A) :
  findFirst p l = Some (i, x) -> (i < List.length l)%nat.
Proof.
  intros H. apply findFirst_Some in H. destruct H as (H & _).
  apply nth_error_Some. rewrite H. discriminate.
Qed.

Lemma length_removeAt {A} (i : nat) (l : list A) :
  (i < List.length l)%nat ->
  List.length (removeAt i l) = (List.length l - 1)%nat.
Proof.
  revert i; induction l as [|a l IH]; simpl; intros i H; [lia|].
  destruct i; simpl; [lia|]. rewrite IH by lia. lia.
Qed.

Lemma length_insertAt {A} (i : nat) (x : A) (l : list A) :
  List.length (insertAt i x l) = S (List.length l).
Proof.
  revert l; induction i as [|i IH]; intros [|a l]; simpl; auto.
Qed.

Lemma nth_error_insertAt {A} (i : nat) (x : A) (l : list A) :
  (i <= List.length l)%nat -> nth_error (insertAt i x l) i = Some x.
Proof.
  revert l; induction i as [|i IH]; intros [|a l]; simpl; intros H;
    try reflexivity; try lia.
  apply IH. lia.
Qed.

(** Inserting at the length appends. *)
Lemma insertAt_length {A} (x : A) (l : list A) :
  insertAt (List.length l) x l = l ++ [x].
Proof. induction l as [|a l IH]; simpl; [reflexivity | rewrite IH; reflexivity]. Qed.

Lemma nth_error_updateAt {A} (i : nat) (f : A -> A) (l : list A) (x : A) :
  nth_error l i = Some x -> nth_error (updateAt i f l) i = Some (f x).
Proof.
  revert i; induction l as [|a l IH]; intros [|i]; simpl; intros H;
    try discriminate.
  - injection H as <-. reflexivity.
  - apply IH, H.
Qed.

Lemma nth_error_updateAt_other {A} (i j : nat) (f : A -> A) (l : list A) :
  i <> j -> nth_error (updateAt i f l) j = nth_error l j.
Proof.
  revert i j; induction l as [|a l IH]; intros [|i] [|j]; simpl; intros H;
    try reflexivity; try lia.
  apply IH. lia.
Qed.

Lemma length_updateAt {A} (i : nat) (f : A -> A) (l : list A) :
  List.length (updateAt i f l) = List.length l.
Proof.
  revert i; induction l as [|a l IH]; intros [|i]; simpl; auto.
Qed.

(** ** File operations *)

Lemma nonEmpty_ok (s : str) : s <> [] -> nonEmpty s = Ok s.
Proof. destruct s; [contradiction | reflexivity]. Qed.

Lemma nonEmptyAll_ok (l : list str) :
  Forall (fun s => s <> []) l -> nonEmptyAll l = Ok l.
Proof.
  induction 1 as [|s l Hs _ IH]; simpl; [reflexivity|].
  rewrite (nonEmpty_ok s Hs). simpl. rewrite IH. reflexivity.
Qed.

Lemma str_eqb_app_suffix (p s : str) : s <> [] -> str_eqb p (p ++ s) = false.
Proof.
  intros Hs. apply str_eqb_neq. intros E. apply Hs.
  apply (app_inv_head p). rewrite app_nil_r. symmetry. exact E.
Qed.

Lemma tmp_differs (p : str) : p <> p ++ tmp_suffix.
Proof.
  apply str_eqb_neq, str_eqb_app_suffix. discriminate.
Qed.

Lemma put_same (fs : Files) (p : str) (v : option str) : put fs p v p = v.
Proof. unfold put. rewrite str_eqb_refl. reflexivity. Qed.

Lemma put_other (fs : Files) (p q : str) (v : option str) :
  q <> p -> put fs p v q = fs q.
Proof.
  intros H. unfold put. apply str_eqb_neq in H. rewrite H. reflexivity.
Qed.

Lemma nonEmpty_inv (s s' : str) : nonEmpty s = Ok s' -> s' = s.
Proof.
  unfold nonEmpty. destruct (strlen s =? 0); [discriminate|].
  intros H. injection H as <-. reflexivity.
Qed.

Lemma readKanbanFile_read (p content : str) (fs : Files) :
  readFile fs p = Some content ->
  readKanbanFile p fs
  = (Ok (mkBoard p (settings (parseKanban content))
                 (columns (parseKanban content))), fs).
Proof. intros H. unfold readKanbanFile. rewrite H. reflexivity. Qed.

Lemma readKanbanFile_missing (p : str) (fs : Files) :
  fs p = None -> readKanbanFile p fs = (Err (Error FailedToRead), fs).
Proof.
  intros H. unfold readKanbanFile, readFile. rewrite H. reflexivity.
Qed.

(** A write that succeeds: the target holds the serialized board, the
    temporary file is gone, every other path holds what it held. *)
Lemma writeKanbanFile_writable (h : Host) (p : str) (b : Board) (fs : Files) :
  writable h p ->
  exists fs',
    writeKanbanFile h p b fs = (Ok tt, fs')
    /\ fs' p = Some (serializeKanban b)
    /\ fs' (p ++ tmp_suffix) = None
    /\ forall q, q <> p -> q <> p ++ tmp_suffix -> fs' q = fs q.
Proof.
  intros (Hw & Hr). unfold writeKanbanFile. rewrite Hw, Hr.
  eexists. split; [reflexivity|]. split; [|split].
  - rewrite put_other by apply tmp_differs. apply put_same.
  - apply put_same.
  - intros q H1 H2. rewrite !put_other by assumption. reflexivity.
Qed.

(** Read, change in memory, write, answer: the tail the tools share. *)
Lemma read_modify_write_run {X R}
      (h : Host) (p : str) (op : Board -> result (Board * X))
      (k : Board * X -> R) (fs : Files) (content : str) :
  readFile fs p = Some content ->
  (b <- readKanbanFile p ;;
   r <- lift (op b) ;;
   _ <- writeKanbanFile h p (fst r) ;;
   ret (k r)) fs
  = match op (mkBoard p (settings (parseKanban content))
                      (columns (parseKanban content))) with
    | Err e => (Err e, fs)
    | Ok r =>
        match writeKanbanFile h p (fst r) fs with
        | (Ok _, fs') => (Ok (k r), fs')
        | (Err e, fs') => (Err e, fs')
        end
    end.
Proof.
  intros H. unfold bind at 1. rewrite (readKanbanFile_read p content fs H).
  unfold bind at 1, lift. destruct (op _) as [r|e]; [|reflexivity].
  unfold bind, ret.
  destruct (writeKanbanFile h p (fst r) fs) as [[[]|e] fs']; reflexivity.
Qed.

Lemma bind_lift {A B} (r : result A) (k : A -> IO B) (fs : Files) :
  bind (lift r) k fs
  = match r with
    | Ok a => k a fs
    | Err e => (Err e, fs)
    end.
Proof. unfold bind, lift. destruct r; reflexivity. Qed.

Lemma tail_runs_as {X R} (h : Host) (b : Board)
      (op : Board -> result (Board * X)) (k : Board * X -> R) :
  runs_as h
    (b0 <- readKanbanFile (path b) ;;
     r <- lift (op b0) ;;
     _ <- writeKanbanFile h (path b) (fst r) ;;
     ret (k r))
    b (op b) k.
Proof.
  intros fs content Hf Hs Hc.
  rewrite (read_modify_write_run h (path b) op k fs content Hf).
  replace (mkBoard (path b) (settings (parseKanban content))
                   (columns (parseKanban content))) with b
    by (rewrite Hs, Hc; destruct b; reflexivity).
  split.
  - intros r Hr Hw. rewrite Hr.
    destruct (writeKanbanFile_writable h (path b) (fst r) fs Hw)
      as (fs' & Ew & Hfile & _).
    rewrite Ew. split; [reflexivity | exact Hfile].
  - intros e He. rewrite He. reflexivity.
Qed.

Lemma andThen_pure_step {A B} (r : result A) (k : A -> Run B) (fs : Files) :
  andThen (pure_step r) k fs
  = match r with
    | Ok a => k a fs
    | Err e => (Thrown (Raised e), fs)
    end.
Proof. unfold andThen, pure_step. destruct r; reflexivity. Qed.

Lemma settle_modify_write_run {X R}
      (h : Host) (p : str) (op : Board -> outcome (Board * X))
      (k : Board * X -> R) (fs : Files) (content : str) :
  readFile fs p = Some content ->
  (b <~ io_step (readKanbanFile p) ;;
   r <~ settle (op b) ;;
   _ <~ io_step (writeKanbanFile h p (fst r)) ;;
   finish (k r)) fs
  = match op (mkBoard p (settings (parseKanban content))
                      (columns (parseKanban content))) with
    | Thrown f => (Thrown f, fs)
    | Fine r =>
        match writeKanbanFile h p (fst r) fs with
        | (Ok _, fs') => (Fine (k r), fs')
        | (Err e, fs') => (Thrown (Raised e), fs')
        end
    end.
Proof.
  intros H. unfold andThen at 1, io_step at 1.
  rewrite (readKanbanFile_read p content fs H). cbn [of_result].
  unfold andThen at 1, settle. destruct (op _) as [r|f]; [|reflexivity].
  unfold andThen, io_step, finish.
  destruct (writeKanbanFile h p (fst r) fs) as [[[]|e] fs']; reflexivity.
Qed.

Lemma tail_settles_as {X R} (h : Host) (b : Board)
      (op : Board -> outcome (Board * X)) (k : Board * X -> R) :
  settles_as h
    (b0 <~ io_step (readKanbanFile (path b)) ;;
     r <~ settle (op b0) ;;
     _ <~ io_step (writeKanbanFile h (path b) (fst r)) ;;
     finish (k r))
    b (op b) k.
Proof.
  intros fs content Hf Hs Hc.
  rewrite (settle_modify_write_run h (path b) op k fs content Hf).
  replace (mkBoard (path b) (settings (parseKanban content))
                   (columns (parseKanban content))) with b
    by (rewrite Hs, Hc; destruct b; reflexivity).
  split.
  - intros r Hr Hw. rewrite Hr.
    destruct (writeKanbanFile_writable h (path b) (fst r) fs Hw)
      as (fs' & Ew & Hfile & _).
    rewrite Ew. split; [reflexivity | exact Hfile].
  - intros f Hf'. rewrite Hf'. reflexivity.
Qed.

Lemma board_as_read (board : Board) (content : str) :
  settings (parseKanban content) = settings board ->
  columns (parseKanban content) = columns board ->
  mkBoard (path board) (settings (parseKanban content))
          (columns (parseKanban content)) = board.
Proof. intros -> ->. destruct board; reflexivity. Qed.

(** ** kanban_item_reorder *)

(** The clamp of the source, for a position that is not negative. *)
Lemma clamp_min (position : Z) (n : nat) :
  (0 <= position)%Z ->
  Z.to_nat (Z.max 0 (Z.min position (Z.of_nat n)))
  = Nat.min (Z.to_nat position) n.
Proof. intros H. lia. Qed.

(** The tool, once its arguments are validated and the board file is
    read, is its in-memory part followed by the write. *)
Lemma kanbanItemReorder_in_memory
  (h : Host) (vault board rawColumn rawText column txt : str)
  (position : Z) (fs : Files) (p content : str) :
  vault <> [] ->
  board <> [] ->
  columnNameArg rawColumn = Ok column ->
  itemTextArg rawText = Ok txt ->
  (0 <= position)%Z ->
  validateVaultPath h vault board = Ok p ->
  readFile fs p = Some content ->
  kanbanItemReorder h vault board rawColumn rawText position fs
  = match reorderItem (mkBoard p (settings (parseKanban content))
                               (columns (parseKanban content)))
                      column txt position with
    | Err e => (Err e, fs)
    | Ok r =>
        match writeKanbanFile h p (fst r) fs with
        | (Ok _, fs') =>
            (Ok (mkReorderResult board column (fst (fst (snd r)))
                   (snd (fst (snd r))) (snd (snd r))), fs')
        | (Err e, fs') => (Err e, fs')
        end
    end.
Proof.
  intros Hv Hb Hc Ht Hpos Hp Hf. unfold kanbanItemReorder.
  rewrite bind_lift, (nonEmpty_ok _ Hv), bind_lift, (nonEmpty_ok _ Hb).
  rewrite bind_lift, Hc, bind_lift, Ht, bind_lift. unfold positionArg.
  replace (position <? 0)%Z with false by (symmetry; apply Z.ltb_ge; exact Hpos).
  rewrite bind_lift, Hp.
  apply (read_modify_write_run h p
           (fun b => reorderItem b column txt position)
           (fun r => mkReorderResult board column (fst (fst (snd r)))
                       (snd (fst (snd r))) (snd (snd r)))
           fs content Hf).
Qed.

(** C4.  When the column exists and holds an item with the given text, and
    the position is not negative, the first item with that text is removed
    and put back at index [min position n], where [n] is the number of
    items left after the removal; every other column is untouched; the item
    then sits at that index, which is the last index of the column whenever
    the position exceeds [n].  When no column has the name, or the column
    has no item with the text, the tool fails with the corresponding
    not-found error.  The tool itself, run on the file that holds the
    board, returns the item with its old and its new position and leaves
    the board so reordered in the file; when its in-memory part fails it
    fails with the same error and leaves the files as they were. *)
Theorem kanbanItemReorder_clamps
  (board : Board) (column txt : str) (position : Z) :
  (0 <= position)%Z ->
  (forall ci col oldPos item,
      findFirst (named column) (columns board) = Some (ci, col) ->
      findFirst (texted txt) (items col) = Some (oldPos, item) ->
      let rest := removeAt oldPos (items col) in
      let n := List.length rest in
      let newPos := Nat.min (Z.to_nat position) n in
      let items' := insertAt newPos item rest in
      reorderItem board column txt position
      = Ok (set_columns board
              (updateAt ci (set_items items') (columns board)),
            (item, oldPos, newPos))
      /\ S n = List.length (items col)
      /\ nth_error items' newPos = Some item
      /\ List.length items' = S n
      /\ ((Z.of_nat n < position)%Z -> newPos = n /\ items' = rest ++ [item]))
  /\ ((forall c, In c (columns board) -> name c <> column) ->
      reorderItem board column txt position = Err (Error ColumnNotFound))
  /\ (forall ci col,
         findFirst (named column) (columns board) = Some (ci, col) ->
         (forall i, In i (items col) -> text i <> txt) ->
         reorderItem board column txt position = Err (Error ItemNotFound))
  /\ (forall h vault file rawColumn rawText fs content,
         vault <> [] ->
         file <> [] ->
         columnNameArg rawColumn = Ok column ->
         itemTextArg rawText = Ok txt ->
         validateVaultPath h vault file = Ok (path board) ->
         readFile fs (path board) = Some content ->
         settings (parseKanban content) = settings board ->
         columns (parseKanban content) = columns board ->
         (forall ci col oldPos item,
             findFirst (named column) (columns board) = Some (ci, col) ->
             findFirst (texted txt) (items col) = Some (oldPos, item) ->
             writable h (path board) ->
             let rest := removeAt oldPos (items col) in
             let newPos := Nat.min (Z.to_nat position) (List.length rest) in
             let run :=
               kanbanItemReorder h vault file rawColumn rawText position fs in
             fst run = Ok (mkReorderResult file column item oldPos newPos)
             /\ snd run (path board)
                = Some (serializeKanban
                          (set_columns board
                             (updateAt ci
                                (set_items (insertAt newPos item rest))
                                (columns board)))))
         /\ (forall e,
                reorderItem board column txt position = Err e ->
                kanbanItemReorder h vault file rawColumn rawText position fs
                = (Err e, fs))).
Proof.
  intros Hpos.
  assert (Found : forall ci col oldPos item,
             findFirst (named column) (columns board) = Some (ci, col) ->
             findFirst (texted txt) (items col) = Some (oldPos, item) ->
             reorderItem board column txt position
             = Ok (set_columns board
                     (updateAt ci
                        (set_items
                           (insertAt
                              (Nat.min (Z.to_nat position)
                                 (List.length (removeAt oldPos (items col))))
                              item (removeAt oldPos (items col))))
                        (columns board)),
                   (item, oldPos,
                    Nat.min (Z.to_nat position)
                      (List.length (removeAt oldPos (items col)))))).
  { intros ci col oldPos item Hc Hi. unfold reorderItem. rewrite Hc, Hi.
    cbv zeta. rewrite (clamp_min position _ Hpos). reflexivity. }
  split; [|split; [|split]].
  - intros ci col oldPos item Hc Hi rest n newPos items'.
    split; [apply (Found ci col oldPos item Hc Hi)|].
    pose proof (findFirst_lt _ _ _ _ Hi) as Hlt.
    assert (Hn : n = (List.length (items col) - 1)%nat)
      by (apply length_removeAt; exact Hlt).
    split; [lia|]. split.
    + apply nth_error_insertAt. unfold newPos. fold n. lia.
    + split; [apply length_insertAt|].
      intros Hbig. assert (E : newPos = n) by (unfold newPos; lia).
      split; [exact E|]. unfold items'. rewrite E. apply insertAt_length.
  - intros Habs. unfold reorderItem.
    replace (findFirst (named column) (columns board)) with (@None (nat * Column));
      [reflexivity|].
    symmetry. apply findFirst_None. intros c Hin. apply str_eqb_neq.
    apply Habs, Hin.
  - intros ci col Hc Habs. unfold reorderItem. rewrite Hc.
    replace (findFirst (texted txt) (items col)) with (@None (nat * Item));
      [reflexivity|].
    symmetry. apply findFirst_None. intros i Hin. apply str_eqb_neq.
    apply Habs, Hin.
  - intros h vault file rawColumn rawText fs content Hv Hfile Hc Ht Hp Hf Hs Hcs.
    pose proof (kanbanItemReorder_in_memory h vault file rawColumn rawText
                  column txt position fs (path board) content
                  Hv Hfile Hc Ht Hpos Hp Hf) as Run.
    rewrite (board_as_read board content Hs Hcs) in Run.
    split.
    + intros ci col oldPos item Hfc Hfi Hw rest newPos run.
      unfold run. rewrite Run, (Found ci col oldPos item Hfc Hfi).
      cbn [fst snd].
      destruct (writeKanbanFile_writable h (path board)
                  (set_columns board
                     (updateAt ci
                        (set_items
                           (insertAt
                              (Nat.min (Z.to_nat position)
                                 (List.length (removeAt oldPos (items col))))
                              item (removeAt oldPos (items col))))
                        (columns board))) fs Hw)
        as (fs' & Ew & Hfile' & _).
      rewrite Ew. cbn [fst snd]. split; [reflexivity | exact Hfile'].
    + intros e He. rewrite Run, He. reflexivity.
Qed.

(** ** kanban_column_remove *)

(** Every failure of the in-memory part of a tool leaves the files as they
    were: nothing is written before the board has been changed in memory. *)
Lemma kanbanColumnRemove_failure_keeps_files
  (h : Host) (vault board n : str) (target : option str) (fs : Files)
  (p content : str) (e : error) :
  nonEmpty vault = Ok vault ->
  nonEmpty board = Ok board ->
  columnNameArg n = Ok n ->
  optionalColumnNameArg target = Ok target ->
  validateVaultPath h vault board = Ok p ->
  readFile fs p = Some content ->
  removeColumn (mkBoard p (settings (parseKanban content))
                        (columns (parseKanban content))) n target = Err e ->
  kanbanColumnRemove h vault board n target fs = (Err e, fs).
Proof.
  intros Hv Hb Hn Ht Hp Hf Hr.
  unfold kanbanColumnRemove, bind, lift, readKanbanFile.
  rewrite Hv, Hb, Hn, Ht, Hp, Hf, Hr. reflexivity.
Qed.

(** C6 (as amended).  When the column to remove holds at least one item,
    a target equal to the column's own name is refused, and so is a target
    that names no column of the board; the tool then fails with the same
    error and leaves the files as they were.  When the column to remove is
    empty the target is not looked at and the column is removed. *)
Theorem kanbanColumnRemove_target_checks
  (board : Board) (n target : str) (ci : nat) (column : Column) :
  findFirst (named n) (columns board) = Some (ci, column) ->
  target <> [] ->
  (items column <> [] ->
   (target = n ->
    removeColumn board n (Some target) = Err (Error CannotMoveToSelf))
   /\ ((forall c, In c (columns board) -> name c <> target) ->
       removeColumn board n (Some target) = Err (Error TargetColumnNotFound))
   /\ (forall h vault file fs content e,
          nonEmpty vault = Ok vault ->
          nonEmpty file = Ok file ->
          columnNameArg n = Ok n ->
          optionalColumnNameArg (Some target) = Ok (Some target) ->
          validateVaultPath h vault file = Ok (path board) ->
          readFile fs (path board) = Some content ->
          settings (parseKanban content) = settings board ->
          columns (parseKanban content) = columns board ->
          removeColumn board n (Some target) = Err e ->
          kanbanColumnRemove h vault file n (Some target) fs = (Err e, fs)))
  /\ (items column = [] ->
      removeColumn board n (Some target)
      = Ok (set_columns board (removeAt ci (columns board)), 0%nat)).
Proof.
  intros Hc Ht.
  assert (Hfalsy : falsy (Some target) = false).
  { destruct target; [contradiction | reflexivity]. }
  split.
  - intros Hitems.
    assert (Hcount : Nat.ltb 0 (List.length (items column)) = true).
    { destruct (items column); [contradiction | reflexivity]. }
    split; [|split].
    + intros ->. unfold removeColumn. rewrite Hc, Hcount, Hfalsy.
      cbv beta iota zeta. rewrite str_eqb_refl. reflexivity.
    + intros Habs. unfold removeColumn. rewrite Hc, Hcount, Hfalsy.
      cbv beta iota zeta.
      replace (findFirst (named target) (columns board))
        with (@None (nat * Column)); [reflexivity|].
      symmetry. apply findFirst_None. intros c Hin. apply str_eqb_neq.
      apply Habs, Hin.
    + intros h vault file fs content e Hv Hf Hn Hta Hp Hfs Hs Hcs Hr.
      apply (kanbanColumnRemove_failure_keeps_files h vault file n
               (Some target) fs (path board) content e); auto.
      rewrite Hs, Hcs. destruct board; exact Hr.
  - intros Hempty. unfold removeColumn. rewrite Hc, Hempty. reflexivity.
Qed.

Lemma kanbanColumnRemove_target_checks_witness :
  removeColumn scenario_board backlog (Some backlog)
  = Err (Error CannotMoveToSelf)
  /\ removeColumn scenario_board backlog (Some nowhere)
     = Err (Error TargetColumnNotFound).
Proof.
  split.
  - refine (proj1 (proj1 (kanbanColumnRemove_target_checks scenario_board
                     backlog backlog 0 _ eq_refl _) _) eq_refl);
      discriminate.
  - refine (proj1 (proj2 (proj1 (kanbanColumnRemove_target_checks scenario_board
                     backlog nowhere 0 _ eq_refl _) _)) _);
      try discriminate.
    intros c [<-|[<-|[]]]; discriminate.
Defined.

(** C6 as stated fails: when the column to remove is empty the target is
    never looked at, so a target equal to the column's own name, or one
    that names no column, does not stop the removal. *)
Lemma kanbanColumnRemove_empty_column_ignores_target :
  removeColumn empty_pair todo (Some todo)
  = Ok (mkBoard board_path [(kanban_plugin, basic)] [mkColumn done_col []], 0%nat)
  /\ removeColumn empty_pair todo (Some nowhere)
     = Ok (mkBoard board_path [(kanban_plugin, basic)] [mkColumn done_col []], 0%nat)
  /\ is_err (fst (kanbanColumnRemove (vault_host [board_path]) vault_root
                    board_md todo (Some todo)
                    (one_file board_path (serializeKanban empty_pair))))
     = false
  /\ is_err (fst (kanbanColumnRemove (vault_host [board_path]) vault_root
                    board_md todo (Some nowhere)
                    (one_file board_path (serializeKanban empty_pair))))
     = false.
Proof. repeat split; vm_compute; reflexivity. Qed.

(** ** kanban_archive_done *)

(** C7 (as amended).  The document of scenario A parses to two columns,
    [Backlog] with the unchecked items [Task 1] and [Task 2] and [Done]
    with the checked item [Done task]; archiving with the default column
    name yields three columns in order: [Backlog] still holding its two
    unchecked items, [Done] now empty, and [Archive] holding the single
    completed item [Done task].  The tool returns that board and writes
    it. *)
Theorem scenario_archive :
  parseKanban scenario_doc = scenario_board
  /\ columns (archiveDone (parseKanban scenario_doc) (or_Archive None))
     = scenario_archived
  /\ (let run := kanbanArchiveDone (vault_host [board_path]) vault_root
                   board_md None (one_file board_path scenario_doc) in
      fst run = Ok (mkBoard board_path [(kanban_plugin, basic)] scenario_archived)
      /\ option_map (fun d => columns (parseKanban d)) (snd run board_path)
         = Some scenario_archived).
Proof. repeat split; vm_compute; reflexivity. Qed.

(** C7 as stated fails: the two items of [Backlog] are not completed, so
    archiving leaves them where they are. *)
Lemma scenario_archive_keeps_backlog :
  columns (archiveDone (parseKanban scenario_doc) (or_Archive None))
  <> scenario_archived_as_stated.
Proof. vm_compute. discriminate. Qed.

(** ** parseKanban: columns and header lines *)

Lemma trimStart_snoc (l : str) (c : N) :
  is_space c = false -> trimStart (l ++ [c]) = trimStart l ++ [c].
Proof.
  intros Hc. induction l as [|a l IH]; simpl.
  - rewrite Hc. reflexivity.
  - destruct (is_space a); [exact IH | reflexivity].
Qed.

Lemma trimEnd_cons (c : N) (s : str) :
  is_space c = false -> trimEnd (c :: s) = c :: trimEnd s.
Proof.
  intros Hc. unfold trimEnd. simpl rev.
  rewrite trimStart_snoc by exact Hc. rewrite rev_app_distr. reflexivity.
Qed.

Lemma trim_cons (c : N) (s : str) :
  is_space c = false -> trim (c :: s) = c :: trimEnd s.
Proof.
  intros Hc. unfold trim. simpl trimStart. rewrite Hc.
  apply trimEnd_cons, Hc.
Qed.

Lemma headerMatch_not_sentinel (line g : str) :
  headerMatch line = Some g -> is_sentinel_line line = false.
Proof.
  unfold headerMatch, is_sentinel_line. intros H.
  destruct line as [|c line]; [discriminate|].
  destruct (N.eq_dec c 35) as [->|Hc].
  - rewrite trim_cons by reflexivity. reflexivity.
  - exfalso. revert H.
    repeat (match goal with
            | |- context [match ?x with _ => _ end] => destruct x
            end; try discriminate; try lia).
Qed.

Lemma itemMatch_not_sentinel (line : str) (r : N * str) :
  itemMatch line = Some r -> is_sentinel_line line = false.
Proof.
  unfold itemMatch, is_sentinel_line. intros H.
  destruct line as [|c line]; [discriminate|].
  destruct (N.eq_dec c 45) as [->|Hc].
  - rewrite trim_cons by reflexivity. reflexivity.
  - exfalso. revert H.
    repeat (match goal with
            | |- context [match ?x with _ => _ end] => destruct x
            end; try discriminate; try lia).
Qed.

Lemma scan_lines_names (lines : list str) :
  forall cols cur,
    List.map name (finalize (scan_lines lines cols cur))
    = List.map name (finalize (cols, cur)) ++ header_names (scanned lines).
Proof.
  induction lines as [|line rest IH]; intros cols cur;
    cbn [scan_lines scanned header_names flat_map].
  - rewrite app_nil_r. reflexivity.
  - destruct (headerMatch line) as [g|] eqn:Eh.
    + rewrite (headerMatch_not_sentinel _ _ Eh).
      cbn [header_names flat_map]. rewrite Eh.
      fold (header_names (scanned rest)).
      rewrite IH. unfold finalize; simpl.
      destruct cur; simpl; rewrite ?map_app; simpl;
        rewrite <- ?app_assoc; reflexivity.
    + destruct (itemMatch line) as [[box g]|] eqn:Ei.
      * rewrite (itemMatch_not_sentinel _ _ Ei).
        cbn [header_names flat_map]. rewrite Eh.
        fold (header_names (scanned rest)).
        destruct cur as [c|]; rewrite IH; unfold finalize; simpl;
          rewrite ?map_app; reflexivity.
      * destruct (is_sentinel_line line) eqn:Es.
        -- simpl. rewrite app_nil_r. reflexivity.
        -- cbn [header_names flat_map]. rewrite Eh.
           fold (header_names (scanned rest)). apply IH.
Qed.

(** C9 (as amended).  The column names of the parsed board are, in
    document order, exactly the names announced by the header lines that
    come before the first sentinel line of the body: one column per such
    line, repeated names included.  In particular a document with two
    identical header lines parses to two columns of the same name. *)
Theorem parseKanban_columns_follow_headers :
  (forall doc,
      List.map name (columns (parseKanban doc))
      = header_names (scanned (split_lines (snd (matter doc)))))
  /\ columns (parseKanban repeated_header_doc)
     = [mkColumn column_X []; mkColumn column_X []].
Proof.
  split; [|vm_compute; reflexivity].
  intros doc. unfold parseKanban. destruct (matter doc) as [fm body]. simpl snd.
  pose proof (scan_lines_names (split_lines body) [] None) as H.
  destruct (scan_lines (split_lines body) [] None) as [cols cur].
  simpl in *. unfold finalize in H; simpl in H. exact H.
Qed.

(** C9 as stated fails: a header line that follows a sentinel line yields
    no column. *)
Lemma parseKanban_header_after_sentinel :
  In (header_prefix ++ column_X) (split_lines late_header_doc)
  /\ headerMatch (header_prefix ++ column_X) = Some column_X
  /\ columns (parseKanban late_header_doc) = [].
Proof. repeat split; vm_compute; auto. Qed.

(** ** kanban_merge *)

Lemma existsb_texted (t : str) (its : list Item) :
  existsb (texted t) its = true <-> exists i, In i its /\ text i = t.
Proof.
  rewrite existsb_exists. split; intros (i & Hi & H); exists i; split; auto;
    unfold texted in *; apply str_eqb_eq; exact H.
Qed.

Lemma item_copy (i : Item) : mkItem (text i) (completed i) (metadata i) = i.
Proof. destruct i; reflexivity. Qed.

Lemma mergeItem_duplicate (its : list Item) (item : Item) :
  (exists i, In i its /\ text i = text item) -> mergeItem its item = its.
Proof.
  intros H. unfold mergeItem. apply existsb_texted in H. rewrite H.
  reflexivity.
Qed.

Lemma mergeItem_fresh (its : list Item) (item : Item) :
  (forall i, In i its -> text i <> text item) ->
  mergeItem its item = its ++ [item].
Proof.
  intros H. unfold mergeItem.
  destruct (existsb (texted (text item)) its) eqn:E.
  - apply existsb_texted in E. destruct E as (i & Hi & Ht).
    exfalso. exact (H i Hi Ht).
  - rewrite item_copy. reflexivity.
Qed.

(** Items are only ever appended, and only items of the source. *)
Lemma fold_mergeItem_appends (src its : list Item) :
  exists added, fold_left mergeItem src its = its ++ added
                /\ incl added src.
Proof.
  revert its; induction src as [|item src IH]; intros its; simpl.
  - exists []. rewrite app_nil_r. split; [reflexivity | intros x []].
  - destruct (existsb (texted (text item)) its) eqn:Ex.
    + assert (M : mergeItem its item = its)
        by (unfold mergeItem; rewrite Ex; reflexivity).
      rewrite M. destruct (IH its) as (added & E & Hin).
      exists added. split; [exact E|]. intros x Hx. right. apply Hin, Hx.
    + assert (M : mergeItem its item = its ++ [item])
        by (unfold mergeItem; rewrite Ex, item_copy; reflexivity).
      rewrite M. destruct (IH (its ++ [item])) as (added & E & Hin).
      exists (item :: added). split.
      * rewrite E, <- app_assoc. reflexivity.
      * intros x [<-|Hx]; [left; reflexivity | right; apply Hin, Hx].
Qed.

(** A column whose texts are pairwise distinct stays so. *)
Lemma fold_mergeItem_NoDup (src its : list Item) :
  NoDup (List.map text its) ->
  NoDup (List.map text (fold_left mergeItem src its)).
Proof.
  revert its; induction src as [|item src IH]; intros its H; simpl; [exact H|].
  apply IH. unfold mergeItem.
  destruct (existsb (texted (text item)) its) eqn:E; [exact H|].
  rewrite map_app. simpl.
  apply NoDup_app; [exact H | repeat constructor; intros [] |].
  intros t Ht [<-|[]]. apply in_map_iff in Ht. destruct Ht as (i & Hi & Hin).
  assert (existsb (texted (text item)) its = true) as E';
    [|rewrite E' in E; discriminate].
  apply existsb_texted. exists i. auto.
Qed.

Lemma mergeItem_keeps (its : list Item) (item : Item) (t : str) :
  (exists j, In j its /\ text j = t) ->
  exists j, In j (mergeItem its item) /\ text j = t.
Proof.
  intros (j & Hj & Ht). exists j. split; [|exact Ht]. unfold mergeItem.
  destruct (existsb _ its); [exact Hj | apply in_or_app; left; exact Hj].
Qed.

(** After the merge every text of the source column is in the target column. *)
Lemma fold_mergeItem_covers (src its : list Item) (t : str) :
  (exists j, In j its /\ text j = t) \/ (exists i, In i src /\ text i = t) ->
  exists j, In j (fold_left mergeItem src its) /\ text j = t.
Proof.
  revert its; induction src as [|item src IH]; intros its H; simpl.
  - destruct H as [H|(i & [] & _)]. exact H.
  - apply IH. destruct H as [H|(i & [<-|Hi] & Ht)].
    + left. apply mergeItem_keeps, H.
    + left. unfold mergeItem.
      destruct (existsb (texted (text item)) its) eqn:E.
      * apply existsb_texted in E. destruct E as (j & Hj & Hjt).
        exists j. split; [exact Hj | congruence].
      * exists item. split; [|exact Ht]. apply in_or_app. right.
        rewrite item_copy. left. reflexivity.
    + right. exists i. auto.
Qed.

(** The loop over the sources merges the boards read, in order. *)
Lemma mergeSources_run (h : Host) (vault : str) (fs : Files)
      (sources : list str) (boards : list Board) :
  Forall2 (reads h vault fs) sources boards ->
  forall target,
    mergeSources h vault sources target fs
    = (Ok (fold_left mergeBoard boards target), fs).
Proof.
  induction 1 as [|s b sources boards (sp & content & Hv & Hf & ->) _ IH];
    intros target; simpl.
  - reflexivity.
  - unfold bind, lift, readKanbanFile. rewrite Hv, Hf. apply IH.
Qed.

(** The tool, once its arguments are validated: the target is the board
    read from the target path, or a new board when there is none; the
    sources are merged into it in order and the result is written. *)
Lemma kanbanMerge_run (h : Host) (vault target : str) (sources : list str)
      (fs : Files) (targetPath : str) (boards : list Board) :
  vault <> [] ->
  target <> [] ->
  sources <> [] ->
  Forall (fun s => s <> []) sources ->
  validateVaultPath h vault target = Ok targetPath ->
  Forall2 (reads h vault fs) sources boards ->
  kanbanMerge h vault sources target fs
  = match writeKanbanFile h targetPath
            (fold_left mergeBoard boards
               match readFile fs targetPath with
               | Some content =>
                   mkBoard targetPath (settings (parseKanban content))
                           (columns (parseKanban content))
               | None => newBoard targetPath
               end) fs with
    | (Ok _, fs') =>
        (Ok (fold_left mergeBoard boards
               match readFile fs targetPath with
               | Some content =>
                   mkBoard targetPath (settings (parseKanban content))
                           (columns (parseKanban content))
               | None => newBoard targetPath
               end), fs')
    | (Err e, fs') => (Err e, fs')
    end.
Proof.
  intros Hv Ht Hs Hall Hp Hr. unfold kanbanMerge.
  rewrite bind_lift, (nonEmpty_ok _ Hv), bind_lift.
  assert (Ha : sourceBoardsArg sources = Ok sources).
  { unfold sourceBoardsArg. destruct sources; [contradiction|].
    apply nonEmptyAll_ok, Hall. }
  rewrite Ha, bind_lift, (nonEmpty_ok _ Ht), bind_lift, Hp.
  unfold bind at 1, readOrCreate, readKanbanFile.
  destruct (readFile fs targetPath) as [content|];
    unfold bind at 1; rewrite (mergeSources_run h vault fs _ boards Hr);
    unfold bind, ret;
    match goal with
    | |- context [writeKanbanFile ?a ?b ?c ?d] =>
        destruct (writeKanbanFile a b c d) as [[[]|e] fs']
    end; reflexivity.
Qed.

(** C8.  An item of a source column is appended to the end of the target
    column exactly when no item of that column has its text; the target
    column is the first column of the target with the source column's name,
    every other column being untouched, or a new column appended at the
    end when there is none; sources are merged in order, each column in
    order.  Hence texts that were pairwise distinct in a target column stay
    so, every source text ends up in the column, and merging two boards
    that each hold one item of the same text in a column of the same name
    gives one column with one item, also through the tool.  The tool
    itself, whatever the host and the files, merges the boards read from
    the sources, in order, into the board read from the target path, or
    into a new board when there is none, returns the result and, the write
    succeeding, leaves it in the target file. *)
Theorem kanbanMerge_dedup :
  (forall its item,
      ((exists i, In i its /\ text i = text item) -> mergeItem its item = its)
      /\ ((forall i, In i its -> text i <> text item) ->
          mergeItem its item = its ++ [item]))
  /\ (forall cols sc ti tc,
         findFirst (named (name sc)) cols = Some (ti, tc) ->
         nth_error (mergeColumn cols sc) ti
         = Some (mkColumn (name tc) (fold_left mergeItem (items sc) (items tc)))
         /\ List.length (mergeColumn cols sc) = List.length cols
         /\ forall j, j <> ti ->
                      nth_error (mergeColumn cols sc) j = nth_error cols j)
  /\ (forall cols sc,
         (forall c, In c cols -> name c <> name sc) ->
         mergeColumn cols sc
         = cols ++ [mkColumn (name sc) (fold_left mergeItem (items sc) [])])
  /\ (forall target source,
         columns (mergeBoard target source)
         = fold_left mergeColumn (columns source) (columns target))
  /\ (forall h vault fs sources boards target,
         Forall2 (reads h vault fs) sources boards ->
         mergeSources h vault sources target fs
         = (Ok (fold_left mergeBoard boards target), fs))
  /\ (forall src its,
         (exists added, fold_left mergeItem src its = its ++ added
                        /\ incl added src)
         /\ (NoDup (List.map text its) ->
             NoDup (List.map text (fold_left mergeItem src its)))
         /\ (forall i, In i src ->
                       exists j, In j (fold_left mergeItem src its)
                                 /\ text j = text i))
  /\ (forall p q n i1 i2,
         text i1 = text i2 ->
         columns (mergeBoard (mkBoard p [(kanban_plugin, basic)] [mkColumn n [i1]])
                             (mkBoard q [(kanban_plugin, basic)] [mkColumn n [i2]]))
         = [mkColumn n [i1]]
         /\ columns (mergeBoard
                       (mergeBoard (newBoard p)
                          (mkBoard q [(kanban_plugin, basic)] [mkColumn n [i1]]))
                       (mkBoard q [(kanban_plugin, basic)] [mkColumn n [i2]]))
            = [mkColumn n [i1]])
  /\ option_map columns
       (match fst (kanbanMerge (vault_host [a_path; b_path]) vault_root
                     [a_md; b_md] merged_md milk_files) with
        | Ok b => Some b
        | Err _ => None
        end)
     = Some [mkColumn todo [mkItem buy_milk false None]]
  /\ (forall h vault sources target fs targetPath boards,
         vault <> [] ->
         target <> [] ->
         sources <> [] ->
         Forall (fun s => s <> []) sources ->
         validateVaultPath h vault target = Ok targetPath ->
         Forall2 (reads h vault fs) sources boards ->
         writable h targetPath ->
         let held :=
           match readFile fs targetPath with
           | Some content =>
               mkBoard targetPath (settings (parseKanban content))
                       (columns (parseKanban content))
           | None => newBoard targetPath
           end in
         let merged := fold_left mergeBoard boards held in
         let run := kanbanMerge h vault sources target fs in
         fst run = Ok merged
         /\ snd run targetPath = Some (serializeKanban merged)).
Proof.
  split; [|split; [|split; [|split; [|split; [|split; [|split; [|split]]]]]]].
  - intros its item. split; [apply mergeItem_duplicate | apply mergeItem_fresh].
  - intros cols sc ti tc H. unfold mergeColumn. rewrite H.
    destruct (findFirst_Some _ _ _ _ H) as (Hn & _ & _).
    split; [|split].
    + rewrite (nth_error_updateAt _ _ _ _ Hn). reflexivity.
    + apply length_updateAt.
    + intros j Hj. apply nth_error_updateAt_other. auto.
  - intros cols sc Habs. unfold mergeColumn.
    replace (findFirst (named (name sc)) cols) with (@None (nat * Column));
      [reflexivity|].
    symmetry. apply findFirst_None. intros c Hc. apply str_eqb_neq.
    apply Habs, Hc.
  - reflexivity.
  - intros h vault fs sources boards target H. apply mergeSources_run, H.
  - intros src its. split; [apply fold_mergeItem_appends|].
    split; [apply fold_mergeItem_NoDup|].
    intros i Hi. apply fold_mergeItem_covers. right. exists i. auto.
  - intros p q n i1 i2 Ht.
    assert (E : mergeItem [i1] i2 = [i1]).
    { apply mergeItem_duplicate. exists i1. split; [left; reflexivity | exact Ht]. }
    assert (F : mergeItem [] i1 = [i1]) by (apply (mergeItem_fresh [] i1); intros i []).
    unfold mergeBoard, mergeColumn, named; simpl.
    rewrite !str_eqb_refl. simpl. unfold set_items; simpl.
    rewrite ?F, ?E. auto.
  - vm_compute. reflexivity.
  - intros h vault sources target fs targetPath boards Hv Ht Hs Hall Hp Hr Hw
           held merged run.
    unfold run.
    rewrite (kanbanMerge_run h vault target sources fs targetPath boards
               Hv Ht Hs Hall Hp Hr).
    fold held. fold merged.
    destruct (writeKanbanFile_writable h targetPath merged fs Hw)
      as (fs' & Ew & Hfile & _).
    rewrite Ew. cbn [fst snd]. split; [reflexivity | exact Hfile].
Qed.

Lemma kanbanMerge_dedup_witness :
  mergeItem [mkItem buy_milk false None] (mkItem buy_milk true None)
  = [mkItem buy_milk false None]
  /\ columns (mergeBoard (milk_board a_path false) (milk_board b_path true))
     = [mkColumn todo [mkItem buy_milk false None]]
  /\ fst (kanbanMerge (vault_host [a_path; b_path]) vault_root [b_md] a_md
            milk_files)
     = Ok (milk_board a_path false).
Proof.
  destruct kanbanMerge_dedup as (H1 & _ & _ & _ & _ & _ & H6 & _ & H8).
  split; [|split].
  - apply (proj1 (H1 [mkItem buy_milk false None] (mkItem buy_milk true None))).
    exists (mkItem buy_milk false None). split; [left|]; reflexivity.
  - exact (proj1 (H6 a_path b_path todo (mkItem buy_milk false None)
                    (mkItem buy_milk true None) eq_refl)).
  - refine (proj1 (H8 (vault_host [a_path; b_path]) vault_root [b_md] a_md
                      milk_files a_path [milk_board b_path true]
                      _ _ _ _ eq_refl _ _)); try discriminate.
    + repeat constructor; discriminate.
    + constructor; [|constructor].
      exists b_path, (serializeKanban (milk_board b_path true)).
      repeat split; vm_compute; reflexivity.
    + split; reflexivity.
Defined.

(** ** Path validator *)

(** C3.  For every vault root string that denotes the directory [/vault]
    (its real path, when it has one, is [/vault]), and whatever exists on
    disk, the target [../../etc/passwd] is refused with a
    [PathValidationError]; written [/vault] or [/vault/], an existing
    vault refuses it as an escape, before the target is looked up. *)
Theorem validateVaultPath_rejects_traversal (h : Host) (root : str) :
  (forall p, realpath h (normalizeNFC h root) = Some p -> p = vault_root) ->
  (exists m, validateVaultPath h root traversal = Err (PathValidationError m))
  /\ (root = vault_root \/ root = vault_root_slash ->
      realpath h root <> None ->
      validateVaultPath h root traversal
      = Err (PathValidationError PathEscapesVault)).
Proof.
  intros Hreal.
  assert (Hnfct : normalizeNFC h traversal = traversal) by reflexivity.
  assert (Hesc : forall r,
             r <> [] -> includes NUL r = false ->
             PosixPath.isAbsolute (normalizeNFC h r) = true ->
             realpath h (normalizeNFC h r) = Some vault_root ->
             validateVaultPath h r traversal
             = Err (PathValidationError PathEscapesVault)).
  { intros r Hne Hnul Habs Hr. unfold validateVaultPath.
    destruct (strlen r =? 0) eqn:E0; [apply strlen_zero in E0; contradiction|].
    change (strlen traversal =? 0) with false. cbv iota.
    rewrite Hnul. change (includes NUL traversal) with false. cbv iota.
    cbn [orb]. rewrite Habs. cbn [negb]. rewrite Hr, Hnfct.
    vm_compute. reflexivity. }
  split.
  - unfold validateVaultPath.
    destruct (strlen root =? 0) eqn:E0; [eexists; reflexivity|].
    change (strlen traversal =? 0) with false. cbv iota.
    destruct (includes NUL root || includes NUL traversal) eqn:En;
      [eexists; reflexivity|].
    destruct (PosixPath.isAbsolute (normalizeNFC h root)) eqn:Ea;
      [|eexists; reflexivity].
    cbn [negb].
    destruct (realpath h (normalizeNFC h root)) as [p|] eqn:Er;
      [|eexists; reflexivity].
    rewrite (Hreal p eq_refl), Hnfct. exists PathEscapesVault.
    vm_compute. reflexivity.
  - intros Hroot Hex.
    assert (Hnfc : normalizeNFC h root = root)
      by (destruct Hroot as [-> | ->]; reflexivity).
    rewrite Hnfc in Hreal.
    destruct (realpath h root) as [p|] eqn:Er; [|contradiction].
    apply Hesc.
    + destruct Hroot as [-> | ->]; discriminate.
    + destruct Hroot as [-> | ->]; reflexivity.
    + rewrite Hnfc. destruct Hroot as [-> | ->]; reflexivity.
    + rewrite Hnfc, Er, (Hreal p eq_refl). reflexivity.
Qed.

Lemma validateVaultPath_rejects_traversal_witness :
  validateVaultPath (vault_host []) vault_root traversal
  = Err (PathValidationError PathEscapesVault)
  /\ validateVaultPath (vault_host [etc_passwd]) vault_root_slash traversal
     = Err (PathValidationError PathEscapesVault).
Proof.
  split.
  - refine (proj2 (validateVaultPath_rejects_traversal (vault_host [])
                     vault_root _) _ _).
    + intros p H. vm_compute in H. injection H as <-. reflexivity.
    + left; reflexivity.
    + discriminate.
  - refine (proj2 (validateVaultPath_rejects_traversal
                     (vault_host [etc_passwd]) vault_root_slash _) _ _).
    + intros p H. vm_compute in H. injection H as <-. reflexivity.
    + right; reflexivity.
    + discriminate.
Defined.

(** C2, the code at the failing input.  On a POSIX host whose vault is the
    real directory [/vault], the absolute path [/etc/passwd] is refused,
    but the drive-letter path is not absolute: it is taken for the name of
    a file inside the vault and, no such file existing, returned as a
    valid path. *)
Theorem validateVaultPath_accepts_drive_letter (h : Host) :
  realpath h vault_root = Some vault_root ->
  access h windows_path_in_vault = false ->
  validateVaultPath h vault_root etc_passwd
  = Err (PathValidationError PathEscapesVault)
  /\ validateVaultPath h vault_root windows_path = Ok windows_path_in_vault.
Proof.
  intros Hreal Hacc.
  assert (Hv : normalizeNFC h vault_root = vault_root) by reflexivity.
  assert (He : normalizeNFC h etc_passwd = etc_passwd) by reflexivity.
  assert (Hw : normalizeNFC h windows_path = windows_path) by reflexivity.
  unfold validateVaultPath. rewrite Hv, He, Hw.
  split.
  - change (strlen vault_root =? 0) with false.
    change (strlen etc_passwd =? 0) with false.
    change (includes NUL vault_root || includes NUL etc_passwd) with false.
    change (negb (PosixPath.isAbsolute vault_root)) with false.
    cbv iota. rewrite Hreal. vm_compute. reflexivity.
  - change (strlen vault_root =? 0) with false.
    change (strlen windows_path =? 0) with false.
    change (includes NUL vault_root || includes NUL windows_path) with false.
    change (negb (PosixPath.isAbsolute vault_root)) with false.
    cbv iota. rewrite Hreal.
    change (PosixPath.isAbsolute windows_path) with false. cbv iota.
    change (PosixPath.normalize
              (PosixPath.resolve (cwd h) [vault_root; windows_path]))
      with windows_path_in_vault.
    cbv zeta. rewrite Hacc.
    vm_compute. reflexivity.
Qed.

Lemma validateVaultPath_accepts_drive_letter_witness :
  validateVaultPath (vault_host []) vault_root etc_passwd
  = Err (PathValidationError PathEscapesVault)
  /\ validateVaultPath (vault_host []) vault_root windows_path
     = Ok windows_path_in_vault.
Proof.
  apply (validateVaultPath_accepts_drive_letter (vault_host []));
    reflexivity.
Defined.

(** ** kanban_merge into a target that cannot be read *)

Lemma fold_mergeBoard_path_settings (boards : list Board) (target : Board) :
  path (fold_left mergeBoard boards target) = path target
  /\ settings (fold_left mergeBoard boards target) = settings target.
Proof.
  revert target; induction boards as [|b boards IH]; intros target; simpl.
  - split; reflexivity.
  - destruct (IH (mergeBoard target b)) as (-> & ->). split; reflexivity.
Qed.

(** C10.  When the target board cannot be read, the merge does not fail:
    the sources are merged, in order, into a new board with the settings
    [kanban-plugin: basic] and no columns; the result is returned and, the
    write succeeding, is what the target path holds afterwards. *)
Theorem kanbanMerge_creates_missing_target
  (h : Host) (vault target : str) (sources : list str) (fs : Files)
  (targetPath : str) (boards : list Board) :
  vault <> [] ->
  target <> [] ->
  sources <> [] ->
  Forall (fun s => s <> []) sources ->
  validateVaultPath h vault target = Ok targetPath ->
  fs targetPath = None ->
  Forall2 (reads h vault fs) sources boards ->
  can_write h (targetPath ++ tmp_suffix) = true ->
  can_rename h (targetPath ++ tmp_suffix) targetPath = true ->
  let merged := fold_left mergeBoard boards (newBoard targetPath) in
  let run := kanbanMerge h vault sources target fs in
  fst (readKanbanFile targetPath fs) = Err (Error FailedToRead)
  /\ fst run = Ok merged
  /\ snd run targetPath = Some (serializeKanban merged)
  /\ path merged = targetPath
  /\ settings merged = [(kanban_plugin, basic)].
Proof.
  intros Hv Ht Hs Hall Hp Hf Hr Hw Hn merged run.
  assert (Hrun : run = (Ok merged,
                        put (put (put fs (targetPath ++ tmp_suffix)
                                      (Some (serializeKanban merged)))
                                 targetPath (Some (serializeKanban merged)))
                            (targetPath ++ tmp_suffix) None)).
  { unfold run.
    rewrite (kanbanMerge_run h vault target sources fs targetPath boards
               Hv Ht Hs Hall Hp Hr).
    unfold readFile. rewrite Hf. cbn [option_map]. fold merged.
    unfold writeKanbanFile. rewrite Hw, Hn. reflexivity. }
  split.
  - rewrite (readKanbanFile_missing _ _ Hf). reflexivity.
  - rewrite Hrun. simpl. split; [reflexivity|]. split.
    + unfold put. rewrite str_eqb_app_suffix by discriminate.
      rewrite str_eqb_refl. reflexivity.
    + apply (fold_mergeBoard_path_settings boards (newBoard targetPath)).
Qed.

Lemma kanbanMerge_creates_missing_target_witness :
  fst (kanbanMerge (vault_host [a_path; b_path]) vault_root
         [a_md; b_md] merged_md milk_files)
  = Ok (mkBoard merged_path [(kanban_plugin, basic)]
                [mkColumn todo [mkItem buy_milk false None]])
  /\ snd (kanbanMerge (vault_host [a_path; b_path]) vault_root
            [a_md; b_md] merged_md milk_files) merged_path
     = Some (serializeKanban
               (mkBoard merged_path [(kanban_plugin, basic)]
                        [mkColumn todo [mkItem buy_milk false None]])).
Proof.
  pose proof (kanbanMerge_creates_missing_target
                (vault_host [a_path; b_path]) vault_root merged_md
                [a_md; b_md] milk_files merged_path
                [ mkBoard a_path [(kanban_plugin, basic)]
                          [mkColumn todo [mkItem buy_milk false None]];
                  mkBoard b_path [(kanban_plugin, basic)]
                          [mkColumn todo [mkItem buy_milk true None]] ]) as H.
  cbv zeta in H.
  assert (Hr : Forall2 (reads (vault_host [a_path; b_path]) vault_root milk_files)
                 [a_md; b_md]
                 [ mkBoard a_path [(kanban_plugin, basic)]
                           [mkColumn todo [mkItem buy_milk false None]];
                   mkBoard b_path [(kanban_plugin, basic)]
                           [mkColumn todo [mkItem buy_milk true None]] ]).
  { constructor; [|constructor; [|constructor]].
    - exists a_path, (serializeKanban (milk_board a_path false)).
      repeat split; vm_compute; reflexivity.
    - exists b_path, (serializeKanban (milk_board b_path true)).
      repeat split; vm_compute; reflexivity. }
  destruct H as (_ & H1 & H2 & _); try discriminate; try reflexivity;
    try exact Hr.
  - repeat constructor; discriminate.
  - split; [exact H1 | exact H2].
Defined.

(** ** Round trip *)

Lemma length_trimStart (s : str) :
  (List.length (trimStart s) <= List.length s)%nat.
Proof.
  induction s as [|c s IH]; simpl; [lia|].
  destruct (is_space c); simpl; lia.
Qed.

Lemma length_trimEnd (s : str) :
  (List.length (trimEnd s) <= List.length s)%nat.
Proof.
  unfold trimEnd. rewrite length_rev.
  pose proof (length_trimStart (rev s)) as H. rewrite length_rev in H.
  exact H.
Qed.

(** A non-empty string that is its own trimmed form starts with a unit
    that is not white space. *)
Lemma trim_fixed_head (s : str) :
  trim s = s -> s <> [] ->
  exists c s', s = c :: s' /\ is_space c = false.
Proof.
  intros Ht Hs. destruct s as [|c s']; [contradiction|].
  exists c, s'. split; [reflexivity|].
  destruct (is_space c) eqn:E; [|reflexivity]. exfalso.
  assert (H : (List.length (trim (c :: s')) <= List.length s')%nat).
  { unfold trim. simpl trimStart. rewrite E.
    pose proof (length_trimEnd (trimStart s')).
    pose proof (length_trimStart s'). lia. }
  rewrite Ht in H. simpl in H. lia.
Qed.

Lemma validateItemText_fixed (t : str) :
  validateItemText t = Ok t ->
  trim t = t /\ t <> [] /\ includes LF t = false /\ includes CR t = false.
Proof.
  unfold validateItemText.
  destruct (containsNullByte t); [discriminate|].
  destruct (containsControlCharacters t true); [discriminate|].
  cbv zeta.
  destruct (includes LF (trim t) || includes CR (trim t)) eqn:En;
    [discriminate|].
  destruct (strlen (trim t) =? 0) eqn:Ee; [discriminate|].
  destruct (MAX_ITEM_TEXT_LENGTH <? strlen (trim t)); [discriminate|].
  intros H. injection H as H. rewrite H in En, Ee.
  apply orb_false_iff in En. destruct En as (El & Er).
  repeat split; auto. intros ->. discriminate Ee.
Qed.

Lemma validateColumnName_fixed (n : str) :
  validateColumnName n = Ok n ->
  trim n = n /\ n <> [] /\ includes LF n = false /\ includes CR n = false.
Proof.
  unfold validateColumnName.
  destruct (containsNullByte n); [discriminate|].
  destruct (includes LF n || includes CR n) eqn:En; [discriminate|].
  destruct (containsControlCharacters n false); [discriminate|].
  cbv zeta.
  destruct (strlen (trim n) =? 0) eqn:Ee; [discriminate|].
  destruct (MAX_COLUMN_NAME_LENGTH <? strlen (trim n)); [discriminate|].
  intros H. injection H as H. rewrite H in Ee.
  apply orb_false_iff in En. destruct En as (El & Er).
  repeat split; auto. intros ->. discriminate Ee.
Qed.

Lemma no_line_terminator (s : str) :
  includes LF s = false -> includes CR s = false ->
  has_line_separator s = false ->
  existsb is_line_terminator s = false.
Proof.
  unfold has_line_separator, includes, LF, CR.
  induction s as [|c s IH]; cbn [existsb]; [reflexivity|].
  intros Hl Hr Hs.
  apply orb_false_iff in Hl. destruct Hl as (Hl1 & Hl2).
  apply orb_false_iff in Hr. destruct Hr as (Hr1 & Hr2).
  apply orb_false_iff in Hs. destruct Hs as (Hs1 & Hs2).
  apply orb_false_iff in Hs1. destruct Hs1 as (Hs1 & Hs1').
  apply orb_false_iff in Hs2. destruct Hs2 as (Hs2 & Hs2').
  rewrite IH; auto.
  - unfold is_line_terminator.
    rewrite (N.eqb_sym c 10), (N.eqb_sym c 13), (N.eqb_sym c 8232),
      (N.eqb_sym c 8233), Hl1, Hr1, Hs1, Hs2. reflexivity.
  - rewrite Hs1', Hs2'. reflexivity.
Qed.

Lemma includes_app (c : N) (a b : str) :
  includes c (a ++ b) = includes c a || includes c b.
Proof. apply existsb_app. Qed.

(** *** Lines written by the serializer are read back by the expressions *)

Lemma headerMatch_written (c : N) (n : str) :
  is_space c = false ->
  existsb is_line_terminator (c :: n) = false ->
  headerMatch (header_prefix ++ c :: n) = Some (c :: n).
Proof.
  intros Hc Hl. unfold headerMatch, header_prefix.
  cbn [app ws_plus_then]. change (is_space 32) with true. cbv iota.
  rewrite Hc. unfold dot_plus_end, dot_star_end. rewrite Hl. reflexivity.
Qed.

Lemma itemMatch_written (b : bool) (c : N) (t : str) :
  is_space c = false ->
  existsb is_line_terminator (c :: t) = false ->
  itemMatch ((if b then checked_prefix else unchecked_prefix) ++ c :: t)
  = Some (if b then 120 else 32, c :: t).
Proof.
  intros Hc Hl. unfold itemMatch, checked_prefix, unchecked_prefix.
  destruct b; cbn [app ws_plus_then]; change (is_space 32) with true;
    change (is_space 91) with false; cbv iota;
    cbn [N.eqb Pos.eqb orb ws_plus_then]; change (is_space 32) with true;
    cbv iota; rewrite Hc; unfold dot_star_end; rewrite Hl; reflexivity.
Qed.

Lemma headerMatch_item_line (i : Item) : headerMatch (item_line i) = None.
Proof.
  unfold item_line, checked_prefix, unchecked_prefix.
  destruct (completed i); reflexivity.
Qed.

Lemma scan_lines_header (line g : str) (rest : list str) cols cur :
  headerMatch line = Some g ->
  scan_lines (line :: rest) cols cur
  = scan_lines rest (finalize (cols, cur)) (Some (mkColumn (trim g) [])).
Proof.
  intros H. cbn [scan_lines]. rewrite H. destruct cur; reflexivity.
Qed.

Lemma scan_lines_item (line g : str) (box : N) (rest : list str) cols c :
  headerMatch line = None ->
  itemMatch line = Some (box, g) ->
  scan_lines (line :: rest) cols (Some c)
  = scan_lines rest cols
      (Some (mkColumn (name c)
               (items c ++ [mkItem (trim g) (box =? 120) None]))).
Proof. intros Hh Hi. cbn [scan_lines]. rewrite Hh, Hi. reflexivity. Qed.

Lemma scan_lines_blank (rest : list str) cols cur :
  scan_lines ([] :: rest) cols cur = scan_lines rest cols cur.
Proof. cbn [scan_lines]. destruct cur; reflexivity. Qed.

(** The lines of the items of a column, read back into an open column. *)
Lemma scan_lines_items (its : list Item) :
  Forall valid_item its ->
  forall rest cols c0,
    scan_lines (List.map item_line its ++ rest) cols (Some c0)
    = scan_lines rest cols
        (Some (mkColumn (name c0) (items c0 ++ List.map plain_item its))).
Proof.
  induction 1 as [|i its (Hv & Hs) _ IH]; intros rest cols c0.
  - cbn [List.map app]. rewrite app_nil_r. destruct c0; reflexivity.
  - destruct (validateItemText_fixed _ Hv) as (Ht & Hne & Hl & Hr).
    destruct (trim_fixed_head _ Ht Hne) as (c & t & Et & Hc).
    pose proof (no_line_terminator _ Hl Hr Hs) as Hlt.
    cbn [List.map app].
    assert (Hi : itemMatch (item_line i)
                 = Some (if completed i then 120 else 32, text i)).
    { unfold item_line. rewrite Et in Hlt |- *.
      apply itemMatch_written; assumption. }
    rewrite (scan_lines_item _ _ _ _ _ _ (headerMatch_item_line i) Hi).
    rewrite Ht, IH. cbn [name items].
    rewrite <- app_assoc. unfold plain_item at 2. cbn [app].
    destruct (completed i); reflexivity.
Qed.

(** The lines of one column, read back. *)
Lemma scan_lines_column (c : Column) :
  valid_column c ->
  forall rest cols cur,
    scan_lines (column_lines c ++ rest) cols cur
    = scan_lines rest (finalize (cols, cur)) (Some (plain_column c)).
Proof.
  intros (Hv & Hs & Hi) rest cols cur.
  destruct (validateColumnName_fixed _ Hv) as (Ht & Hne & Hl & Hr).
  destruct (trim_fixed_head _ Ht Hne) as (x & n & En & Hx).
  pose proof (no_line_terminator _ Hl Hr Hs) as Hlt.
  assert (Hh : headerMatch (header_prefix ++ name c) = Some (name c)).
  { rewrite En in Hlt |- *. apply headerMatch_written; assumption. }
  unfold column_lines. cbn [app].
  rewrite (scan_lines_header _ _ _ _ _ Hh). rewrite Ht.
  rewrite scan_lines_blank.
  rewrite <- app_assoc. rewrite (scan_lines_items _ Hi).
  cbn [app name items]. rewrite scan_lines_blank. reflexivity.
Qed.

(** The lines of all columns and of the settings block, read back. *)
Lemma scan_lines_columns (s : BoardSettings) (cs : list Column) :
  Forall valid_column cs ->
  forall cols cur,
    finalize (scan_lines (flat_map column_lines cs ++ settings_block s)
                         cols cur)
    = finalize (cols, cur) ++ List.map plain_column cs.
Proof.
  induction 1 as [|c cs Hc _ IH]; intros cols cur.
  - cbn [flat_map app List.map]. rewrite app_nil_r.
    unfold settings_block. cbn [scan_lines].
    change (headerMatch settings_open) with (@None str).
    change (itemMatch settings_open) with (@None (N * str)).
    change (is_sentinel_line settings_open) with true. reflexivity.
  - cbn [flat_map List.map]. rewrite <- app_assoc.
    rewrite (scan_lines_column c Hc). rewrite IH.
    unfold finalize at 1. cbn [fst snd]. rewrite <- app_assoc. reflexivity.
Qed.

(** *** Splitting what was joined *)

Lemma split_on_app (sep : N) (l r : str) :
  includes sep l = false ->
  split_on sep (l ++ sep :: r) = l :: split_on sep r.
Proof.
  unfold includes. induction l as [|c l IH]; simpl; intros H.
  - rewrite N.eqb_refl. reflexivity.
  - apply orb_false_iff in H. destruct H as (H1 & H2).
    rewrite N.eqb_sym, H1. rewrite (IH H2). reflexivity.
Qed.

Lemma split_on_line (sep : N) (l : str) :
  includes sep l = false -> split_on sep l = [l].
Proof.
  unfold includes. induction l as [|c l IH]; simpl; intros H.
  - reflexivity.
  - apply orb_false_iff in H. destruct H as (H1 & H2).
    rewrite N.eqb_sym, H1. rewrite (IH H2). reflexivity.
Qed.

Lemma split_on_join (sep : N) (ls : list str) :
  forall l,
    Forall (fun x => includes sep x = false) (l :: ls) ->
    split_on sep (join_with sep (l :: ls)) = l :: ls.
Proof.
  induction ls as [|l2 ls IH]; intros l H; inversion H as [|? ? Hl Hls]; subst.
  - simpl. rewrite app_nil_r. apply split_on_line, Hl.
  - change (join_with sep (l :: l2 :: ls))
      with (l ++ sep :: join_with sep (l2 :: ls)).
    rewrite (split_on_app sep l _ Hl). rewrite (IH l2 Hls). reflexivity.
Qed.

Lemma column_lines_no_LF (c : Column) :
  valid_column c ->
  Forall (fun x => includes LF x = false) (column_lines c).
Proof.
  intros (Hv & _ & Hi).
  destruct (validateColumnName_fixed _ Hv) as (_ & _ & Hl & _).
  unfold column_lines. constructor; [|constructor; [reflexivity|]].
  - rewrite includes_app, Hl. reflexivity.
  - apply Forall_app. split; [|repeat constructor].
    apply Forall_map. revert Hi. apply Forall_impl. intros i (Hvi & _).
    destruct (validateItemText_fixed _ Hvi) as (_ & _ & Hli & _).
    unfold item_line. rewrite includes_app, Hli.
    destruct (completed i); reflexivity.
Qed.

Lemma columns_lines_no_LF (cs : list Column) :
  Forall valid_column cs ->
  Forall (fun x => includes LF x = false) (flat_map column_lines cs).
Proof.
  induction 1 as [|c cs Hc _ IH]; cbn [flat_map]; [constructor|].
  apply Forall_app. split; [apply column_lines_no_LF, Hc | exact IH].
Qed.

(** *** The metadata block *)

Lemma serialize_shape (v : str) (rest : list str) :
  join_lines (frontmatter_lines [(kanban_plugin, v)] ++ rest)
  = delimiter ++ LF :: LF :: plugin_prefix ++ v ++ LF :: LF :: delimiter
      ++ LF :: flat_map (cons LF) rest.
Proof.
  unfold join_lines, join_with, frontmatter_lines.
  change (obj_get kanban_plugin [(kanban_plugin, v)]) with (Some v).
  cbn [template app flat_map]. rewrite <- app_assoc. reflexivity.
Qed.

Lemma matter_basic (body : str) :
  matter (delimiter ++ LF :: LF :: plugin_prefix ++ basic ++ LF :: LF
            :: delimiter ++ LF :: body)
  = ([(kanban_plugin, basic)], body).
Proof. vm_compute. reflexivity. Qed.

Lemma matter_advanced (body : str) :
  matter (delimiter ++ LF :: LF :: plugin_prefix ++ advanced ++ LF :: LF
            :: delimiter ++ LF :: body)
  = ([(kanban_plugin, advanced)], body).
Proof. vm_compute. reflexivity. Qed.

Lemma parse_serialized (v : str) (cs : list Column) (p : str) :
  v = basic \/ v = advanced ->
  Forall valid_column cs ->
  parseKanban (serializeKanban (mkBoard p [(kanban_plugin, v)] cs))
  = mkBoard [] [(kanban_plugin, v)] (List.map plain_column cs).
Proof.
  intros Hv Hcs. unfold serializeKanban. cbn [settings columns].
  rewrite serialize_shape.
  set (rest := flat_map column_lines cs ++ settings_block [(kanban_plugin, v)]).
  assert (Hrest : flat_map (cons LF) rest = LF :: join_lines rest).
  { unfold rest. destruct (flat_map column_lines cs); reflexivity. }
  assert (Hlines : split_lines (LF :: join_lines rest) = [] :: rest).
  { unfold split_lines. cbn [split_on]. change (LF =? LF) with true. cbv iota.
    f_equal. unfold join_lines.
    assert (Hall : Forall (fun x => includes LF x = false) rest).
    { unfold rest. apply Forall_app. split; [apply columns_lines_no_LF, Hcs|].
      destruct Hv as [-> | ->]; repeat constructor. }
    destruct rest as [|l ls] eqn:E.
    - unfold rest in E. destruct (flat_map column_lines cs); discriminate.
    - apply split_on_join, Hall. }
  unfold parseKanban.
  assert (Hm : matter (delimiter ++ LF :: LF :: plugin_prefix ++ v ++ LF :: LF
                         :: delimiter ++ LF :: flat_map (cons LF) rest)
               = ([(kanban_plugin, v)], flat_map (cons LF) rest)).
  { destruct Hv as [-> | ->]; [apply matter_basic | apply matter_advanced]. }
  rewrite Hm. rewrite Hrest, Hlines. rewrite scan_lines_blank.
  pose proof (scan_lines_columns [(kanban_plugin, v)] cs Hcs [] None) as Hscan.
  fold rest in Hscan.
  destruct (scan_lines rest [] None) as [cols cur].
  unfold finalize in Hscan. cbn [fst snd app] in Hscan.
  rewrite Hscan. reflexivity.
Qed.

Lemma plain_columns_id (cs : list Column) :
  Forall (fun c => Forall (fun i => metadata i = None) (items c)) cs ->
  List.map plain_column cs = cs.
Proof.
  induction 1 as [|c cs Hc _ IH]; cbn [List.map]; [reflexivity|].
  rewrite IH. f_equal. destruct c as [n its]. unfold plain_column.
  cbn [name items] in *. f_equal.
  induction Hc as [|i its Hi _ IHi]; cbn [List.map]; [reflexivity|].
  rewrite IHi. f_equal. destruct i as [t d m]. cbn [metadata] in Hi.
  subst m. reflexivity.
Qed.

(** C1 (as amended).  A board whose settings are exactly the plugin key
    with the value [basic] or [advanced], whose column names and item
    texts are returned unchanged by their validators and hold neither
    U+2028 nor U+2029, is read back from its serialization with the same
    settings and the same columns in the same order, each with the same
    name and the same items in the same order, each item with the same
    text and the same completed flag (and without metadata, which is not
    written). *)
Theorem parse_serialize_roundtrip (b : Board) (v : str) :
  settings b = [(kanban_plugin, v)] ->
  v = basic \/ v = advanced ->
  Forall valid_column (columns b) ->
  settings (parseKanban (serializeKanban b)) = settings b
  /\ columns (parseKanban (serializeKanban b))
     = List.map plain_column (columns b)
  /\ (Forall (fun c => Forall (fun i => metadata i = None) (items c))
             (columns b) ->
      columns (parseKanban (serializeKanban b)) = columns b).
Proof.
  intros Hs Hv Hcs. destruct b as [p s cs]. cbn [settings columns] in *.
  subst s. rewrite (parse_serialized v cs p Hv Hcs). cbn [settings columns].
  split; [reflexivity|]. split; [reflexivity|]. apply plain_columns_id.
Qed.

Lemma parse_serialize_roundtrip_witness :
  settings (parseKanban (serializeKanban scenario_board))
  = settings scenario_board
  /\ columns (parseKanban (serializeKanban scenario_board))
     = columns scenario_board.
Proof.
  assert (H : Forall valid_column (columns scenario_board))
    by (repeat constructor; vm_compute; reflexivity).
  destruct (parse_serialize_roundtrip scenario_board basic eq_refl
              (or_introl eq_refl) H) as (Hs & Hc & _).
  split; [exact Hs | exact Hc].
Defined.

(** C1 as stated fails: a text with U+2028 inside passes the validator,
    but the line written for it is not matched by the item expression,
    whose dot stops at a line terminator; the item is lost on reading. *)
Lemma roundtrip_loses_line_separator :
  settings separated_board = [(kanban_plugin, basic)]
  /\ Forall validated_column (columns separated_board)
  /\ columns (parseKanban (serializeKanban separated_board))
     = [mkColumn column_A []]
  /\ columns (parseKanban (serializeKanban separated_board))
     <> columns separated_board.
Proof.
  split; [reflexivity|]. split.
  - repeat constructor; vm_compute; reflexivity.
  - split; [vm_compute; reflexivity | vm_compute; discriminate].
Qed.

Lemma kanbanItemReorder_clamps_witness :
  reorderItem scenario_board backlog task1 999
  = Ok (mkBoard [] [(kanban_plugin, basic)]
          [ mkColumn backlog [mkItem task2 false None; mkItem task1 false None];
            mkColumn done_col [mkItem done_task true None] ],
        (mkItem task1 false None, 0%nat, 1%nat))
  /\ fst (kanbanItemReorder (vault_host [board_path]) vault_root board_md
            backlog padded_task1 999 (one_file board_path scenario_doc))
     = Ok (mkReorderResult board_md backlog (mkItem task1 false None)
             0%nat 1%nat)
  /\ snd (kanbanItemReorder (vault_host [board_path]) vault_root board_md
            backlog padded_task1 999 (one_file board_path scenario_doc))
         board_path
     = Some (serializeKanban
               (mkBoard board_path [(kanban_plugin, basic)]
                  [ mkColumn backlog [mkItem task2 false None;
                                      mkItem task1 false None];
                    mkColumn done_col [mkItem done_task true None] ])).
Proof.
  assert (H : (0 <= 999)%Z) by discriminate.
  split.
  - exact (proj1 (proj1 (kanbanItemReorder_clamps scenario_board backlog task1
                           999 H)
                    0%nat _ 0%nat _ eq_refl eq_refl)).
  - assert (Hv : vault_root <> []) by discriminate.
    assert (Hb : board_md <> []) by discriminate.
    assert (Hw : writable (vault_host [board_path]) board_path)
      by (split; reflexivity).
    exact (proj1 (proj2 (proj2 (proj2
             (kanbanItemReorder_clamps
                (mkBoard board_path [(kanban_plugin, basic)]
                         (columns scenario_board))
                backlog task1 999 H)))
             (vault_host [board_path]) vault_root board_md backlog
             padded_task1 (one_file board_path scenario_doc) scenario_doc
             Hv Hb eq_refl eq_refl eq_refl eq_refl eq_refl eq_refl)
             0%nat _ 0%nat _ eq_refl eq_refl Hw).
Defined.

(* ================================================================== *)
(** * Further properties *)
(* ================================================================== *)

(** ** Arrays and references *)

Lemma set_columns_same (b : Board) : set_columns b (columns b) = b.
Proof. destruct b; reflexivity. Qed.

Lemma updateAt_twice {A} (i : nat) (f g : A -> A) (l : list A) :
  updateAt i g (updateAt i f l) = updateAt i (fun x => g (f x)) l.
Proof.
  revert i; induction l as [|a l IH]; intros [|i]; simpl; try reflexivity.
  rewrite IH. reflexivity.
Qed.

Lemma updateAt_fixed {A} (i : nat) (f : A -> A) (l : list A) (x : A) :
  nth_error l i = Some x -> f x = x -> updateAt i f l = l.
Proof.
  revert i; induction l as [|a l IH]; intros [|i]; simpl; intros H E;
    try reflexivity.
  - injection H as ->. rewrite E. reflexivity.
  - rewrite (IH i H E). reflexivity.
Qed.

Lemma updateAt_agree {A} (i : nat) (f g : A -> A) (l : list A) (x : A) :
  nth_error l i = Some x -> f x = g x -> updateAt i f l = updateAt i g l.
Proof.
  revert i; induction l as [|a l IH]; intros [|i]; simpl; intros H E;
    try reflexivity.
  - injection H as ->. rewrite E. reflexivity.
  - rewrite (IH i H E). reflexivity.
Qed.

(** Changing one element without changing what the test sees of it moves
    no first match. *)
Lemma findFirst_updateAt {A} (p : A -> bool) (f : A -> A) (j : nat)
      (l : list A) :
  (forall x, p (f x) = p x) ->
  findFirst p (updateAt j f l)
  = match findFirst p l with
    | Some (i, c) => Some (i, if Nat.eqb i j then f c else c)
    | None => None
    end.
Proof.
  intros Hp. revert j; induction l as [|a l IH]; intros [|j]; simpl;
    try reflexivity.
  - rewrite Hp. destruct (p a); [reflexivity|].
    destruct (findFirst p l) as [[i c]|]; reflexivity.
  - destruct (p a); [reflexivity|]. rewrite IH.
    destruct (findFirst p l) as [[i c]|]; reflexivity.
Qed.

Lemma findFirst_updateAt_hit {A} (p : A -> bool) (f : A -> A) (i : nat)
      (l : list A) (x : A) :
  (forall y, In y l -> p y = false) ->
  nth_error l i = Some x -> p (f x) = true ->
  findFirst p (updateAt i f l) = Some (i, f x).
Proof.
  revert i; induction l as [|a l IH]; intros [|i] Hall Hn Hf; simpl in *;
    try discriminate.
  - injection Hn as ->. rewrite Hf. reflexivity.
  - rewrite (Hall a) by auto.
    rewrite (IH i (fun y Hy => Hall y (or_intror Hy)) Hn Hf). reflexivity.
Qed.

Lemma findFirst_snoc {A} (p : A -> bool) (l : list A) (x : A) :
  (forall y, In y l -> p y = false) -> p x = true ->
  findFirst p (l ++ [x]) = Some (List.length l, x).
Proof.
  induction l as [|a l IH]; simpl; intros Hall Hx.
  - rewrite Hx. reflexivity.
  - rewrite (Hall a) by auto.
    rewrite (IH (fun y Hy => Hall y (or_intror Hy)) Hx). reflexivity.
Qed.

Lemma removeAt_snoc {A} (l : list A) (x : A) :
  removeAt (List.length l) (l ++ [x]) = l.
Proof. induction l as [|a l IH]; simpl; [reflexivity | rewrite IH; reflexivity]. Qed.

Lemma named_set_items (n : str) (its : list Item) (c : Column) :
  named n (set_items its c) = named n c.
Proof. reflexivity. Qed.

Lemma texted_not (t : str) (its : list Item) :
  (forall i, In i its -> text i <> t) ->
  forall y, In y its -> texted t y = false.
Proof. intros H y Hy. apply str_eqb_neq. apply H, Hy. Qed.

(** ** kanban_item_add and kanban_item_remove *)

(** X1.  Adding an item to a column that holds no item of that text and
    then removing the item of that text from the column gives back the
    board: the new item goes last and is the one that is found. *)
Theorem addItem_then_removeItem
  (b : Board) (column txt : str) (flag : bool) (ci : nat) (col : Column) :
  findFirst (named column) (columns b) = Some (ci, col) ->
  (forall i, In i (items col) -> text i <> txt) ->
  exists b1,
    addItem b column txt flag = Ok (b1, mkItem txt flag None)
    /\ nth_error (columns b1) ci
       = Some (mkColumn (name col) (items col ++ [mkItem txt flag None]))
    /\ removeItem b1 column txt = Ok (b, mkItem txt flag None).
Proof.
  intros Hc Hfresh.
  destruct (findFirst_Some _ _ _ _ Hc) as (Hn & _ & _).
  eexists. split; [unfold addItem; rewrite Hc; reflexivity|]. split.
  - cbn [columns set_columns]. rewrite (nth_error_updateAt _ _ _ _ Hn).
    reflexivity.
  - unfold removeItem, set_columns. cbn [columns path settings].
    rewrite (findFirst_updateAt (named column) (push_items [mkItem txt flag None]))
      by reflexivity.
    rewrite Hc, Nat.eqb_refl. cbn [items push_items].
    rewrite (findFirst_snoc (texted txt) (items col) (mkItem txt flag None)
               (texted_not _ _ Hfresh) (str_eqb_refl txt)).
    rewrite updateAt_twice.
    rewrite (updateAt_fixed ci _ (columns b) col Hn).
    + destruct b; reflexivity.
    + unfold set_items, push_items. cbn [items name].
      rewrite removeAt_snoc. destruct col; reflexivity.
Qed.

Lemma addItem_then_removeItem_witness :
  exists b1,
    addItem scenario_board backlog buy_milk false
    = Ok (b1, mkItem buy_milk false None)
    /\ removeItem b1 backlog buy_milk
       = Ok (scenario_board, mkItem buy_milk false None).
Proof.
  destruct (addItem_then_removeItem scenario_board backlog buy_milk false 0
              (mkColumn backlog [mkItem task1 false None; mkItem task2 false None])
              eq_refl) as (b1 & H1 & _ & H2).
  - intros i [<-|[<-|[]]]; discriminate.
  - exists b1. split; assumption.
Defined.

(** ** kanban_item_move *)

Lemma item_count_updateAt (i : nat) (f : Column -> Column)
      (l : list Column) (c : Column) :
  nth_error l i = Some c ->
  (item_count (updateAt i f l) + List.length (items c)
   = item_count l + List.length (items (f c)))%nat.
Proof.
  unfold item_count.
  revert i; induction l as [|a l IH]; intros [|i]; simpl; intros H;
    try discriminate.
  - injection H as ->. lia.
  - specialize (IH i H). lia.
Qed.

Lemma map_name_updateAt (i : nat) (f : Column -> Column) (l : list Column) :
  (forall c, name (f c) = name c) ->
  List.map name (updateAt i f l) = List.map name l.
Proof.
  intros Hf. revert i; induction l as [|a l IH]; intros [|i]; simpl;
    try reflexivity.
  - rewrite Hf. reflexivity.
  - rewrite IH. reflexivity.
Qed.

Lemma texted_eq (t : str) (i : Item) : texted t i = true -> text i = t.
Proof. unfold texted. apply str_eqb_eq. Qed.

(** What a successful move does to the board in memory. *)
Lemma moveItem_transfers_in_memory
  (b b' : Board) (txt source target : str) (item : Item) :
  moveItem b txt source target = Ok (b', item) ->
  exists si sc ti tc k,
    findFirst (named source) (columns b) = Some (si, sc)
    /\ findFirst (named target) (columns b) = Some (ti, tc)
    /\ findFirst (texted txt) (items sc) = Some (k, item)
    /\ text item = txt
    /\ nth_error (columns b') ti
       = Some (mkColumn (name tc)
                 ((if Nat.eqb ti si then removeAt k (items tc) else items tc)
                    ++ [item]))
    /\ (si <> ti ->
        nth_error (columns b') si
        = Some (mkColumn (name sc) (removeAt k (items sc))))
    /\ (forall j, j <> si -> j <> ti ->
                  nth_error (columns b') j = nth_error (columns b) j)
    /\ List.map name (columns b') = List.map name (columns b)
    /\ item_count (columns b') = item_count (columns b).
Proof.
  unfold moveItem.
  destruct (findFirst (named source) (columns b)) as [[si sc]|] eqn:Es;
    [|discriminate].
  destruct (findFirst (named target) (columns b)) as [[ti tc]|] eqn:Et;
    [|discriminate].
  destruct (findFirst (texted txt) (items sc)) as [[k it]|] eqn:Ei;
    [|discriminate].
  intros H. injection H as <- <-.
  destruct (findFirst_Some _ _ _ _ Es) as (Hs & _ & _).
  destruct (findFirst_Some _ _ _ _ Et) as (Ht & _ & _).
  destruct (findFirst_Some _ _ _ _ Ei) as (Hk & Htx & _).
  pose proof (findFirst_lt _ _ _ _ Ei) as Hlt.
  set (cut := fun c : Column => set_items (removeAt k (items c)) c).
  exists si, sc, ti, tc, k. cbn [columns set_columns].
  split; [first [exact Es | reflexivity]|].
  split; [first [exact Et | reflexivity]|].
  split; [exact Ei|].
  split; [apply texted_eq, Htx|].
  assert (Hmid : nth_error (updateAt si cut (columns b)) ti
                 = Some (if Nat.eqb ti si then cut tc else tc)).
  { destruct (Nat.eqb ti si) eqn:E.
    - apply Nat.eqb_eq in E. subst ti. rewrite Hs in Ht. injection Ht as ->.
      apply nth_error_updateAt, Hs.
    - apply Nat.eqb_neq in E. rewrite nth_error_updateAt_other by auto.
      exact Ht. }
  split.
  { rewrite (nth_error_updateAt _ _ _ _ Hmid).
    destruct (Nat.eqb ti si); reflexivity. }
  split.
  { intros Hne. rewrite nth_error_updateAt_other by auto.
    rewrite (nth_error_updateAt _ _ _ _ Hs). reflexivity. }
  split.
  { intros j Hj1 Hj2. rewrite !nth_error_updateAt_other by auto. reflexivity. }
  split.
  { rewrite !map_name_updateAt by reflexivity. reflexivity. }
  pose proof (item_count_updateAt si cut (columns b) sc Hs) as C1.
  pose proof (item_count_updateAt ti (push_items [it])
                (updateAt si cut (columns b)) _ Hmid) as C2.
  assert (Hcut : forall c, nth_error (columns b) si = Some c ->
                           S (List.length (items (cut c)))
                           = List.length (items c)).
  { intros c Hc. rewrite Hs in Hc. injection Hc as <-. unfold cut.
    cbn [items set_items]. rewrite length_removeAt by exact Hlt. lia. }
  pose proof (Hcut sc Hs) as L1.
  assert (L2 : forall c, List.length (items (push_items [it] c))
                         = S (List.length (items c))).
  { intros c. unfold push_items. cbn [items]. rewrite length_app.
    cbn [List.length]. lia. }
  rewrite L2 in C2. lia.
Qed.



(** ** kanban_item_update *)

(** What an update does to the board in memory. *)
Lemma updateItem_then_back_in_memory
  (b : Board) (column oldText newText : str) (ci ii : nat)
  (col : Column) (item : Item) :
  findFirst (named column) (columns b) = Some (ci, col) ->
  findFirst (texted oldText) (items col) = Some (ii, item) ->
  (forall i, In i (items col) -> text i <> newText) ->
  exists b1,
    updateItem b column oldText newText
    = Ok (b1, (item, mkItem newText (completed item) (metadata item)))
    /\ nth_error (columns b1) ci
       = Some (mkColumn (name col)
                 (updateAt ii (set_text newText) (items col)))
    /\ (forall j, j <> ci -> nth_error (columns b1) j = nth_error (columns b) j)
    /\ updateItem b1 column newText oldText
       = Ok (b, (mkItem newText (completed item) (metadata item), item)).
Proof.
  intros Hc Hi Hfresh.
  destruct (findFirst_Some _ _ _ _ Hc) as (Hn & _ & _).
  destruct (findFirst_Some _ _ _ _ Hi) as (Hk & Htx & _).
  apply texted_eq in Htx.
  eexists. split; [unfold updateItem; rewrite Hc, Hi; reflexivity|].
  cbn [columns set_columns]. split.
  { rewrite (nth_error_updateAt _ _ _ _ Hn). reflexivity. }
  split.
  { intros j Hj. apply nth_error_updateAt_other. auto. }
  unfold updateItem, set_columns. cbn [columns path settings].
  rewrite (findFirst_updateAt (named column)) by reflexivity.
  rewrite Hc, Nat.eqb_refl. cbn [items set_items].
  rewrite (findFirst_updateAt_hit (texted newText) (set_text newText) ii
             (items col) item (texted_not _ _ Hfresh) Hk (str_eqb_refl newText)).
  rewrite updateAt_twice.
  assert (Hback : set_text oldText (set_text newText item) = item).
  { unfold set_text. cbn [completed metadata]. rewrite <- Htx.
    destruct item; reflexivity. }
  rewrite (updateAt_fixed ci _ (columns b) col Hn).
  - rewrite Hback. destruct b; reflexivity.
  - unfold set_items. cbn [items name]. rewrite updateAt_twice.
    rewrite (updateAt_fixed ii _ (items col) item Hk Hback).
    destruct col; reflexivity.
Qed.



(** ** kanban_item_complete *)

Lemma texted_set_completed (t : str) (v : bool) (i : Item) :
  texted t (set_completed v i) = texted t i.
Proof. reflexivity. Qed.

(** What completing does to the board in memory. *)
Lemma completeItem_toggle_and_set_in_memory
  (b : Board) (column txt : str) (ci ii : nat) (col : Column) (item : Item) :
  findFirst (named column) (columns b) = Some (ci, col) ->
  findFirst (texted txt) (items col) = Some (ii, item) ->
  (exists b1,
      completeItem b column txt None
      = Ok (b1, (set_completed (negb (completed item)) item,
                 completed item, negb (completed item)))
      /\ nth_error (columns b1) ci
         = Some (mkColumn (name col)
                   (updateAt ii (set_completed (negb (completed item)))
                             (items col)))
      /\ completeItem b1 column txt None
         = Ok (b, (item, negb (completed item), completed item)))
  /\ (forall v,
         exists b1,
           completeItem b column txt (Some v)
           = Ok (b1, (set_completed v item, completed item, v))
           /\ completeItem b1 column txt (Some v)
              = Ok (b1, (set_completed v item, v, v))).
Proof.
  intros Hc Hi.
  destruct (findFirst_Some _ _ _ _ Hc) as (Hn & _ & _).
  destruct (findFirst_Some _ _ _ _ Hi) as (Hk & _ & _).
  assert (Hagain : forall v,
             findFirst (texted txt) (updateAt ii (set_completed v) (items col))
             = Some (ii, set_completed v item)).
  { intros v. rewrite (findFirst_updateAt (texted txt)) by reflexivity.
    rewrite Hi, Nat.eqb_refl. reflexivity. }
  split.
  - eexists. split; [unfold completeItem; rewrite Hc, Hi; reflexivity|].
    cbn [columns set_columns]. split.
    { rewrite (nth_error_updateAt _ _ _ _ Hn). reflexivity. }
    unfold completeItem, set_columns. cbn [columns path settings].
    rewrite (findFirst_updateAt (named column)) by reflexivity.
    rewrite Hc, Nat.eqb_refl. cbn [items set_items]. rewrite Hagain.
    cbn [new_flag completed set_completed]. rewrite negb_involutive.
    assert (Hback : set_completed (completed item)
                      (set_completed (negb (completed item)) item) = item)
      by (destruct item; reflexivity).
    rewrite updateAt_twice.
    rewrite (updateAt_fixed ci _ (columns b) col Hn).
    + unfold set_completed in Hback |- *. cbn [text metadata] in *.
      rewrite Hback. destruct b; reflexivity.
    + unfold set_items. cbn [items name]. rewrite updateAt_twice.
      rewrite (updateAt_fixed ii _ (items col) item Hk Hback).
      destruct col; reflexivity.
  - intros v. eexists. split; [unfold completeItem; rewrite Hc, Hi; reflexivity|].
    unfold completeItem, set_columns. cbn [columns path settings].
    rewrite (findFirst_updateAt (named column)) by reflexivity.
    rewrite Hc, Nat.eqb_refl. cbn [items set_items]. rewrite Hagain.
    cbn [new_flag completed set_completed text metadata].
    rewrite updateAt_twice. f_equal. f_equal. f_equal.
    apply (updateAt_agree ci _ _ (columns b) col Hn).
    unfold set_items. cbn [items name]. rewrite updateAt_twice.
    f_equal;
      try (apply (updateAt_agree ii _ _ (items col) item Hk); reflexivity).
Qed.



(** ** kanban_column_add *)

Lemma insertAt_split {A} (p : nat) (x : A) (l : list A) :
  insertAt p x l = firstn p l ++ x :: skipn p l.
Proof.
  revert l; induction p as [|p IH]; intros [|a l]; simpl; try reflexivity.
  rewrite IH. reflexivity.
Qed.

Lemma removeAt_insertAt {A} (p : nat) (x : A) (l : list A) :
  (p <= List.length l)%nat -> removeAt p (insertAt p x l) = l.
Proof.
  revert l; induction p as [|p IH]; intros [|a l]; simpl; intros H;
    try reflexivity; try lia.
  rewrite IH by lia. reflexivity.
Qed.

Lemma findFirst_insertAt {A} (q : A -> bool) (p : nat) (x : A) (l : list A) :
  (forall y, In y l -> q y = false) -> q x = true ->
  (p <= List.length l)%nat ->
  findFirst q (insertAt p x l) = Some (p, x).
Proof.
  revert l; induction p as [|p IH]; intros [|a l] Hall Hx Hp; simpl in *;
    try (rewrite Hx; reflexivity); try lia.
  rewrite (Hall a) by auto.
  rewrite (IH l (fun y Hy => Hall y (or_intror Hy)) Hx) by lia. reflexivity.
Qed.

Lemma named_not (n : str) (cols : list Column) :
  (forall c, In c cols -> name c <> n) ->
  forall y, In y cols -> named n y = false.
Proof. intros H y Hy. apply str_eqb_neq. apply H, Hy. Qed.

(** What adding a column, and removing it again, does to the board in
    memory. *)
Lemma addColumn_then_removeColumn_in_memory (b : Board) (n : str) (pos : option nat) :
  let p := match pos with Some p => p | None => List.length (columns b) end in
  (forall c, In c (columns b) -> name c <> n) ->
  ((p <= List.length (columns b))%nat ->
   exists b1,
     addColumn b n pos = Fine (b1, (mkColumn n [], p))
     /\ columns b1
        = firstn p (columns b) ++ mkColumn n [] :: skipn p (columns b)
     /\ removeColumn b1 n None = Ok (b, 0%nat))
  /\ ((List.length (columns b) < p)%nat ->
      addColumn b n pos = Thrown PositionOutOfBounds)
  /\ (forall b1 r, addColumn b n pos = Fine (b1, r) ->
                   addColumn b1 n pos = Thrown ColumnAlreadyExists).
Proof.
  intros p Hfresh.
  assert (Hnone : findFirst (named n) (columns b) = None)
    by (apply findFirst_None, named_not, Hfresh).
  assert (Hself : named n (mkColumn n []) = true) by apply str_eqb_refl.
  split; [|split].
  - intros Hp. eexists. split.
    + unfold addColumn. rewrite Hnone. fold p.
      replace (Nat.ltb (List.length (columns b)) p) with false
        by (symmetry; apply Nat.ltb_ge; exact Hp).
      reflexivity.
    + cbn [columns set_columns]. split; [apply insertAt_split|].
      unfold removeColumn, set_columns. cbn [columns path settings].
      rewrite (findFirst_insertAt (named n) p (mkColumn n []) (columns b)
                 (named_not _ _ Hfresh) Hself Hp).
      cbn [items List.length Nat.ltb Nat.leb].
      rewrite removeAt_insertAt by exact Hp. destruct b; reflexivity.
  - intros Hp. unfold addColumn. rewrite Hnone. fold p.
    replace (Nat.ltb (List.length (columns b)) p) with true
      by (symmetry; apply Nat.ltb_lt; exact Hp).
    reflexivity.
  - intros b1 r. unfold addColumn at 1. rewrite Hnone. fold p.
    destruct (Nat.ltb (List.length (columns b)) p) eqn:E; [discriminate|].
    apply Nat.ltb_ge in E. intros H. injection H as <- _.
    unfold addColumn. cbn [columns set_columns].
    rewrite (findFirst_insertAt (named n) p (mkColumn n []) (columns b)
               (named_not _ _ Hfresh) Hself E).
    reflexivity.
Qed.



(** ** Column names stay distinct *)

Lemma map_insertAt {A B} (f : A -> B) (p : nat) (x : A) (l : list A) :
  List.map f (insertAt p x l) = insertAt p (f x) (List.map f l).
Proof.
  revert l; induction p as [|p IH]; intros [|a l]; simpl; try reflexivity.
  rewrite IH. reflexivity.
Qed.

Lemma map_removeAt {A B} (f : A -> B) (i : nat) (l : list A) :
  List.map f (removeAt i l) = removeAt i (List.map f l).
Proof.
  revert i; induction l as [|a l IH]; intros [|i]; simpl; try reflexivity.
  rewrite IH. reflexivity.
Qed.

Lemma Permutation_insertAt {A} (p : nat) (x : A) (l : list A) :
  Permutation (insertAt p x l) (x :: l).
Proof.
  revert l; induction p as [|p IH]; intros [|a l]; simpl; try reflexivity.
  rewrite IH. apply perm_swap.
Qed.

Lemma Permutation_removeAt {A} (i : nat) (l : list A) (x : A) :
  nth_error l i = Some x -> Permutation l (x :: removeAt i l).
Proof.
  revert i; induction l as [|a l IH]; intros [|i]; simpl; intros H;
    try discriminate.
  - injection H as ->. reflexivity.
  - rewrite (IH i H) at 1. apply perm_swap.
Qed.

Lemma In_removeAt {A} (i : nat) (l : list A) (y : A) :
  In y (removeAt i l) -> In y l.
Proof.
  revert i; induction l as [|a l IH]; intros [|i]; simpl; auto.
  intros [H|H]; [left; exact H | right; apply (IH i), H].
Qed.

Lemma NoDup_removeAt {A} (i : nat) (l : list A) :
  NoDup l -> NoDup (removeAt i l).
Proof.
  intros H. revert i; induction H as [|a l Ha Hl IH]; intros [|i]; simpl;
    try constructor; auto.
  intros Hin. apply Ha. apply (In_removeAt i), Hin.
Qed.

Lemma named_absent (n : str) (cols : list Column) :
  findFirst (named n) cols = None -> ~ In n (List.map name cols).
Proof.
  intros H Hin. apply in_map_iff in Hin. destruct Hin as (c & Hc & Hin).
  rewrite findFirst_None in H. specialize (H c Hin).
  apply str_eqb_neq in H. contradiction.
Qed.

Lemma map_name_rename (ci : nat) (new : str) (cols : list Column) (c : Column) :
  nth_error cols ci = Some c ->
  Permutation (new :: removeAt ci (List.map name cols))
              (List.map name (updateAt ci (set_name new) cols)).
Proof.
  revert ci; induction cols as [|a cols IH]; intros [|ci]; simpl; intros H;
    try discriminate.
  - reflexivity.
  - rewrite <- (IH ci H). apply perm_swap.
Qed.



(** ** kanban_column_rename *)

Lemma NoDup_first_only (n : str) (cols : list Column) (ci : nat) (c : Column) :
  NoDup (List.map name cols) ->
  findFirst (named n) cols = Some (ci, c) ->
  forall j y, nth_error cols j = Some y -> j <> ci -> name y <> n.
Proof.
  intros Hnd Hf j y Hj Hne Hy.
  destruct (findFirst_Some _ _ _ _ Hf) as (Hn & Hc & _).
  apply str_eqb_eq in Hc.
  assert (Hjl : (j < List.length (List.map name cols))%nat).
  { rewrite length_map. apply nth_error_Some. rewrite Hj. discriminate. }
  assert (Hil : (ci < List.length (List.map name cols))%nat).
  { rewrite length_map. apply nth_error_Some. rewrite Hn. discriminate. }
  apply Hne.
  apply (proj1 (NoDup_nth_error (List.map name cols)) Hnd j ci Hjl).
  rewrite !nth_error_map, Hj, Hn. cbn. congruence.
Qed.

Lemma findFirst_updateAt_gone (n new : str) (cols : list Column) (ci : nat)
      (c : Column) :
  NoDup (List.map name cols) ->
  findFirst (named n) cols = Some (ci, c) ->
  new <> n ->
  findFirst (named n) (updateAt ci (set_name new) cols) = None.
Proof.
  intros Hnd Hf Hne. apply findFirst_None. intros y Hy.
  apply In_nth_error in Hy. destruct Hy as (j & Hj).
  apply str_eqb_neq.
  destruct (Nat.eq_dec j ci) as [->|Hji].
  - destruct (findFirst_Some _ _ _ _ Hf) as (Hn & _ & _).
    rewrite (nth_error_updateAt _ _ _ _ Hn) in Hj. injection Hj as <-.
    exact Hne.
  - rewrite nth_error_updateAt_other in Hj by auto.
    apply (NoDup_first_only n cols ci c Hnd Hf j y Hj Hji).
Qed.

(** What renaming a column does to the board in memory. *)
Lemma renameColumn_in_place_in_memory
  (b : Board) (old new : str) (ci : nat) (col : Column) :
  findFirst (named old) (columns b) = Some (ci, col) ->
  renameColumn b old old = Thrown ColumnAlreadyExists
  /\ ((forall c, In c (columns b) -> name c <> new) ->
      exists b1,
        renameColumn b old new = Fine (b1, mkColumn new (items col))
        /\ nth_error (columns b1) ci = Some (mkColumn new (items col))
        /\ (forall j, j <> ci ->
                      nth_error (columns b1) j = nth_error (columns b) j)
        /\ (NoDup (List.map name (columns b)) ->
            renameColumn b1 new old = Fine (b, col))).
Proof.
  intros Hc.
  destruct (findFirst_Some _ _ _ _ Hc) as (Hn & Hnamed & _).
  pose proof Hnamed as Hname. apply str_eqb_eq in Hname.
  split.
  - unfold renameColumn. rewrite Hc. reflexivity.
  - intros Hfresh.
    assert (Hnone : findFirst (named new) (columns b) = None)
      by (apply findFirst_None, named_not, Hfresh).
    eexists. split; [unfold renameColumn; rewrite Hc, Hnone; reflexivity|].
    cbn [columns set_columns]. split.
    { rewrite (nth_error_updateAt _ _ _ _ Hn). reflexivity. }
    split.
    { intros j Hj. apply nth_error_updateAt_other. auto. }
    intros Hnd.
    assert (Hne : new <> old).
    { intros ->. apply nth_error_In in Hn. exact (Hfresh col Hn Hname). }
    unfold renameColumn, set_columns. cbn [columns path settings].
    rewrite (findFirst_updateAt_hit (named new) (set_name new) ci (columns b)
               col (named_not _ _ Hfresh) Hn (str_eqb_refl new)).
    rewrite (findFirst_updateAt_gone old new (columns b) ci col Hnd Hc Hne).
    rewrite updateAt_twice.
    assert (Hback : set_name old (set_name new col) = col).
    { unfold set_name. cbn [items]. rewrite <- Hname. destruct col; reflexivity. }
    rewrite (updateAt_fixed ci _ (columns b) col Hn Hback).
    rewrite Hback. destruct b; reflexivity.
Qed.



(** ** kanban_column_move *)



(** ** kanban_archive_done on any board *)

Lemma archive_fold (A : str) (cols : list Column) :
  forall acc arch,
    fold_left (archive_step A) cols (acc, arch)
    = (acc ++ List.map (kept A) cols, arch ++ flat_map (given_up A) cols).
Proof.
  induction cols as [|c cols IH]; intros acc arch; simpl.
  - rewrite !app_nil_r. reflexivity.
  - unfold kept at 1, given_up at 1.
    destruct (str_eqb (name c) A); rewrite IH, <- !app_assoc; reflexivity.
Qed.

Lemma archiveDone_columns (b : Board) (A : str) :
  columns (archiveDone b A)
  = updateAt (snd (archive_setup b A))
      (push_items (flat_map (given_up A) (fst (archive_setup b A))))
      (List.map (kept A) (fst (archive_setup b A))).
Proof.
  unfold archiveDone, archive_setup.
  destruct (findFirst (named A) (columns b)) as [[i c]|];
    rewrite archive_fold; reflexivity.
Qed.

Lemma findFirst_app_none {A} (p : A -> bool) (l : list A) (x : A) :
  findFirst p l = None -> p x = true ->
  findFirst p (l ++ [x]) = Some (List.length l, x).
Proof.
  intros H Hx. apply findFirst_snoc; [|exact Hx]. apply findFirst_None, H.
Qed.

(** The archive column is the first column of that name among the columns
    the loop runs over. *)
Lemma archive_setup_target (b : Board) (A : str) :
  exists ac,
    findFirst (named A) (fst (archive_setup b A))
    = Some (snd (archive_setup b A), ac).
Proof.
  unfold archive_setup.
  destruct (findFirst (named A) (columns b)) as [[i c]|] eqn:E; cbn [fst snd].
  - exists c. exact E.
  - exists (mkColumn A []). apply findFirst_app_none; [exact E|].
    apply str_eqb_refl.
Qed.

Lemma kept_name (A : str) (c : Column) : name (kept A c) = name c.
Proof. unfold kept. destruct (str_eqb (name c) A); reflexivity. Qed.

Lemma findFirst_map {X} (p : X -> bool) (f : X -> X) (l : list X) :
  (forall x, p (f x) = p x) ->
  findFirst p (List.map f l)
  = match findFirst p l with
    | Some (i, c) => Some (i, f c)
    | None => None
    end.
Proof.
  intros Hp. induction l as [|a l IH]; simpl; [reflexivity|].
  rewrite Hp. destruct (p a); [reflexivity|]. rewrite IH.
  destruct (findFirst p l) as [[i c]|]; reflexivity.
Qed.

Lemma named_kept (A n : str) (c : Column) : named n (kept A c) = named n c.
Proof. unfold named. rewrite kept_name. reflexivity. Qed.

Lemma length_filter_split {X} (p : X -> bool) (l : list X) :
  (List.length (filter p l) + List.length (filter (fun x => negb (p x)) l)
   = List.length l)%nat.
Proof.
  induction l as [|a l IH]; simpl; [reflexivity|].
  destruct (p a); simpl; lia.
Qed.

Lemma item_count_app (a b : list Column) :
  item_count (a ++ b) = (item_count a + item_count b)%nat.
Proof. unfold item_count. rewrite map_app, list_sum_app. reflexivity. Qed.

Lemma item_count_kept (A : str) (cols : list Column) :
  (item_count (List.map (kept A) cols)
   + List.length (flat_map (given_up A) cols)
   = item_count cols)%nat.
Proof.
  unfold item_count. induction cols as [|c cols IH]; simpl; [reflexivity|].
  rewrite length_app. unfold kept at 1, given_up at 1.
  destruct (str_eqb (name c) A); cbn [items set_items List.length].
  - lia.
  - pose proof (length_filter_split completed (items c)). lia.
Qed.

(** [kanbanArchiveDone] on a file that reads as the board [b]: what it
    returns, and writes when the file can be written, is what
    [archiveDone] makes of [b]. *)
Lemma kanbanArchiveDone_on_board
      (h : Host) (vault file : str) (archiveColumn : option str)
      (b : Board) (A : str) (fs : Files) (content : str) :
  vault <> [] ->
  file <> [] ->
  or_Archive (Some (match archiveColumn with
                    | Some a => a
                    | None => Archive
                    end)) = A ->
  validateVaultPath h vault file = Ok (path b) ->
  readFile fs (path b) = Some content ->
  settings (parseKanban content) = settings b ->
  columns (parseKanban content) = columns b ->
  writable h (path b) ->
  fst (kanbanArchiveDone h vault file archiveColumn fs)
  = Ok (archiveDone b A)
  /\ snd (kanbanArchiveDone h vault file archiveColumn fs) (path b)
     = Some (serializeKanban (archiveDone b A)).
Proof.
  intros Hv Hfile HA Hp Hf Hs Hc Hw.
  destruct (writeKanbanFile_writable h (path b) (archiveDone b A) fs Hw)
    as (fs' & Ew & Hfile' & _).
  assert (E : kanbanArchiveDone h vault file archiveColumn fs
              = (Ok (archiveDone b A), fs')).
  { unfold kanbanArchiveDone.
    rewrite bind_lift, (nonEmpty_ok _ Hv), bind_lift, (nonEmpty_ok _ Hfile).
    rewrite bind_lift, Hp. unfold bind, ret, readKanbanFile.
    rewrite Hf, HA, Hs, Hc.
    replace (mkBoard (path b) (settings b) (columns b)) with b
      by (destruct b; reflexivity).
    rewrite Ew. reflexivity. }
  rewrite E. split; [reflexivity | exact Hfile'].
Qed.

(** What archiving does to the board in memory. *)
Lemma archiveDone_moves_completed_in_memory (b : Board) (A : str) :
  List.map name (columns (archiveDone b A))
  = List.map name (columns b)
    ++ match findFirst (named A) (columns b) with
       | Some _ => []
       | None => [A]
       end
  /\ (forall c i, In c (columns (archiveDone b A)) -> name c <> A ->
                  In i (items c) -> completed i = false)
  /\ (forall j c, nth_error (columns b) j = Some c -> name c <> A ->
                  nth_error (columns (archiveDone b A)) j
                  = Some (mkColumn (name c)
                            (filter (fun i => negb (completed i)) (items c))))
  /\ (exists ai ac,
         findFirst (named A) (fst (archive_setup b A)) = Some (ai, ac)
         /\ nth_error (columns (archiveDone b A)) ai
            = Some (mkColumn A
                      (items ac ++ flat_map (given_up A) (columns b))))
  /\ item_count (columns (archiveDone b A)) = item_count (columns b).
Proof.
  rewrite archiveDone_columns.
  destruct (archive_setup_target b A) as (ac & Hac).
  destruct (findFirst_Some _ _ _ _ Hac) as (Han & Hanamed & _).
  pose proof Hanamed as Haname. apply str_eqb_eq in Haname.
  set (cols := fst (archive_setup b A)) in *.
  set (ai := snd (archive_setup b A)) in *.
  set (arch := flat_map (given_up A) cols).
  assert (Hkeptac : kept A ac = ac).
  { unfold kept. unfold named in Hanamed. rewrite Hanamed. reflexivity. }
  assert (Hmid : nth_error (List.map (kept A) cols) ai = Some ac).
  { rewrite nth_error_map, Han. cbn. rewrite Hkeptac. reflexivity. }
  assert (Hcols : cols = columns b
                         ++ match findFirst (named A) (columns b) with
                            | Some _ => []
                            | None => [mkColumn A []]
                            end).
  { unfold cols, archive_setup.
    destruct (findFirst (named A) (columns b)) as [[i c]|]; cbn [fst];
      [rewrite app_nil_r|]; reflexivity. }
  assert (Harch : arch = flat_map (given_up A) (columns b)).
  { unfold arch. rewrite Hcols, flat_map_app.
    destruct (findFirst (named A) (columns b)) as [[i c]|]; cbn [flat_map].
    - rewrite app_nil_r. reflexivity.
    - unfold given_up at 2. cbn [name]. rewrite str_eqb_refl, !app_nil_r.
      reflexivity. }
  split; [|split; [|split; [|split]]].
  - rewrite map_name_updateAt by reflexivity.
    rewrite map_map.
    rewrite (map_ext (fun c => name (kept A c)) name (kept_name A)).
    rewrite Hcols, map_app.
    destruct (findFirst (named A) (columns b)) as [[i c]|]; reflexivity.
  - intros c i Hc Hname Hi.
    apply In_nth_error in Hc. destruct Hc as (j & Hj).
    destruct (Nat.eq_dec j ai) as [->|Hne].
    + rewrite (nth_error_updateAt _ _ _ _ Hmid) in Hj. injection Hj as <-.
      exfalso. apply Hname. exact Haname.
    + rewrite nth_error_updateAt_other in Hj by auto.
      rewrite nth_error_map in Hj.
      destruct (nth_error cols j) as [c0|]; [|discriminate].
      cbn in Hj. injection Hj as <-. unfold kept in Hname, Hi.
      destruct (str_eqb (name c0) A) eqn:E.
      * apply str_eqb_eq in E. contradiction.
      * cbn [items set_items] in Hi. apply filter_In in Hi.
        destruct Hi as (_ & Hi). apply negb_true_iff in Hi. exact Hi.
  - intros j c Hj Hname.
    assert (Hjc : nth_error cols j = Some c).
    { rewrite Hcols. rewrite nth_error_app1; [exact Hj|].
      apply nth_error_Some. rewrite Hj. discriminate. }
    assert (Hne : ai <> j).
    { intros <-. rewrite Han in Hjc. injection Hjc as <-. contradiction. }
    rewrite nth_error_updateAt_other by exact Hne.
    rewrite nth_error_map, Hjc. cbn. unfold kept.
    apply str_eqb_neq in Hname. rewrite Hname. reflexivity.
  - exists ai, ac. split; [exact Hac|].
    rewrite (nth_error_updateAt _ _ _ _ Hmid). unfold push_items.
    rewrite Haname, Harch. reflexivity.
  - pose proof (item_count_updateAt ai (push_items arch)
                  (List.map (kept A) cols) ac Hmid) as C1.
    pose proof (item_count_kept A cols) as C2. fold arch in C2.
    assert (L : List.length (items (push_items arch ac))
                = (List.length (items ac) + List.length arch)%nat)
      by (unfold push_items; cbn [items]; apply length_app).
    rewrite L in C1.
    assert (C3 : item_count cols = item_count (columns b)).
    { rewrite Hcols, item_count_app.
      destruct (findFirst (named A) (columns b)) as [[i c]|]; cbn; lia. }
    lia.
Qed.

(** X9.  On the board in memory, archiving keeps the columns and their
    order, with the archive column added last when the board had none.
    Afterwards no column of another name holds a completed item: each
    keeps its items that are not completed, in their order; the archive
    column gains, after its own items, the completed items of the other
    columns in board order.  No item is lost or duplicated.  The tool
    [kanbanArchiveDone], run on a file that reads as the board, returns
    what this in-memory part computes for the archive column name as
    given (or [Archive] when it is missing or empty), and writes it when
    the file can be written. *)
Theorem archiveDone_moves_completed (b : Board) (A : str) :
  (List.map name (columns (archiveDone b A))
   = List.map name (columns b)
     ++ match findFirst (named A) (columns b) with
        | Some _ => []
        | None => [A]
        end
   /\ (forall c i, In c (columns (archiveDone b A)) -> name c <> A ->
                   In i (items c) -> completed i = false)
   /\ (forall j c, nth_error (columns b) j = Some c -> name c <> A ->
                   nth_error (columns (archiveDone b A)) j
                   = Some (mkColumn (name c)
                             (filter (fun i => negb (completed i)) (items c))))
   /\ (exists ai ac,
          findFirst (named A) (fst (archive_setup b A)) = Some (ai, ac)
          /\ nth_error (columns (archiveDone b A)) ai
             = Some (mkColumn A
                       (items ac ++ flat_map (given_up A) (columns b))))
   /\ item_count (columns (archiveDone b A)) = item_count (columns b))
  /\ (forall h vault file archiveColumn fs content,
      vault <> [] ->
      file <> [] ->
      or_Archive (Some (match archiveColumn with
                        | Some a => a
                        | None => Archive
                        end)) = A ->
      validateVaultPath h vault file = Ok (path b) ->
      readFile fs (path b) = Some content ->
      settings (parseKanban content) = settings b ->
      columns (parseKanban content) = columns b ->
      writable h (path b) ->
      fst (kanbanArchiveDone h vault file archiveColumn fs)
      = Ok (archiveDone b A)
      /\ snd (kanbanArchiveDone h vault file archiveColumn fs) (path b)
         = Some (serializeKanban (archiveDone b A))).
Proof.
  split; [exact (archiveDone_moves_completed_in_memory b A)|].
  intros h vault file archiveColumn fs content.
  apply kanbanArchiveDone_on_board.
Qed.

Lemma archiveDone_moves_completed_witness :
  fst (kanbanArchiveDone (vault_host [board_path]) vault_root board_md None
         (one_file board_path scenario_doc))
  = Ok (mkBoard board_path [(kanban_plugin, basic)] scenario_archived).
Proof.
  refine (proj1 (proj2 (archiveDone_moves_completed
                          (mkBoard board_path [(kanban_plugin, basic)]
                                   (columns scenario_board)) Archive)
                   (vault_host [board_path]) vault_root board_md None
                   (one_file board_path scenario_doc) scenario_doc
                   _ _ _ _ _ _ _ _));
    try discriminate; try (vm_compute; reflexivity).
  split; reflexivity.
Defined.

Lemma filter_negb_twice {X} (p : X -> bool) (l : list X) :
  filter (fun x => negb (p x)) (filter (fun x => negb (p x)) l)
  = filter (fun x => negb (p x)) l.
Proof.
  induction l as [|a l IH]; simpl; [reflexivity|].
  destruct (p a) eqn:E; simpl; [exact IH|]. rewrite E. simpl.
  rewrite IH. reflexivity.
Qed.

Lemma filter_after_negb {X} (p : X -> bool) (l : list X) :
  filter p (filter (fun x => negb (p x)) l) = [].
Proof.
  induction l as [|a l IH]; simpl; [reflexivity|].
  destruct (p a) eqn:E; simpl; [exact IH|]. rewrite E. exact IH.
Qed.

Lemma kept_twice (A : str) (c : Column) : kept A (kept A c) = kept A c.
Proof.
  unfold kept. destruct (str_eqb (name c) A) eqn:E.
  - rewrite E. reflexivity.
  - cbn [name set_items items]. rewrite E.
    unfold set_items. cbn [name items]. rewrite filter_negb_twice.
    reflexivity.
Qed.

Lemma given_up_kept (A : str) (c : Column) : given_up A (kept A c) = [].
Proof.
  unfold given_up, kept. destruct (str_eqb (name c) A) eqn:E.
  - rewrite E. reflexivity.
  - cbn [name set_items items]. rewrite E. apply filter_after_negb.
Qed.

Lemma push_items_nil (c : Column) : push_items [] c = c.
Proof. unfold push_items. rewrite app_nil_r. destruct c; reflexivity. Qed.


Lemma Forall_updateAt {X} (P : X -> Prop) (f : X -> X) (i : nat)
      (l : list X) (x : X) :
  Forall P l -> nth_error l i = Some x -> P (f x) ->
  Forall P (updateAt i f l).
Proof.
  intros H. revert i; induction H as [|a l Ha Hl IH]; intros [|i]; simpl;
    intros Hn Hf; try discriminate.
  - injection Hn as ->. constructor; assumption.
  - constructor; [exact Ha | apply (IH i Hn Hf)].
Qed.

Lemma map_fixed {X} (f : X -> X) (l : list X) :
  Forall (fun x => f x = x) l -> List.map f l = l.
Proof.
  induction 1 as [|a l Ha _ IH]; simpl; [reflexivity|].
  rewrite Ha, IH. reflexivity.
Qed.

Lemma flat_map_nil {X Y} (f : X -> list Y) (l : list X) :
  Forall (fun x => f x = []) l -> flat_map f l = [].
Proof.
  induction 1 as [|a l Ha _ IH]; simpl; [reflexivity|].
  rewrite Ha, IH. reflexivity.
Qed.

Lemma archiveDone_shape (b : Board) (A : str) :
  archiveDone b A = set_columns b (columns (archiveDone b A)).
Proof.
  unfold archiveDone.
  destruct (findFirst (named A) (columns b)) as [[i c]|];
    destruct (fold_left _ _ _); reflexivity.
Qed.

(** In memory, archiving twice is archiving once. *)
Lemma archiveDone_twice (b : Board) (A : str) :
  archiveDone (archiveDone b A) A = archiveDone b A.
Proof.
  rewrite (archiveDone_shape (archiveDone b A) A).
  rewrite (archiveDone_columns (archiveDone b A) A).
  destruct (archive_setup_target b A) as (ac & Hac).
  destruct (findFirst_Some _ _ _ _ Hac) as (Han & Hanamed & _).
  pose proof (archiveDone_columns b A) as Hcols.
  set (cols := fst (archive_setup b A)) in *.
  set (ai := snd (archive_setup b A)) in *.
  set (arch := flat_map (given_up A) cols) in *.
  set (C := columns (archiveDone b A)) in *.
  assert (Hkeptac : kept A ac = ac).
  { unfold kept. unfold named in Hanamed. rewrite Hanamed. reflexivity. }
  assert (Hmid : nth_error (List.map (kept A) cols) ai = Some ac).
  { rewrite nth_error_map, Han. cbn. rewrite Hkeptac. reflexivity. }
  assert (Hfind : findFirst (named A) C = Some (ai, push_items arch ac)).
  { rewrite Hcols.
    rewrite (findFirst_updateAt (named A) (push_items arch)) by reflexivity.
    rewrite (findFirst_map (named A) (kept A)) by (intros x; apply named_kept).
    rewrite Hac, Nat.eqb_refl, Hkeptac. reflexivity. }
  assert (Hsetup : archive_setup (archiveDone b A) A = (C, ai)).
  { unfold archive_setup. fold C. rewrite Hfind. reflexivity. }
  rewrite Hsetup. cbn [fst snd].
  assert (Hall : Forall (fun c => kept A c = c /\ given_up A c = []) C).
  { rewrite Hcols.
    apply (Forall_updateAt _ (push_items arch) ai _ ac); [|exact Hmid|].
    - apply Forall_map. apply Forall_forall. intros c _.
      split; [apply kept_twice | apply given_up_kept].
    - unfold kept, given_up, push_items. cbn [name].
      unfold named in Hanamed. rewrite Hanamed. split; reflexivity. }
  rewrite (map_fixed (kept A) C)
    by (revert Hall; apply Forall_impl; intros c (H & _); exact H).
  rewrite (flat_map_nil (given_up A) C)
    by (revert Hall; apply Forall_impl; intros c (_ & H); exact H).
  assert (Hn : nth_error C ai = Some (push_items arch ac)).
  { destruct (findFirst_Some _ _ _ _ Hfind) as (H & _). exact H. }
  rewrite (updateAt_fixed ai (push_items []) C _ Hn (push_items_nil _)).
  unfold C. apply set_columns_same.
Qed.

Lemma path_archiveDone (b : Board) (A : str) : path (archiveDone b A) = path b.
Proof. rewrite archiveDone_shape. reflexivity. Qed.

(** X10.  On the board in memory, archiving twice is archiving once:
    after a first run there is nothing left to move, and a second run
    leaves the board as it is.  So [kanbanArchiveDone], run with the same
    archive column on a file that reads as the archived board, returns
    that board, and writes it again when the file can be written. *)
Theorem archiveDone_idempotent (b : Board) (A : str) :
  archiveDone (archiveDone b A) A = archiveDone b A
  /\ (forall h vault file archiveColumn fs content,
      vault <> [] ->
      file <> [] ->
      or_Archive (Some (match archiveColumn with
                        | Some a => a
                        | None => Archive
                        end)) = A ->
      validateVaultPath h vault file = Ok (path b) ->
      readFile fs (path b) = Some content ->
      settings (parseKanban content) = settings (archiveDone b A) ->
      columns (parseKanban content) = columns (archiveDone b A) ->
      writable h (path b) ->
      fst (kanbanArchiveDone h vault file archiveColumn fs)
      = Ok (archiveDone b A)
      /\ snd (kanbanArchiveDone h vault file archiveColumn fs) (path b)
         = Some (serializeKanban (archiveDone b A))).
Proof.
  split; [exact (archiveDone_twice b A)|].
  intros h vault file archiveColumn fs content Hv Hfile HA Hp Hf Hs Hc Hw.
  pose proof (kanbanArchiveDone_on_board h vault file archiveColumn
                (archiveDone b A) A fs content Hv Hfile HA) as K.
  rewrite (archiveDone_twice b A), (path_archiveDone b A) in K.
  apply K; assumption.
Qed.

Lemma archiveDone_idempotent_witness :
  fst (kanbanArchiveDone (vault_host [board_path]) vault_root board_md None
         (one_file board_path
            (serializeKanban
               (mkBoard board_path [(kanban_plugin, basic)]
                        scenario_archived))))
  = Ok (mkBoard board_path [(kanban_plugin, basic)] scenario_archived).
Proof.
  refine (proj1 (proj2 (archiveDone_idempotent
                          (mkBoard board_path [(kanban_plugin, basic)]
                                   (columns scenario_board)) Archive)
                   (vault_host [board_path]) vault_root board_md None
                   (one_file board_path
                      (serializeKanban
                         (mkBoard board_path [(kanban_plugin, basic)]
                                  scenario_archived)))
                   (serializeKanban
                      (mkBoard board_path [(kanban_plugin, basic)]
                               scenario_archived))
                   _ _ _ _ _ _ _ _));
    try discriminate; try (vm_compute; reflexivity).
  split; reflexivity.
Defined.

(** ** kanban_merge, run again *)

Lemma fold_mergeItem_nothing_new (src its : list Item) :
  (forall i, In i src -> exists j, In j its /\ text j = text i) ->
  fold_left mergeItem src its = its.
Proof.
  induction src as [|item src IH]; simpl; intros H; [reflexivity|].
  rewrite (mergeItem_duplicate its item) by (apply H; left; reflexivity).
  apply IH. intros i Hi. apply H. right. exact Hi.
Qed.

Lemma mergeColumn_held (T : list Column) (sc : Column) :
  holds T sc -> mergeColumn T sc = T.
Proof.
  intros (ti & tc & Hf & Hall). unfold mergeColumn. rewrite Hf.
  destruct (findFirst_Some _ _ _ _ Hf) as (Hn & _ & _).
  apply (updateAt_fixed ti _ T tc Hn).
  rewrite (fold_mergeItem_nothing_new _ _ Hall). destruct tc; reflexivity.
Qed.

Lemma findFirst_app_some {X} (p : X -> bool) (l l' : list X) (r : nat * X) :
  findFirst p l = Some r -> findFirst p (l ++ l') = Some r.
Proof.
  revert r; induction l as [|a l IH]; simpl; intros r H; [discriminate|].
  destruct (p a); [exact H|].
  destruct (findFirst p l) as [[i y]|]; [|discriminate].
  rewrite (IH (i, y) eq_refl). exact H.
Qed.

Lemma mergeColumn_holds_own (T : list Column) (sc : Column) :
  holds (mergeColumn T sc) sc.
Proof.
  unfold holds, mergeColumn.
  destruct (findFirst (named (name sc)) T) as [[ti tc]|] eqn:E.
  - exists ti. eexists. split.
    + rewrite (findFirst_updateAt (named (name sc))) by reflexivity.
      rewrite E, Nat.eqb_refl. reflexivity.
    + intros i Hi. cbn [items set_items].
      apply fold_mergeItem_covers. right. exists i. auto.
  - exists (List.length T). eexists. split.
    + apply findFirst_app_none; [exact E | apply str_eqb_refl].
    + intros i Hi. cbn [items].
      apply fold_mergeItem_covers. right. exists i. auto.
Qed.

Lemma mergeColumn_keeps_held (T : list Column) (sc sc' : Column) :
  holds T sc' -> holds (mergeColumn T sc) sc'.
Proof.
  intros (ti' & tc' & Hf' & Hall). unfold holds, mergeColumn.
  destruct (findFirst (named (name sc)) T) as [[ti tc]|] eqn:E.
  - exists ti'. eexists. split.
    + rewrite (findFirst_updateAt (named (name sc'))) by reflexivity.
      rewrite Hf'. reflexivity.
    + intros i Hi. destruct (Hall i Hi) as (j & Hj & Hjt).
      destruct (Nat.eqb ti' ti); [|exists j; auto].
      cbn [items set_items].
      destruct (fold_mergeItem_appends (items sc) (items tc'))
        as (added & -> & _).
      exists j. split; [apply in_or_app; left; exact Hj | exact Hjt].
  - exists ti', tc'. split; [|exact Hall].
    apply findFirst_app_some, Hf'.
Qed.

Lemma fold_mergeColumn_keeps_held (S T : list Column) (sc' : Column) :
  holds T sc' -> holds (fold_left mergeColumn S T) sc'.
Proof.
  revert T; induction S as [|sc S IH]; intros T H; simpl; [exact H|].
  apply IH, mergeColumn_keeps_held, H.
Qed.

Lemma fold_mergeColumn_holds_all (S T : list Column) :
  forall sc, In sc S -> holds (fold_left mergeColumn S T) sc.
Proof.
  revert T; induction S as [|sc0 S IH]; intros T sc Hin; simpl;
    [destruct Hin|].
  destruct Hin as [<-|Hin].
  - apply fold_mergeColumn_keeps_held, mergeColumn_holds_own.
  - apply IH, Hin.
Qed.

Lemma fold_mergeColumn_nothing_new (S T : list Column) :
  (forall sc, In sc S -> holds T sc) -> fold_left mergeColumn S T = T.
Proof.
  induction S as [|sc S IH]; simpl; intros H; [reflexivity|].
  rewrite (mergeColumn_held T sc) by (apply H; left; reflexivity).
  apply IH. intros sc' Hin. apply H. right. exact Hin.
Qed.

(** In memory, a merged target holds the source, and merging the source
    once more changes nothing. *)
Lemma mergeBoard_twice (target source : Board) :
  (forall sc, In sc (columns source) ->
              holds (columns (mergeBoard target source)) sc)
  /\ mergeBoard (mergeBoard target source) source = mergeBoard target source.
Proof.
  split.
  - intros sc Hin. apply fold_mergeColumn_holds_all, Hin.
  - unfold mergeBoard at 1. unfold set_columns.
    rewrite fold_mergeColumn_nothing_new
      by (intros sc Hin; apply fold_mergeColumn_holds_all, Hin).
    destruct (mergeBoard target source); reflexivity.
Qed.

(** [kanbanMerge] of one source into a target file that reads as the board
    [target]: what it returns and writes is what [mergeBoard] makes of the
    two boards. *)
Lemma kanbanMerge_one_source
      (h : Host) (vault sourceFile targetFile : str)
      (target source : Board) (fs : Files) (content : str) :
  vault <> [] ->
  sourceFile <> [] ->
  targetFile <> [] ->
  validateVaultPath h vault targetFile = Ok (path target) ->
  reads h vault fs sourceFile source ->
  readFile fs (path target) = Some content ->
  settings (parseKanban content) = settings target ->
  columns (parseKanban content) = columns target ->
  writable h (path target) ->
  fst (kanbanMerge h vault [sourceFile] targetFile fs)
  = Ok (mergeBoard target source)
  /\ snd (kanbanMerge h vault [sourceFile] targetFile fs) (path target)
     = Some (serializeKanban (mergeBoard target source)).
Proof.
  intros Hv Hs Ht Hp Hr Hf Hset Hcol Hw.
  rewrite (kanbanMerge_run h vault targetFile [sourceFile] fs (path target)
             [source] Hv Ht)
    by (try discriminate; try exact Hp; repeat constructor; assumption).
  rewrite Hf, Hset, Hcol.
  replace (mkBoard (path target) (settings target) (columns target))
    with target by (destruct target; reflexivity).
  cbn [fold_left].
  destruct (writeKanbanFile_writable h (path target)
              (mergeBoard target source) fs Hw) as (fs' & Ew & Hfile & _).
  rewrite Ew. split; [reflexivity | exact Hfile].
Qed.

(** X11.  On the boards in memory, after a merge the target holds every
    column of the source: for each source column, the first target column
    of that name has an item for every text of the source column; merging
    the same source once more therefore changes nothing.  The tool
    [kanbanMerge], given one source and a target file that reads as the
    target board, returns and writes what this in-memory part computes
    when the file can be written; so, run once more on a target file that
    reads as the merged board, it returns that board. *)
Theorem mergeBoard_idempotent (target source : Board) :
  (forall sc, In sc (columns source) ->
              holds (columns (mergeBoard target source)) sc)
  /\ mergeBoard (mergeBoard target source) source = mergeBoard target source
  /\ (forall h vault sourceFile targetFile fs content,
      vault <> [] ->
      sourceFile <> [] ->
      targetFile <> [] ->
      validateVaultPath h vault targetFile = Ok (path target) ->
      reads h vault fs sourceFile source ->
      readFile fs (path target) = Some content ->
      writable h (path target) ->
      (settings (parseKanban content) = settings target ->
       columns (parseKanban content) = columns target ->
       fst (kanbanMerge h vault [sourceFile] targetFile fs)
       = Ok (mergeBoard target source)
       /\ snd (kanbanMerge h vault [sourceFile] targetFile fs) (path target)
          = Some (serializeKanban (mergeBoard target source)))
      /\ (settings (parseKanban content)
          = settings (mergeBoard target source) ->
          columns (parseKanban content)
          = columns (mergeBoard target source) ->
          fst (kanbanMerge h vault [sourceFile] targetFile fs)
          = Ok (mergeBoard target source))).
Proof.
  destruct (mergeBoard_twice target source) as (Hholds & Htwice).
  split; [exact Hholds | split; [exact Htwice|]].
  intros h vault sourceFile targetFile fs content Hv Hs Ht Hp Hr Hf Hw.
  split.
  - intros Hset Hcol.
    apply (kanbanMerge_one_source h vault sourceFile targetFile target source
             fs content); assumption.
  - intros Hset Hcol.
    pose proof (kanbanMerge_one_source h vault sourceFile targetFile
                  (mergeBoard target source) source fs content Hv Hs Ht) as K.
    rewrite Htwice in K.
    change (path (mergeBoard target source)) with (path target) in K.
    apply K; assumption.
Qed.

Lemma mergeBoard_idempotent_witness :
  fst (kanbanMerge (vault_host [a_path; b_path]) vault_root [b_md] a_md
         milk_files)
  = Ok (milk_board a_path false).
Proof.
  refine (proj1 (proj1 (proj2 (proj2 (mergeBoard_idempotent
                                        (milk_board a_path false)
                                        (milk_board b_path true)))
                          (vault_host [a_path; b_path]) vault_root b_md a_md
                          milk_files
                          (serializeKanban (milk_board a_path false))
                          _ _ _ _ _ _ _) _ _));
    try discriminate; try (vm_compute; reflexivity).
  - exists b_path, (serializeKanban (milk_board b_path true)).
    repeat split; vm_compute; reflexivity.
  - split; reflexivity.
Defined.

(** ** What the validators return *)

Lemma In_trimStart (c : N) (s : str) : In c (trimStart s) -> In c s.
Proof.
  induction s as [|a s IH]; simpl; [auto|].
  destruct (is_space a); [intros H; right; apply IH, H | auto].
Qed.

Lemma In_trim (c : N) (s : str) : In c (trim s) -> In c s.
Proof.
  unfold trim, trimEnd. intros H. apply In_trimStart.
  apply in_rev in H. apply In_trimStart in H. apply in_rev in H. exact H.
Qed.

Lemma trimStart_twice (s : str) : trimStart (trimStart s) = trimStart s.
Proof.
  induction s as [|a s IH]; simpl; [reflexivity|].
  destruct (is_space a) eqn:E; [exact IH|]. simpl. rewrite E. reflexivity.
Qed.

Lemma trimEnd_twice (s : str) : trimEnd (trimEnd s) = trimEnd s.
Proof.
  unfold trimEnd. rewrite rev_involutive, trimStart_twice. reflexivity.
Qed.

(** Trimming a trimmed string changes nothing. *)
Lemma trim_twice (s : str) : trim (trim s) = trim s.
Proof.
  assert (H : forall r, trimStart r = r -> trim r = trimEnd r).
  { intros r Hr. unfold trim. rewrite Hr. reflexivity. }
  destruct (trimStart s) as [|c s'] eqn:E.
  { unfold trim. rewrite E. reflexivity. }
  assert (Hc : is_space c = false).
  { destruct (is_space c) eqn:Hc; [|reflexivity]. exfalso.
    pose proof (trimStart_twice s) as T. rewrite E in T. simpl in T.
    rewrite Hc in T.
    pose proof (length_trimStart s') as L. rewrite T in L. simpl in L. lia. }
  assert (T : trim s = c :: trimEnd s').
  { unfold trim. rewrite E. apply trimEnd_cons, Hc. }
  rewrite T, (trim_cons c _ Hc), trimEnd_twice. reflexivity.
Qed.

Lemma includes_false (c : N) (s : str) : includes c s = false <-> ~ In c s.
Proof.
  unfold includes. split.
  - intros H Hin. assert (existsb (N.eqb c) s = true) as E;
      [|rewrite E in H; discriminate].
    apply existsb_exists. exists c. split; [exact Hin | apply N.eqb_refl].
  - intros H. destruct (existsb (N.eqb c) s) eqn:E; [|reflexivity].
    apply existsb_exists in E. destruct E as (x & Hx & Hcx).
    apply N.eqb_eq in Hcx. subst x. contradiction.
Qed.

Lemma control_characters_allowed (s : str) (allowNewlines : bool) :
  containsControlCharacters s allowNewlines = false ->
  Forall (fun c => printable c
                   \/ (allowNewlines = true /\ (c = 10 \/ c = 13))) s.
Proof.
  induction s as [|c s IH]; simpl; intros H; [constructor|].
  destruct (c =? 9) eqn:E9.
  { apply N.eqb_eq in E9. constructor; [left; left; exact E9 | apply IH, H]. }
  destruct (allowNewlines && ((c =? 10) || (c =? 13))) eqn:En.
  { apply andb_true_iff in En. destruct En as (Ha & En).
    apply orb_true_iff in En. constructor; [|apply IH, H].
    right. split; [exact Ha|].
    destruct En as [En|En]; apply N.eqb_eq in En; auto. }
  destruct (c <? 32) eqn:E32; [discriminate|].
  apply N.ltb_ge in E32. constructor; [left; right; exact E32 | apply IH, H].
Qed.

Lemma printable_passes (s : str) (allowNewlines : bool) :
  Forall printable s -> containsControlCharacters s allowNewlines = false.
Proof.
  induction 1 as [|c s Hc _ IH]; simpl; [reflexivity|].
  destruct (c =? 9) eqn:E9; [exact IH|].
  destruct (allowNewlines && ((c =? 10) || (c =? 13))); [exact IH|].
  destruct Hc as [Hc|Hc]; [apply N.eqb_neq in E9; contradiction|].
  replace (c <? 32) with false by (symmetry; apply N.ltb_ge; exact Hc).
  exact IH.
Qed.

Lemma printable_free (s : str) :
  Forall printable s ->
  containsNullByte s = false /\ includes LF s = false /\ includes CR s = false.
Proof.
  intros H. unfold containsNullByte, NUL, LF, CR.
  repeat split; apply includes_false; intros Hin;
    rewrite Forall_forall in H; destruct (H _ Hin) as [E|E];
    try discriminate E; vm_compute in E; apply E; reflexivity.
Qed.

Lemma trimmed_printable (s : str) (allowNewlines : bool) :
  containsControlCharacters s allowNewlines = false ->
  includes LF (trim s) = false -> includes CR (trim s) = false ->
  Forall printable (trim s).
Proof.
  intros Hc Hl Hr. apply control_characters_allowed in Hc.
  rewrite Forall_forall in Hc. apply Forall_forall. intros c Hin.
  destruct (Hc c (In_trim c s Hin)) as [H|(_ & [-> | ->])]; [exact H| |].
  - exfalso. apply includes_false in Hl. exact (Hl Hin).
  - exfalso. apply includes_false in Hr. exact (Hr Hin).
Qed.

(** X12.  What [validateItemText] accepts it returns trimmed: the result
    is not empty, at most 10,240 units long, made of tabs and of units of
    code 32 or more (so it holds no null byte, line feed or carriage
    return), and is itself accepted and returned unchanged. *)
Theorem validateItemText_returns_clean (s t : str) :
  validateItemText s = Ok t ->
  t = trim s
  /\ t <> []
  /\ strlen t <= MAX_ITEM_TEXT_LENGTH
  /\ Forall printable t
  /\ trim t = t
  /\ validateItemText t = Ok t.
Proof.
  unfold validateItemText at 1.
  destruct (containsNullByte s); [discriminate|].
  destruct (containsControlCharacters s true) eqn:Ec; [discriminate|].
  cbv zeta.
  destruct (includes LF (trim s) || includes CR (trim s)) eqn:En;
    [discriminate|].
  destruct (strlen (trim s) =? 0) eqn:Ee; [discriminate|].
  destruct (MAX_ITEM_TEXT_LENGTH <? strlen (trim s)) eqn:El; [discriminate|].
  intros H. injection H as <-.
  apply orb_false_iff in En. destruct En as (Hl & Hr).
  pose proof (trimmed_printable s true Ec Hl Hr) as Hp.
  destruct (printable_free _ Hp) as (Hn & _ & _).
  apply N.ltb_ge in El.
  assert (Hne : trim s <> []) by (intros E; rewrite E in Ee; discriminate).
  repeat split; auto using trim_twice.
  pose proof (validateItemText_accepts (trim s)) as A.
  rewrite trim_twice in A. apply A; auto.
  apply printable_passes, Hp.
Qed.

Lemma validateItemText_returns_clean_witness :
  trim padded_task = task /\ validateItemText task = Ok task.
Proof.
  destruct (validateItemText_returns_clean padded_task task eq_refl)
    as (H1 & _ & _ & _ & _ & H2).
  split; [symmetry; exact H1 | exact H2].
Defined.

(** X13.  What [validateColumnName] accepts is made of tabs and of units
    of code 32 or more, and is returned trimmed: the result is not empty,
    at most 200 units long, is itself accepted and returned unchanged, and
    is also accepted as an item text. *)
Theorem validateColumnName_returns_clean (s t : str) :
  validateColumnName s = Ok t ->
  t = trim s
  /\ t <> []
  /\ strlen t <= MAX_COLUMN_NAME_LENGTH
  /\ Forall printable t
  /\ Forall printable s
  /\ validateColumnName t = Ok t
  /\ validateItemText t = Ok t.
Proof.
  unfold validateColumnName at 1.
  destruct (containsNullByte s); [discriminate|].
  destruct (includes LF s || includes CR s) eqn:En; [discriminate|].
  destruct (containsControlCharacters s false) eqn:Ec; [discriminate|].
  cbv zeta.
  destruct (strlen (trim s) =? 0) eqn:Ee; [discriminate|].
  destruct (MAX_COLUMN_NAME_LENGTH <? strlen (trim s)) eqn:El; [discriminate|].
  intros H. injection H as <-.
  assert (Hs : Forall printable s).
  { apply control_characters_allowed in Ec. revert Ec. apply Forall_impl.
    intros c [H|(H & _)]; [exact H | discriminate H]. }
  assert (Hp : Forall printable (trim s)).
  { rewrite Forall_forall in Hs. apply Forall_forall. intros c Hin.
    apply Hs, In_trim, Hin. }
  destruct (printable_free _ Hp) as (Hn & Hl & Hr).
  apply N.ltb_ge in El.
  assert (Hne : trim s <> []) by (intros E; rewrite E in Ee; discriminate).
  repeat split; auto.
  - pose proof (validateColumnName_accepts (trim s)) as A.
    rewrite trim_twice in A. apply A; auto.
    apply printable_passes, Hp.
  - pose proof (validateItemText_accepts (trim s)) as A.
    rewrite trim_twice in A. apply A; auto.
    + apply printable_passes, Hp.
    + unfold MAX_COLUMN_NAME_LENGTH, MAX_ITEM_TEXT_LENGTH in *. lia.
Qed.

Lemma validateColumnName_returns_clean_witness :
  validateColumnName backlog = Ok backlog
  /\ validateItemText backlog = Ok backlog.
Proof.
  destruct (validateColumnName_returns_clean backlog backlog eq_refl)
    as (_ & _ & _ & _ & _ & H1 & H2).
  split; assumption.
Defined.

(** ** Writing is all or nothing *)


(** ** The tools change the board file and nothing else *)

Lemma changes_only_thrown {A} (h : Host) (target : result str) (fs : Files)
      (f : fault) :
  @changes_only A h target fs (Thrown f, fs).
Proof. left. intros q. reflexivity. Qed.

Lemma write_changes_only {A} (h : Host) (p : str) (board : Board) (a : A)
      (target : result str) (fs : Files) :
  target = Ok p ->
  changes_only h target fs
    (match writeKanbanFile h p board fs with
     | (Ok _, fs') => (Fine a, fs')
     | (Err e, fs') => (Thrown (Raised e), fs')
     end).
Proof.
  intros Ht. pose proof (tmp_differs p) as Hd. unfold writeKanbanFile.
  destruct (can_write h (p ++ tmp_suffix));
    [destruct (can_rename h (p ++ tmp_suffix) p)|];
    unfold changes_only; cbn [fst snd].
  - exists p. split; [exact Ht|]. split.
    + exists board. rewrite put_other by exact Hd. apply put_same.
    + split; [apply put_same|]. intros q H1 H2.
      rewrite !put_other by assumption. reflexivity.
  - right. split; [reflexivity|]. exists p. split; [exact Ht|].
    unfold try_unlink. split.
    + intros Hu. rewrite Hu. apply put_same.
    + intros q H. destruct (can_unlink h (p ++ tmp_suffix));
        rewrite ?put_other by assumption; reflexivity.
  - right. split; [reflexivity|]. exists p. split; [exact Ht|].
    unfold try_unlink. split.
    + intros Hu. rewrite Hu. apply put_same.
    + intros q H. destruct (can_unlink h (p ++ tmp_suffix));
        rewrite ?put_other by assumption; reflexivity.
Qed.

Lemma io_step_bind_lift {A B} (r : result A) (k : A -> IO B) (fs : Files) :
  io_step (bind (lift r) k) fs
  = match r with
    | Ok a => io_step (k a) fs
    | Err e => (Thrown (Raised e), fs)
    end.
Proof. unfold io_step, bind, lift. destruct r; reflexivity. Qed.

(** Read, change in memory, write, answer: the tail the tools share. *)
Lemma read_modify_write_changes_only {X R}
      (h : Host) (p : str) (op : Board -> result (Board * X))
      (k : Board * X -> R) (target : result str) (fs : Files) :
  target = Ok p ->
  changes_only h target fs
    (io_step (b <- readKanbanFile p ;;
              r <- lift (op b) ;;
              _ <- writeKanbanFile h p (fst r) ;;
              ret (k r)) fs).
Proof.
  intros Ht. unfold io_step, bind at 1, readKanbanFile.
  destruct (readFile fs p) as [content|]; [|apply changes_only_thrown].
  unfold bind at 1, lift.
  destruct (op _) as [r|e]; [|apply changes_only_thrown].
  unfold bind, ret.
  pose proof (write_changes_only h p (fst r) (k r) target fs Ht) as W.
  destruct (writeKanbanFile h p (fst r) fs) as [[[]|e] fs']; exact W.
Qed.

Ltac validation_step :=
  rewrite io_step_bind_lift;
  match goal with
  | |- changes_only _ _ _ (match ?r with Ok _ => _ | Err _ => _ end) =>
      let E := fresh "E" in
      destruct r eqn:E;
      [try (apply nonEmpty_inv in E; subst) | apply changes_only_thrown]
  end.

Ltac read_modify_write :=
  repeat validation_step;
  apply read_modify_write_changes_only; first [assumption | reflexivity].



Lemma write_then_finish {A} (h : Host) (p : str) (board : Board) (a : A)
      (target : result str) (fs : Files) :
  target = Ok p ->
  changes_only h target fs
    ((_ <~ io_step (writeKanbanFile h p board) ;; finish a) fs).
Proof.
  intros Ht. unfold andThen, io_step, finish.
  pose proof (write_changes_only h p board a target fs Ht) as W.
  destruct (writeKanbanFile h p board fs) as [[[]|e] fs']; exact W.
Qed.

Lemma write_then_ret {A} (h : Host) (p : str) (board : Board) (a : A)
      (target : result str) (fs : Files) :
  target = Ok p ->
  changes_only h target fs
    (io_step (_ <- writeKanbanFile h p board ;; ret a) fs).
Proof.
  intros Ht. unfold bind, io_step, ret.
  pose proof (write_changes_only h p board a target fs Ht) as W.
  destruct (writeKanbanFile h p board fs) as [[[]|e] fs']; exact W.
Qed.

(** Read, change in memory, write, answer, for the tools that throw
    messages of their own. *)
Lemma run_read_modify_write {X R}
      (h : Host) (p : str) (op : Board -> outcome (Board * X))
      (k : Board * X -> R) (target : result str) (fs : Files) :
  target = Ok p ->
  changes_only h target fs
    ((b <~ io_step (readKanbanFile p) ;;
      r <~ settle (op b) ;;
      _ <~ io_step (writeKanbanFile h p (fst r)) ;;
      finish (k r)) fs).
Proof.
  intros Ht. unfold andThen at 1, io_step at 1, readKanbanFile.
  destruct (readFile fs p) as [content|]; [|apply changes_only_thrown].
  cbn [of_result]. unfold andThen at 1, settle.
  destruct (op _) as [r|f]; [|apply changes_only_thrown].
  apply write_then_finish, Ht.
Qed.

Ltac run_validation_step :=
  rewrite andThen_pure_step;
  match goal with
  | |- context [match ?r with Ok _ => _ | Err _ => _ end] =>
      let E := fresh "E" in
      destruct r eqn:E;
      [try (apply nonEmpty_inv in E; subst)
      | first [apply changes_only_thrown | right; apply changes_only_thrown]]
  end.


Lemma mergeSources_files (h : Host) (vault : str) (sources : list str) :
  forall (target : Board) (fs : Files),
    snd (mergeSources h vault sources target fs) = fs.
Proof.
  induction sources as [|s sources IH]; intros target fs; [reflexivity|].
  cbn [mergeSources]. unfold bind at 1, lift.
  destruct (validateVaultPath h vault s) as [sp|e]; [|reflexivity].
  unfold bind, readKanbanFile.
  destruct (readFile fs sp) as [content|]; [apply IH | reflexivity].
Qed.



(** ** The settings block is one line *)

Lemma hex_digit_not_LF (n : N) : hex_digit n <> LF.
Proof.
  unfold hex_digit, LF. destruct (n <? 10); lia.
Qed.

Lemma unicode_escape_no_LF (c : N) : ~ In LF (unicode_escape c).
Proof.
  unfold unicode_escape. cbn [In].
  intros [E|[E|[E|[E|[E|[E|[]]]]]]]; try discriminate E;
    exact (hex_digit_not_LF _ E).
Qed.

Lemma json_escape_no_LF_upto (n : nat) :
  forall s, (List.length s <= n)%nat -> ~ In LF (json_escape s).
Proof.
  induction n as [|n IH]; intros [|c s] Hn; cbn [List.length] in Hn;
    try lia; try (intros []).
  assert (Hs : ~ In LF (json_escape s)) by (apply IH; lia).
  assert (Hu : forall r, ~ In LF r -> ~ In LF (unicode_escape c ++ r)).
  { intros r Hr H. apply in_app_or in H. destruct H as [H|H];
      [exact (unicode_escape_no_LF c H) | exact (Hr H)]. }
  assert (H2 : forall a b r, a <> LF -> b <> LF -> ~ In LF r ->
                             ~ In LF (a :: b :: r)).
  { intros a b r Ha Hb Hr [E|[E|H]]; [exact (Ha E) | exact (Hb E) | exact (Hr H)]. }
  cbn [json_escape].
  destruct (c =? 34); [apply H2; [discriminate..|exact Hs]|].
  destruct (c =? 92); [apply H2; [discriminate..|exact Hs]|].
  destruct (c =? 8); [apply H2; [discriminate..|exact Hs]|].
  destruct (c =? 12); [apply H2; [discriminate..|exact Hs]|].
  destruct (c =? 10) eqn:E10; [apply H2; [discriminate..|exact Hs]|].
  destruct (c =? 13); [apply H2; [discriminate..|exact Hs]|].
  destruct (c =? 9); [apply H2; [discriminate..|exact Hs]|].
  apply N.eqb_neq in E10.
  destruct (c <? 32); [apply Hu, Hs|].
  destruct (is_high_surrogate c) eqn:Eh.
  - destruct s as [|d s]; [apply unicode_escape_no_LF|].
    destruct (is_low_surrogate d) eqn:El; [|apply Hu, Hs].
    apply H2; [exact E10| |apply IH; cbn [List.length] in Hn; lia].
    intros ->. discriminate El.
  - destruct (is_low_surrogate c); [apply Hu, Hs|].
    intros [E|H]; [exact (E10 E) | exact (Hs H)].
Qed.

Lemma json_string_no_LF (s : str) : ~ In LF (json_string s).
Proof.
  unfold json_string. intros [E|H]; [discriminate E|].
  apply in_app_or in H. destruct H as [H|[E|[]]]; [|discriminate E].
  exact (json_escape_no_LF_upto (List.length s) s (le_n _) H).
Qed.

Lemma json_members_no_LF (o : obj) : ~ In LF (json_members o).
Proof.
  induction o as [|[k v] o IH]; [intros []|].
  assert (P : forall r, ~ In LF r -> ~ In LF (json_string k ++ 58 :: r)).
  { intros r Hr H. apply in_app_or in H.
    destruct H as [H|[E|H]];
      [exact (json_string_no_LF k H) | discriminate E | exact (Hr H)]. }
  cbn [json_members]. destruct o as [|kv o].
  - apply P, json_string_no_LF.
  - apply P. intros H. apply in_app_or in H.
    destruct H as [H|[E|H]];
      [exact (json_string_no_LF v H) | discriminate E | exact (IH H)].
Qed.

(** [JSON.stringify] writes an object of strings on one line. *)
Lemma JSON_stringify_no_LF (o : obj) : includes LF (JSON_stringify o) = false.
Proof.
  apply includes_false. unfold JSON_stringify. intros [E|H]; [discriminate E|].
  apply in_app_or in H. destruct H as [H|[E|[]]]; [|discriminate E].
  exact (json_members_no_LF o H).
Qed.

(** ** Reading back what the serializer writes, for every board the
       parser can return *)

Lemma terminator_free_no_LF (t : str) :
  existsb is_line_terminator t = false -> includes LF t = false.
Proof.
  intros H. apply includes_false. intros Hin.
  assert (E : existsb is_line_terminator t = true);
    [|rewrite E in H; discriminate].
  apply existsb_exists. exists LF. split; [exact Hin | reflexivity].
Qed.

Lemma trim_terminator_free (g : str) :
  existsb is_line_terminator g = false ->
  existsb is_line_terminator (trim g) = false.
Proof.
  intros H. destruct (existsb is_line_terminator (trim g)) eqn:E;
    [|reflexivity].
  apply existsb_exists in E. destruct E as (c & Hin & Hc).
  assert (E : existsb is_line_terminator g = true);
    [|rewrite E in H; discriminate].
  apply existsb_exists. exists c. split; [apply In_trim, Hin | exact Hc].
Qed.

Lemma itemMatch_empty (b : bool) :
  itemMatch (if b then checked_prefix else unchecked_prefix)
  = Some (if b then 120 else 32, []).
Proof. destruct b; reflexivity. Qed.

Lemma itemMatch_shaped (i : Item) :
  shaped_item i ->
  itemMatch (item_line i) = Some (if completed i then 120 else 32, text i).
Proof.
  intros (Ht & Hl). unfold item_line.
  destruct (text i) as [|c t] eqn:E.
  - rewrite app_nil_r. apply itemMatch_empty.
  - destruct (trim_fixed_head (c :: t) Ht) as (c' & t' & Et & Hc);
      [discriminate|].
    injection Et as <- <-. apply itemMatch_written; assumption.
Qed.

Lemma scan_shaped_items (its : list Item) :
  Forall shaped_item its ->
  forall rest cols c0,
    scan_lines (List.map item_line its ++ rest) cols (Some c0)
    = scan_lines rest cols
        (Some (mkColumn (name c0) (items c0 ++ List.map plain_item its))).
Proof.
  induction 1 as [|i its Hi _ IH]; intros rest cols c0.
  - cbn [List.map app]. rewrite app_nil_r. destruct c0; reflexivity.
  - cbn [List.map app].
    rewrite (scan_lines_item _ _ _ _ _ _ (headerMatch_item_line i)
               (itemMatch_shaped i Hi)).
    destruct Hi as (Ht & _). rewrite Ht, IH. cbn [name items].
    rewrite <- app_assoc. unfold plain_item at 2. cbn [app].
    destruct (completed i); reflexivity.
Qed.

Lemma scan_shaped_column (c : Column) :
  shaped_column c ->
  forall rest cols cur,
    scan_lines (column_lines c ++ rest) cols cur
    = scan_lines rest (finalize (cols, cur)) (Some (plain_column c)).
Proof.
  intros ((Ht & Hlt) & Hne & Hi) rest cols cur.
  destruct (trim_fixed_head _ Ht Hne) as (x & n & En & Hx).
  assert (Hh : headerMatch (header_prefix ++ name c) = Some (name c)).
  { rewrite En in Hlt |- *. apply headerMatch_written; assumption. }
  unfold column_lines. cbn [app].
  rewrite (scan_lines_header _ _ _ _ _ Hh). rewrite Ht.
  rewrite scan_lines_blank.
  rewrite <- app_assoc. rewrite (scan_shaped_items _ Hi).
  cbn [app name items]. rewrite scan_lines_blank. reflexivity.
Qed.

Lemma scan_shaped_columns (s : BoardSettings) (cs : list Column) :
  Forall shaped_column cs ->
  forall cols cur,
    finalize (scan_lines (flat_map column_lines cs ++ settings_block s)
                         cols cur)
    = finalize (cols, cur) ++ List.map plain_column cs.
Proof.
  induction 1 as [|c cs Hc _ IH]; intros cols cur.
  - cbn [flat_map app List.map]. rewrite app_nil_r.
    unfold settings_block. cbn [scan_lines].
    change (headerMatch settings_open) with (@None str).
    change (itemMatch settings_open) with (@None (N * str)).
    change (is_sentinel_line settings_open) with true. reflexivity.
  - cbn [flat_map List.map]. rewrite <- app_assoc.
    rewrite (scan_shaped_column c Hc). rewrite IH.
    unfold finalize at 1. cbn [fst snd]. rewrite <- app_assoc. reflexivity.
Qed.

Lemma shaped_lines_no_LF (cs : list Column) :
  Forall shaped_column cs ->
  Forall (fun x => includes LF x = false) (flat_map column_lines cs).
Proof.
  induction 1 as [|c cs ((_ & Hn) & _ & Hi) _ IH]; cbn [flat_map];
    [constructor|].
  apply Forall_app. split; [|exact IH].
  unfold column_lines. constructor; [|constructor; [reflexivity|]].
  - rewrite includes_app, (terminator_free_no_LF _ Hn). reflexivity.
  - apply Forall_app. split; [|repeat constructor].
    apply Forall_map. revert Hi. apply Forall_impl. intros i (_ & Hl).
    unfold item_line. rewrite includes_app, (terminator_free_no_LF _ Hl).
    destruct (completed i); reflexivity.
Qed.

Lemma frontmatter_lines_plugin (s : BoardSettings) (v : str) :
  obj_get kanban_plugin s = Some v ->
  frontmatter_lines s = frontmatter_lines [(kanban_plugin, v)].
Proof.
  intros H. unfold frontmatter_lines. rewrite H. reflexivity.
Qed.

Lemma parse_serialized_shaped (s : BoardSettings) (v : str)
      (cs : list Column) (p : str) :
  obj_get kanban_plugin s = Some v ->
  v = basic \/ v = advanced ->
  Forall shaped_column cs ->
  parseKanban (serializeKanban (mkBoard p s cs))
  = mkBoard [] [(kanban_plugin, v)] (List.map plain_column cs).
Proof.
  intros Hs Hv Hcs. unfold serializeKanban. cbn [settings columns].
  rewrite (frontmatter_lines_plugin s v Hs), serialize_shape.
  set (rest := flat_map column_lines cs ++ settings_block s).
  assert (Hrest : flat_map (cons LF) rest = LF :: join_lines rest).
  { unfold rest. destruct (flat_map column_lines cs); reflexivity. }
  assert (Hlines : split_lines (LF :: join_lines rest) = [] :: rest).
  { unfold split_lines. cbn [split_on]. change (LF =? LF) with true. cbv iota.
    f_equal. unfold join_lines.
    assert (Hall : Forall (fun x => includes LF x = false) rest).
    { unfold rest. apply Forall_app. split; [apply shaped_lines_no_LF, Hcs|].
      unfold settings_block.
      repeat (constructor; [first [apply JSON_stringify_no_LF | reflexivity]|]).
      constructor. }
    destruct rest as [|l ls] eqn:E.
    - unfold rest in E. destruct (flat_map column_lines cs); discriminate.
    - apply split_on_join, Hall. }
  unfold parseKanban.
  assert (Hm : matter (delimiter ++ LF :: LF :: plugin_prefix ++ v ++ LF :: LF
                         :: delimiter ++ LF :: flat_map (cons LF) rest)
               = ([(kanban_plugin, v)], flat_map (cons LF) rest)).
  { destruct Hv as [-> | ->]; [apply matter_basic | apply matter_advanced]. }
  rewrite Hm. rewrite Hrest, Hlines. rewrite scan_lines_blank.
  pose proof (scan_shaped_columns s cs Hcs [] None) as Hscan.
  fold rest in Hscan.
  destruct (scan_lines rest [] None) as [cols cur].
  unfold finalize in Hscan. cbn [fst snd app] in Hscan.
  rewrite Hscan. reflexivity.
Qed.

Lemma plain_column_twice (cs : list Column) :
  List.map plain_column (List.map plain_column cs) = List.map plain_column cs.
Proof.
  rewrite map_map. apply map_ext. intros [n its]. unfold plain_column.
  cbn [name items]. f_equal. rewrite map_map. reflexivity.
Qed.

Lemma shaped_plain (cs : list Column) :
  Forall shaped_column cs -> Forall shaped_column (List.map plain_column cs).
Proof.
  intros H. apply Forall_map. revert H. apply Forall_impl.
  intros [n its] (Hn & Hne & Hi). unfold shaped_column, plain_column in *.
  cbn [name items] in *. split; [exact Hn | split; [exact Hne|]].
  apply Forall_map. revert Hi. apply Forall_impl. intros i Hi. exact Hi.
Qed.

(** X18.  Whatever the settings of a board, when its plugin is [basic] or
    [advanced], its column names are trimmed, not empty and free of line
    terminators, and its item texts are trimmed and free of line
    terminators (they may be empty), parsing what the serializer writes
    gives the columns back, without the metadata of the items, and
    settings that hold the plugin key alone: the settings block is written
    but never read.  A second round trip changes nothing more. *)
Theorem serializeKanban_then_parseKanban (b : Board) (v : str) :
  obj_get kanban_plugin (settings b) = Some v ->
  v = basic \/ v = advanced ->
  Forall shaped_column (columns b) ->
  parseKanban (serializeKanban b)
  = mkBoard [] [(kanban_plugin, v)] (List.map plain_column (columns b))
  /\ parseKanban (serializeKanban (parseKanban (serializeKanban b)))
     = parseKanban (serializeKanban b).
Proof.
  intros Hs Hv Hcs. destruct b as [p s cs]. cbn [settings columns] in *.
  rewrite (parse_serialized_shaped s v cs p Hs Hv Hcs).
  split; [reflexivity|].
  assert (Hp : obj_get kanban_plugin [(kanban_plugin, v)] = Some v)
    by reflexivity.
  rewrite (parse_serialized_shaped _ v _ [] Hp Hv (shaped_plain cs Hcs)).
  rewrite plain_column_twice. reflexivity.
Qed.

Lemma serializeKanban_then_parseKanban_witness :
  parseKanban (serializeKanban wide_board)
  = mkBoard [] [(kanban_plugin, basic)]
            [ mkColumn todo [mkItem [] false None; mkItem task1 true None] ].
Proof.
  refine (proj1 (serializeKanban_then_parseKanban wide_board basic
                   eq_refl (or_introl eq_refl) _)).
  repeat constructor; discriminate.
Defined.

(** ** What the parser returns *)

Lemma ws_plus_then_some {A} (k : str -> option A) (P : A -> Prop) :
  (forall s r, k s = Some r -> P r) ->
  forall s r, ws_plus_then k s = Some r -> P r.
Proof.
  intros Hk. induction s as [|c s IH]; intros r; cbn [ws_plus_then];
    [discriminate|].
  destruct (is_space c); [|discriminate].
  destruct (ws_plus_then k s) as [r'|] eqn:E.
  - intros H. injection H as <-. apply IH. reflexivity.
  - apply Hk.
Qed.

Lemma dot_star_end_free (s g : str) :
  dot_star_end s = Some g -> existsb is_line_terminator g = false.
Proof.
  unfold dot_star_end. destruct (existsb is_line_terminator s) eqn:E;
    [discriminate|].
  intros H. injection H as <-. exact E.
Qed.

Lemma headerMatch_free (line g : str) :
  headerMatch line = Some g -> existsb is_line_terminator g = false.
Proof.
  unfold headerMatch.
  assert (K : forall s r, dot_plus_end s = Some r ->
                          existsb is_line_terminator r = false).
  { intros [|c s] r; [discriminate|]. apply dot_star_end_free. }
  repeat (match goal with
          | |- context [match ?x with _ => _ end] => destruct x
          end; try discriminate).
  apply (ws_plus_then_some _ _ K).
Qed.

Lemma itemMatch_free (line g : str) (box : N) :
  itemMatch line = Some (box, g) -> existsb is_line_terminator g = false.
Proof.
  unfold itemMatch. intros H.
  assert (K2 : forall c s (r : N * str),
             option_map (pair c) (dot_star_end s) = Some r ->
             existsb is_line_terminator (snd r) = false).
  { intros c s r. destruct (dot_star_end s) as [t|] eqn:E; [|discriminate].
    intros Hr. injection Hr as <-. apply (dot_star_end_free _ _ E). }
  assert (K1 : forall s (r : N * str),
             match s with
             | 91 :: c :: 93 :: s' =>
                 if (c =? 32) || (c =? 120)
                 then ws_plus_then
                        (fun t => option_map (pair c) (dot_star_end t)) s'
                 else None
             | _ => None
             end = Some r ->
             existsb is_line_terminator (snd r) = false).
  { intros s r.
    repeat (match goal with
            | |- context [match ?x with _ => _ end] => destruct x
            end; try discriminate).
    all: apply (ws_plus_then_some _ _ (K2 _)). }
  revert H.
  repeat (match goal with
          | |- context [match ?x with _ => _ end] => destruct x
          end; try discriminate).
  intros H.
  apply (ws_plus_then_some _ (fun r => existsb is_line_terminator (snd r) = false)
           K1) in H.
  exact H.
Qed.

Lemma shaped_trim (g : str) :
  existsb is_line_terminator g = false -> shaped_text (trim g).
Proof.
  intros H. split; [apply trim_twice | apply trim_terminator_free, H].
Qed.

Lemma scan_lines_parsed (lines : list str) :
  forall cols cur,
    Forall parsed_column cols ->
    (forall c, cur = Some c -> parsed_column c) ->
    Forall parsed_column (finalize (scan_lines lines cols cur)).
Proof.
  induction lines as [|line rest IH]; intros cols cur Hcols Hcur;
    cbn [scan_lines].
  - unfold finalize. cbn [fst snd]. destruct cur as [c|]; [|exact Hcols].
    apply Forall_app. split; [exact Hcols|]. constructor; [|constructor].
    apply Hcur. reflexivity.
  - destruct (headerMatch line) as [g|] eqn:Eh.
    + apply IH.
      * destruct cur as [c|]; [|exact Hcols].
        apply Forall_app. split; [exact Hcols|]. constructor; [|constructor].
        apply Hcur. reflexivity.
      * intros c E. injection E as <-. split; [|constructor].
        apply shaped_trim, (headerMatch_free _ _ Eh).
    + destruct (itemMatch line) as [[box g]|] eqn:Ei.
      * destruct cur as [c|].
        -- apply IH; [exact Hcols|]. intros c' E. injection E as <-.
           destruct (Hcur c eq_refl) as (Hn & Hi).
           split; [exact Hn|]. cbn [items]. apply Forall_app.
           split; [exact Hi|]. constructor; [|constructor].
           split; [|reflexivity]. apply shaped_trim, (itemMatch_free _ _ _ Ei).
        -- destruct (is_sentinel_line line); [exact Hcols|].
           apply IH; assumption.
      * destruct (is_sentinel_line line); [|apply IH; assumption].
        assert (F : Forall parsed_column (finalize (cols, cur)));
          [|destruct cur; exact F].
        unfold finalize. cbn [fst snd]. destruct cur as [c|]; [|exact Hcols].
        apply Forall_app. split; [exact Hcols|]. constructor; [|constructor].
        apply Hcur. reflexivity.
Qed.

Lemma obj_get_set (k k' v : str) (o : obj) :
  obj_get k (obj_set k' v o)
  = if str_eqb k k' then Some v else obj_get k o.
Proof.
  induction o as [|[k2 v2] o IH]; cbn [obj_set obj_get]; [reflexivity|].
  destruct (str_eqb k' k2) eqn:E2; cbn [obj_get].
  - apply str_eqb_eq in E2. subst k2.
    destruct (str_eqb k k'); reflexivity.
  - rewrite IH. destruct (str_eqb k k2) eqn:E; [|reflexivity].
    apply str_eqb_eq in E. subst k2.
    destruct (str_eqb k k') eqn:E'; [|reflexivity].
    apply str_eqb_eq in E'. subst k'. rewrite str_eqb_refl in E2.
    discriminate.
Qed.

Lemma obj_spread_keeps_key (k : str) (b : obj) :
  forall a, obj_get k a <> None -> obj_get k (obj_spread a b) <> None.
Proof.
  unfold obj_spread. induction b as [|[k' v'] b IH]; intros a H;
    cbn [fold_left]; [exact H|].
  apply IH. cbn [fst snd]. rewrite obj_get_set.
  destruct (str_eqb k k'); [discriminate | exact H].
Qed.

(** X19.  A board that [parseKanban] returns has an empty path,
    settings that hold the plugin key, and columns whose names and item
    texts are trimmed and free of line terminators, the items without
    metadata.  (Nothing is said of a document on which the reader of the
    metadata block throws: [parseKanban] catches nothing and returns no
    board then.) *)
Theorem parseKanban_shape (content : str) (b : Board) :
  parseKanban content = b ->
  path b = []
  /\ obj_get kanban_plugin (settings b) <> None
  /\ Forall parsed_column (columns b).
Proof.
  intros <-.
  unfold parseKanban. destruct (matter content) as [frontmatter bodyContent].
  pose proof (scan_lines_parsed (split_lines bodyContent) [] None
                (Forall_nil _)) as H.
  destruct (scan_lines (split_lines bodyContent) [] None) as [cols cur].
  cbn [path settings columns]. split; [reflexivity|]. split.
  - apply obj_spread_keeps_key. cbn [obj_get].
    rewrite str_eqb_refl. discriminate.
  - apply H. discriminate.
Qed.

Lemma parseKanban_shape_witness :
  path scenario_board = []
  /\ obj_get kanban_plugin (settings scenario_board) <> None
  /\ Forall parsed_column (columns scenario_board).
Proof.
  apply (parseKanban_shape scenario_doc scenario_board).
  vm_compute. reflexivity.
Defined.

Lemma parsed_columns_shaped (cs : list Column) :
  Forall parsed_column cs ->
  Forall (fun c => name c <> []) cs ->
  Forall shaped_column cs /\ List.map plain_column cs = cs.
Proof.
  intros Hp Hn. split.
  - rewrite Forall_forall in *. intros c Hc.
    destruct (Hp c Hc) as (H1 & H2). split; [exact H1|].
    split; [exact (Hn c Hc)|]. revert H2. apply Forall_impl.
    intros i (Hi & _). exact Hi.
  - apply plain_columns_id. revert Hp. apply Forall_impl.
    intros c (_ & H). revert H. apply Forall_impl. intros i (_ & Hi).
    exact Hi.
Qed.

(** X20.  Rewriting a document changes nothing in how it is read, as far
    as its columns go: when the plugin read from a document is [basic] or
    [advanced] and no column read from it has an empty name, serializing
    the parsed board and parsing again gives the same columns, and settings
    that hold the plugin key alone. *)
Theorem parseKanban_stable (content v : str) :
  obj_get kanban_plugin (settings (parseKanban content)) = Some v ->
  v = basic \/ v = advanced ->
  Forall (fun c => name c <> []) (columns (parseKanban content)) ->
  columns (parseKanban (serializeKanban (parseKanban content)))
  = columns (parseKanban content)
  /\ settings (parseKanban (serializeKanban (parseKanban content)))
     = [(kanban_plugin, v)].
Proof.
  intros Hs Hv Hn.
  assert (Hp : Forall parsed_column (columns (parseKanban content))).
  { unfold parseKanban. destruct (matter content) as [frontmatter bodyContent].
    pose proof (scan_lines_parsed (split_lines bodyContent) [] None
                  (Forall_nil _)) as H.
    destruct (scan_lines (split_lines bodyContent) [] None) as [cols cur].
    apply H. discriminate. }
  destruct (parsed_columns_shaped _ Hp Hn) as (Hsh & Hid).
  destruct (parseKanban content) as [p s cs]. cbn [settings columns] in *.
  rewrite (parse_serialized_shaped s v cs p Hs Hv Hsh). cbn [settings columns].
  split; [exact Hid | reflexivity].
Qed.

Lemma parseKanban_stable_witness :
  columns (parseKanban (serializeKanban (parseKanban scenario_doc)))
  = columns (parseKanban scenario_doc).
Proof.
  refine (proj1 (parseKanban_stable scenario_doc basic _
                   (or_introl eq_refl) _)).
  - vm_compute. reflexivity.
  - vm_compute. repeat constructor; discriminate.
Defined.

(** ** Text that survives the encoding *)

Lemma toWellFormed_cons (c : N) (s' : str) :
  toWellFormed (c :: s')
  = if is_high_surrogate c then
      match s' with
      | d :: s'' =>
          if is_low_surrogate d then c :: d :: toWellFormed s''
          else 65533 :: toWellFormed s'
      | [] => [65533]
      end
    else if is_low_surrogate c then 65533 :: toWellFormed s'
    else c :: toWellFormed s'.
Proof. reflexivity. Qed.

Lemma not_surrogate (c : N) :
  is_surrogate c = false ->
  is_high_surrogate c = false /\ is_low_surrogate c = false.
Proof. apply orb_false_iff. Qed.

Lemma toWellFormed_plain (c : N) (s : str) :
  is_surrogate c = false -> toWellFormed (c :: s) = c :: toWellFormed s.
Proof.
  intros H. destruct (not_surrogate c H) as (Hh & Hl).
  rewrite toWellFormed_cons, Hh, Hl. reflexivity.
Qed.

Lemma length_toWellFormed_upto (n : nat) :
  forall s, (List.length s <= n)%nat ->
            List.length (toWellFormed s) = List.length s.
Proof.
  induction n as [|n IH]; intros [|c s] Hn; cbn [List.length] in Hn;
    try lia; try reflexivity.
  rewrite toWellFormed_cons.
  destruct (is_high_surrogate c).
  - destruct s as [|d s]; [reflexivity|].
    destruct (is_low_surrogate d); cbn [List.length] in *.
    + rewrite IH by lia. reflexivity.
    + rewrite IH by (cbn [List.length]; lia). reflexivity.
  - destruct (is_low_surrogate c); cbn [List.length]; rewrite IH by lia;
      reflexivity.
Qed.

Lemma length_toWellFormed (s : str) :
  List.length (toWellFormed s) = List.length s.
Proof. apply (length_toWellFormed_upto (List.length s)). lia. Qed.

Lemma toWellFormed_split_upto (n : nat) :
  forall a, (List.length a <= n)%nat ->
  forall c b, is_surrogate c = false ->
    toWellFormed (a ++ c :: b) = toWellFormed a ++ c :: toWellFormed b.
Proof.
  induction n as [|n IH]; intros [|x a] Hn c b Hc; cbn [List.length] in Hn;
    try lia; try (apply toWellFormed_plain; exact Hc).
  destruct (not_surrogate c Hc) as (Hh & Hl).
  cbn [app]. rewrite (toWellFormed_cons x (a ++ c :: b)), (toWellFormed_cons x a).
  destruct (is_high_surrogate x).
  - destruct a as [|d a]; cbn [app].
    + rewrite Hl. rewrite (toWellFormed_plain c b Hc). reflexivity.
    + destruct (is_low_surrogate d).
      * rewrite (IH a) by (cbn [List.length] in Hn; lia || exact Hc);
          try exact Hc. reflexivity.
      * change (d :: a ++ c :: b) with ((d :: a) ++ c :: b).
        rewrite (IH (d :: a)) by (lia || exact Hc); try exact Hc.
        reflexivity.
  - destruct (is_low_surrogate x); rewrite (IH a) by (lia || exact Hc);
      try exact Hc; reflexivity.
Qed.

(** The encoding works on each side of a unit that is no surrogate. *)
Lemma toWellFormed_split (a : str) (c : N) (b : str) :
  is_surrogate c = false ->
  toWellFormed (a ++ c :: b) = toWellFormed a ++ c :: toWellFormed b.
Proof. apply (toWellFormed_split_upto (List.length a)). lia. Qed.

Lemma replacement_plain : is_surrogate 65533 = false.
Proof. reflexivity. Qed.

Lemma high_not_low (c : N) :
  is_high_surrogate c = true -> is_low_surrogate c = false.
Proof.
  unfold is_high_surrogate, is_low_surrogate. intros H.
  apply andb_true_iff in H. destruct H as (_ & H). apply N.leb_le in H.
  apply andb_false_iff. left. apply N.leb_gt. lia.
Qed.

Lemma toWellFormed_twice_upto (n : nat) :
  forall s, (List.length s <= n)%nat ->
            toWellFormed (toWellFormed s) = toWellFormed s.
Proof.
  induction n as [|n IH]; intros [|c s] Hn; cbn [List.length] in Hn;
    try lia; try reflexivity.
  rewrite (toWellFormed_cons c s).
  destruct (is_high_surrogate c) eqn:Hh.
  - destruct s as [|d s]; [reflexivity|].
    destruct (is_low_surrogate d) eqn:Hl.
    + rewrite toWellFormed_cons, Hh, Hl. rewrite IH; [reflexivity|].
      cbn [List.length] in Hn. lia.
    + rewrite (toWellFormed_plain 65533 _ replacement_plain).
      rewrite IH by lia. reflexivity.
  - destruct (is_low_surrogate c) eqn:Hl.
    + rewrite (toWellFormed_plain 65533 _ replacement_plain).
      rewrite IH by lia. reflexivity.
    + rewrite toWellFormed_cons, Hh, Hl, IH by lia. reflexivity.
Qed.

(** What has been decoded is well formed. *)
Lemma toWellFormed_well_formed (s : str) : well_formed (toWellFormed s).
Proof. apply (toWellFormed_twice_upto (List.length s)). lia. Qed.

Lemma readFile_well_formed (fs : Files) (p content : str) :
  readFile fs p = Some content -> well_formed content.
Proof.
  unfold readFile. destruct (fs p) as [raw|]; [|discriminate].
  intros H. injection H as <-. apply toWellFormed_well_formed.
Qed.

Lemma same_length_app {A} (a a' b b' : list A) :
  List.length a = List.length a' -> a ++ b = a' ++ b' -> a = a' /\ b = b'.
Proof.
  revert a'; induction a as [|x a IH]; intros [|y a'] Hl H;
    cbn [List.length] in Hl; try discriminate; [auto|].
  cbn [app] in H. injection H as -> H.
  destruct (IH a') as (-> & ->); [lia | exact H | auto].
Qed.

(** A well-formed string cut at a unit that is no surrogate gives two
    well-formed strings. *)
Lemma well_formed_cut (a : str) (c : N) (b : str) :
  is_surrogate c = false ->
  well_formed (a ++ c :: b) -> well_formed a /\ well_formed b.
Proof.
  intros Hc H. unfold well_formed in *.
  rewrite (toWellFormed_split a c b Hc) in H.
  destruct (same_length_app _ _ _ _ (length_toWellFormed a) H) as (Ha & Hb).
  injection Hb as Hb. auto.
Qed.

Lemma well_formed_tail (c : N) (s : str) :
  is_surrogate c = false -> well_formed (c :: s) -> well_formed s.
Proof. intros Hc H. apply (well_formed_cut [] c s Hc H). Qed.

Lemma well_formed_cons (c : N) (s : str) :
  is_surrogate c = false -> well_formed s -> well_formed (c :: s).
Proof.
  intros Hc H. unfold well_formed in *.
  rewrite (toWellFormed_plain c s Hc), H. reflexivity.
Qed.

Lemma well_formed_glue_upto (n : nat) :
  forall a, (List.length a <= n)%nat -> well_formed a ->
  forall b, toWellFormed (a ++ b) = a ++ toWellFormed b.
Proof.
  induction n as [|n IH]; intros [|x a] Hn Ha b; cbn [List.length] in Hn;
    try lia; try reflexivity.
  unfold well_formed in Ha. rewrite toWellFormed_cons in Ha.
  cbn [app]. rewrite toWellFormed_cons.
  destruct (is_high_surrogate x) eqn:Hh.
  - destruct a as [|d a].
    + exfalso. injection Ha as Ha. subst x. discriminate Hh.
    + cbn [app]. destruct (is_low_surrogate d) eqn:Hl.
      * injection Ha as Ha. rewrite (IH a); [reflexivity | | exact Ha].
        cbn [List.length] in Hn. lia.
      * exfalso. injection Ha as Ha _. subst x. discriminate Hh.
  - destruct (is_low_surrogate x) eqn:Hl.
    + exfalso. injection Ha as Ha _. subst x. discriminate Hl.
    + injection Ha as Ha. rewrite (IH a); [reflexivity | lia | exact Ha].
Qed.

Lemma well_formed_app (a b : str) :
  well_formed a -> well_formed b -> well_formed (a ++ b).
Proof.
  intros Ha Hb. unfold well_formed.
  rewrite (well_formed_glue_upto (List.length a) a (le_n _) Ha b), Hb.
  reflexivity.
Qed.

Lemma well_formed_nil : well_formed [].
Proof. reflexivity. Qed.

Lemma well_formed_join (lines : list str) :
  Forall well_formed lines -> well_formed (join_lines lines).
Proof.
  unfold join_lines, join_with. intros [|l ls Hl Hls]; [reflexivity|].
  apply well_formed_app; [exact Hl|].
  induction Hls as [|x xs Hx _ IH]; cbn [flat_map]; [reflexivity|].
  apply well_formed_cons; [reflexivity|]. apply well_formed_app; assumption.
Qed.

(** *** What the serializer writes *)

Lemma hex_digit_plain (n : N) : is_surrogate (hex_digit (n mod 16)) = false.
Proof.
  pose proof (N.mod_lt n 16) as H. unfold hex_digit.
  unfold is_surrogate, is_high_surrogate, is_low_surrogate.
  assert (L : forall x, x < 128 -> (55296 <=? x) = false /\ (56320 <=? x) = false).
  { intros x Hx. split; apply N.leb_gt; lia. }
  destruct (n mod 16 <? 10);
    [destruct (L (48 + n mod 16)) as (-> & ->)
    |destruct (L (87 + n mod 16)) as (-> & ->)];
    try reflexivity; lia.
Qed.

Lemma unicode_escape_glue (c : N) (r : str) :
  toWellFormed (unicode_escape c ++ r) = unicode_escape c ++ toWellFormed r.
Proof.
  unfold unicode_escape. cbn [app].
  rewrite !toWellFormed_plain; try reflexivity; apply hex_digit_plain.
Qed.

Lemma json_escape_glue_upto (n : nat) :
  forall s, (List.length s <= n)%nat ->
  forall r, toWellFormed (json_escape s ++ r) = json_escape s ++ toWellFormed r.
Proof.
  induction n as [|n IH]; intros [|c s] Hn r; cbn [List.length] in Hn;
    try lia; try reflexivity.
  assert (Hs : toWellFormed (json_escape s ++ r)
               = json_escape s ++ toWellFormed r) by (apply IH; lia).
  assert (H2 : forall a b, is_surrogate a = false -> is_surrogate b = false ->
                             toWellFormed ((a :: b :: json_escape s) ++ r)
                             = (a :: b :: json_escape s) ++ toWellFormed r).
  { intros a b Ha Hb. cbn [app].
    rewrite (toWellFormed_plain a _ Ha), (toWellFormed_plain b _ Hb), Hs.
    reflexivity. }
  assert (Hu : toWellFormed ((unicode_escape c ++ json_escape s) ++ r)
               = (unicode_escape c ++ json_escape s) ++ toWellFormed r).
  { rewrite <- !app_assoc, unicode_escape_glue, Hs. reflexivity. }
  cbn [json_escape].
  destruct (c =? 34); [apply H2; reflexivity|].
  destruct (c =? 92); [apply H2; reflexivity|].
  destruct (c =? 8); [apply H2; reflexivity|].
  destruct (c =? 12); [apply H2; reflexivity|].
  destruct (c =? 10); [apply H2; reflexivity|].
  destruct (c =? 13); [apply H2; reflexivity|].
  destruct (c =? 9); [apply H2; reflexivity|].
  destruct (c <? 32); [exact Hu|].
  destruct (is_high_surrogate c) eqn:Hh.
  - destruct s as [|d s]; [rewrite unicode_escape_glue; reflexivity|].
    destruct (is_low_surrogate d) eqn:Hl; [|exact Hu].
    cbn [app]. rewrite toWellFormed_cons, Hh, Hl.
    rewrite (IH s) by (cbn [List.length] in Hn; lia). reflexivity.
  - destruct (is_low_surrogate c) eqn:Hl; [exact Hu|].
    cbn [app]. rewrite toWellFormed_cons, Hh, Hl, Hs. reflexivity.
Qed.

Lemma json_escape_glue (s r : str) :
  toWellFormed (json_escape s ++ r) = json_escape s ++ toWellFormed r.
Proof. apply (json_escape_glue_upto (List.length s)). lia. Qed.

Lemma json_string_glue (s r : str) :
  toWellFormed (json_string s ++ r) = json_string s ++ toWellFormed r.
Proof.
  unfold json_string. cbn [app]. rewrite toWellFormed_plain by reflexivity.
  rewrite <- app_assoc, json_escape_glue. cbn [app].
  rewrite toWellFormed_plain by reflexivity.
  rewrite <- app_assoc. reflexivity.
Qed.

Lemma json_pair_glue (k v r : str) :
  toWellFormed (json_string k ++ 58 :: json_string v ++ r)
  = json_string k ++ 58 :: json_string v ++ toWellFormed r.
Proof.
  rewrite json_string_glue.
  rewrite toWellFormed_plain by reflexivity. rewrite json_string_glue.
  reflexivity.
Qed.

Lemma json_members_glue (o : obj) (r : str) :
  toWellFormed (json_members o ++ r) = json_members o ++ toWellFormed r.
Proof.
  induction o as [|[k v] o IH]; [reflexivity|].
  cbn [json_members]. destruct o as [|kv o].
  - rewrite <- !app_assoc. cbn [app]. apply json_pair_glue.
  - rewrite <- !app_assoc. cbn [app]. rewrite <- ?app_assoc. cbn [app].
    rewrite json_pair_glue.
    rewrite toWellFormed_plain by reflexivity. rewrite IH. reflexivity.
Qed.

(** [JSON.stringify] writes lone surrogates as escapes: its result is
    well formed whatever the strings. *)
Lemma JSON_stringify_well_formed (o : obj) : well_formed (JSON_stringify o).
Proof.
  unfold well_formed, JSON_stringify.
  rewrite toWellFormed_plain by reflexivity. rewrite json_members_glue.
  reflexivity.
Qed.

Lemma column_lines_well_formed (c : Column) :
  well_formed_column c -> Forall well_formed (column_lines c).
Proof.
  intros (Hn & Hi). unfold column_lines.
  constructor; [apply well_formed_app; [reflexivity | exact Hn]|].
  constructor; [reflexivity|].
  apply Forall_app. split; [|repeat constructor].
  apply Forall_map. revert Hi. apply Forall_impl. intros i Hi.
  unfold item_line. apply well_formed_app; [|exact Hi].
  destruct (completed i); reflexivity.
Qed.

(** A board whose plugin value, names and texts are well formed is
    written as it will be read. *)
Lemma serializeKanban_well_formed (b : Board) :
  well_formed (template (obj_get kanban_plugin (settings b))) ->
  Forall well_formed_column (columns b) ->
  well_formed (serializeKanban b).
Proof.
  intros Hs Hc. unfold serializeKanban. apply well_formed_join.
  apply Forall_app. split; [|apply Forall_app; split].
  - unfold frontmatter_lines.
    repeat (constructor; [try reflexivity|]); [|constructor].
    apply well_formed_app; [reflexivity | exact Hs].
  - induction Hc as [|c cs Hc _ IH]; cbn [flat_map]; [constructor|].
    apply Forall_app. split; [apply column_lines_well_formed, Hc | exact IH].
  - unfold settings_block.
    repeat (constructor;
            [first [apply JSON_stringify_well_formed | reflexivity]|]).
    constructor.
Qed.

(** *** What the parser keeps *)

Lemma space_plain (c : N) : is_space c = true -> is_surrogate c = false.
Proof.
  intros H. destruct (is_surrogate c) eqn:E; [|reflexivity].
  assert (R : 55296 <= c <= 57343).
  { unfold is_surrogate, is_high_surrogate, is_low_surrogate in E.
    apply orb_true_iff in E.
    destruct E as [E | E]; apply andb_true_iff in E; destruct E as (A & B);
      apply N.leb_le in A; apply N.leb_le in B; lia. }
  assert (F : forall n, n < 55296 \/ 57343 < n -> (c =? n) = false).
  { intros n Hn. apply N.eqb_neq. lia. }
  unfold is_space in H.
  rewrite !F in H by lia.
  assert (G : (c <=? 8202) = false) by (apply N.leb_gt; lia).
  rewrite G, andb_false_r in H. discriminate.
Qed.

Lemma well_formed_trimStart (s : str) :
  well_formed s -> well_formed (trimStart s).
Proof.
  induction s as [|c s IH]; cbn [trimStart]; intros H; [exact H|].
  destruct (is_space c) eqn:E; [|exact H].
  apply IH, (well_formed_tail c s (space_plain c E) H).
Qed.

Lemma trimStart_split (s : str) :
  exists w, s = w ++ trimStart s /\ Forall (fun c => is_space c = true) w.
Proof.
  induction s as [|c s (w & E & F)]; cbn [trimStart].
  - exists []. split; [reflexivity | constructor].
  - destruct (is_space c) eqn:Ec.
    + exists (c :: w). split; [cbn [app]; rewrite <- E; reflexivity|].
      constructor; assumption.
    + exists []. split; [reflexivity | constructor].
Qed.

Lemma well_formed_trimEnd (s : str) :
  well_formed s -> well_formed (trimEnd s).
Proof.
  intros H. unfold trimEnd.
  destruct (trimStart_split (rev s)) as (w & E & F).
  apply (f_equal (@rev N)) in E. rewrite rev_involutive, rev_app_distr in E.
  destruct (rev w) as [|c w'] eqn:Ew.
  - rewrite app_nil_r in E. rewrite <- E. exact H.
  - rewrite E in H.
    assert (Hc : is_space c = true).
    { rewrite Forall_forall in F. apply F, in_rev. rewrite Ew. left.
      reflexivity. }
    apply (well_formed_cut _ c w' (space_plain c Hc) H).
Qed.

Lemma well_formed_trim (s : str) : well_formed s -> well_formed (trim s).
Proof. intros H. apply well_formed_trimEnd, well_formed_trimStart, H. Qed.

Lemma split_on_inhabited (sep : N) (s : str) : split_on sep s <> [].
Proof.
  destruct s as [|c s]; cbn [split_on]; [discriminate|].
  destruct (c =? sep); [discriminate|].
  destruct (split_on sep s); discriminate.
Qed.

Lemma join_split_on (sep : N) (s : str) :
  join_with sep (split_on sep s) = s.
Proof.
  induction s as [|c s IH]; cbn [split_on]; [reflexivity|].
  pose proof (split_on_inhabited sep s) as Hne.
  destruct (split_on sep s) as [|l ls]; [contradiction|].
  destruct (c =? sep) eqn:E.
  - apply N.eqb_eq in E. subst c. cbn in IH |- *. rewrite IH. reflexivity.
  - cbn in IH |- *. rewrite IH. reflexivity.
Qed.

Lemma well_formed_pieces (sep : N) (parts : list str) :
  is_surrogate sep = false ->
  well_formed (join_with sep parts) -> Forall well_formed parts.
Proof.
  intros Hs. destruct parts as [|p ps]; [constructor|].
  revert p. induction ps as [|q ps IH]; intros p H.
  - cbn in H. rewrite app_nil_r in H. repeat constructor. exact H.
  - change (join_with sep (p :: q :: ps))
      with (p ++ sep :: join_with sep (q :: ps)) in H.
    destruct (well_formed_cut _ _ _ Hs H) as (Hp & Hq).
    constructor; [exact Hp | apply IH, Hq].
Qed.

Lemma well_formed_split_lines (s : str) :
  well_formed s -> Forall well_formed (split_lines s).
Proof.
  intros H. apply (well_formed_pieces LF); [reflexivity|].
  unfold split_lines. rewrite join_split_on. exact H.
Qed.

Lemma ws_plus_then_kept {A} (k : str -> option A) (P : A -> Prop) :
  (forall s r, well_formed s -> k s = Some r -> P r) ->
  forall s r, well_formed s -> ws_plus_then k s = Some r -> P r.
Proof.
  intros Hk. induction s as [|c s IH]; intros r Hs; cbn [ws_plus_then];
    [discriminate|].
  destruct (is_space c) eqn:Ec; [|discriminate].
  pose proof (well_formed_tail c s (space_plain c Ec) Hs) as Hs'.
  destruct (ws_plus_then k s) as [r'|] eqn:E.
  - intros H. injection H as <-. apply (IH r' Hs'). reflexivity.
  - apply Hk, Hs'.
Qed.

Lemma dot_star_end_kept (s g : str) :
  well_formed s -> dot_star_end s = Some g -> well_formed g.
Proof.
  unfold dot_star_end. destruct (existsb is_line_terminator s); [discriminate|].
  intros H E. injection E as <-. exact H.
Qed.

Lemma headerMatch_kept (line g : str) :
  well_formed line -> headerMatch line = Some g -> well_formed g.
Proof.
  unfold headerMatch. intros H.
  repeat (match goal with
          | |- context [match ?x with _ => _ end] => destruct x
          end; try discriminate).
  apply (well_formed_tail 35 _ eq_refl) in H.
  apply (well_formed_tail 35 _ eq_refl) in H.
  apply (ws_plus_then_kept dot_plus_end well_formed); [|exact H].
  intros [|c s] r Hs; [discriminate|]. apply dot_star_end_kept, Hs.
Qed.

Lemma itemMatch_kept (line g : str) (box : N) :
  well_formed line -> itemMatch line = Some (box, g) -> well_formed g.
Proof.
  unfold itemMatch. intros H E.
  assert (K2 : forall c s (r : N * str),
             well_formed s ->
             option_map (pair c) (dot_star_end s) = Some r ->
             well_formed (snd r)).
  { intros c s r Hs. destruct (dot_star_end s) as [t|] eqn:Et; [|discriminate].
    intros Hr. injection Hr as <-. apply (dot_star_end_kept _ _ Hs Et). }
  assert (K1 : forall s (r : N * str),
             well_formed s ->
             match s with
             | 91 :: c :: 93 :: s' =>
                 if (c =? 32) || (c =? 120)
                 then ws_plus_then
                        (fun t => option_map (pair c) (dot_star_end t)) s'
                 else None
             | _ => None
             end = Some r ->
             well_formed (snd r)).
  { intros s r Hs.
    destruct s as [|a [|c [|b s']]]; try discriminate;
      try (repeat (match goal with
                   | |- context [match ?x with _ => _ end] => destruct x
                   end; try discriminate); fail).
    destruct ((c =? 32) || (c =? 120)) eqn:Ec.
    2:{ repeat (match goal with
                | |- context [match ?x with _ => _ end] => destruct x
                end; try discriminate). }
    assert (Pc : is_surrogate c = false).
    { apply orb_true_iff in Ec.
      destruct Ec as [Ec | Ec]; apply N.eqb_eq in Ec; subst c; reflexivity. }
    revert Hs.
    repeat (match goal with
            | |- context [match ?x with _ => _ end] => destruct x
            end; try discriminate).
    intros Hs.
    apply (well_formed_tail 91 _ eq_refl) in Hs.
    apply (well_formed_tail c _ Pc) in Hs.
    apply (well_formed_tail 93 _ eq_refl) in Hs.
    apply (ws_plus_then_kept _ (fun r => well_formed (snd r)) (K2 c)), Hs. }
  revert H E.
  repeat (match goal with
          | |- context [match ?x with _ => _ end] => destruct x
          end; try discriminate).
  intros H E. apply (well_formed_tail 45 _ eq_refl) in H.
  apply (ws_plus_then_kept _ (fun r => well_formed (snd r)) K1 _ _ H) in E.
  exact E.
Qed.

Lemma scan_lines_kept (lines : list str) :
  Forall well_formed lines ->
  forall cols cur,
    Forall well_formed_column cols ->
    (forall c, cur = Some c -> well_formed_column c) ->
    Forall well_formed_column (finalize (scan_lines lines cols cur)).
Proof.
  induction 1 as [|line rest Hl _ IH]; intros cols cur Hcols Hcur;
    cbn [scan_lines].
  - unfold finalize. cbn [fst snd]. destruct cur as [c|]; [|exact Hcols].
    apply Forall_app. split; [exact Hcols|]. constructor; [|constructor].
    apply Hcur. reflexivity.
  - assert (F : Forall well_formed_column (finalize (cols, cur))).
    { unfold finalize. cbn [fst snd]. destruct cur as [c|]; [|exact Hcols].
      apply Forall_app. split; [exact Hcols|]. constructor; [|constructor].
      apply Hcur. reflexivity. }
    destruct (headerMatch line) as [g|] eqn:Eh.
    + apply IH.
      * destruct cur as [c|]; exact F.
      * intros c E. injection E as <-. split; [|constructor].
        apply well_formed_trim, (headerMatch_kept _ _ Hl Eh).
    + destruct (itemMatch line) as [[box g]|] eqn:Ei.
      * destruct cur as [c|].
        -- apply IH; [exact Hcols|]. intros c' E. injection E as <-.
           destruct (Hcur c eq_refl) as (Hn & Hi).
           split; [exact Hn|]. cbn [items]. apply Forall_app.
           split; [exact Hi|]. constructor; [|constructor].
           apply well_formed_trim, (itemMatch_kept _ _ _ Hl Ei).
        -- destruct (is_sentinel_line line); [exact Hcols|].
           apply IH; assumption.
      * destruct (is_sentinel_line line); [|apply IH; assumption].
        destruct cur; exact F.
Qed.

Lemma startsWith_split (p s : str) :
  startsWith p s = true -> s = p ++ skipn (List.length p) s.
Proof.
  revert s. induction p as [|a p IH]; intros s; [reflexivity|].
  destruct s as [|b s]; cbn [startsWith]; [discriminate|].
  intros H. apply andb_true_iff in H. destruct H as (E & H).
  apply N.eqb_eq in E. subst b. cbn [List.length skipn app].
  rewrite <- (IH s H). reflexivity.
Qed.

Lemma indexOf_split (needle hay : str) (i : nat) :
  indexOf needle hay = Some i ->
  hay = firstn i hay ++ needle ++ skipn (i + List.length needle) hay.
Proof.
  revert i. induction hay as [|c hay IH]; intros i; cbn [indexOf].
  - destruct (startsWith needle []) eqn:E; [|discriminate].
    intros H. injection H as <-. apply (startsWith_split _ _ E).
  - destruct (startsWith needle (c :: hay)) eqn:E.
    + intros H. injection H as <-. apply (startsWith_split _ _ E).
    + destruct (indexOf needle hay) as [j|]; [|discriminate].
      intros H. injection H as <-. cbn [firstn app Nat.add skipn].
      rewrite <- (IH j eq_refl). reflexivity.
Qed.

Lemma break_at_split (c : N) (s a b : str) :
  break_at c s = Some (a, b) -> s = a ++ c :: b.
Proof.
  revert a. induction s as [|d s IH]; intros a; cbn [break_at]; [discriminate|].
  destruct (d =? c) eqn:E.
  - intros H. injection H as <- <-. apply N.eqb_eq in E. subst d. reflexivity.
  - destruct (break_at c s) as [[a' b']|]; [|discriminate].
    intros H. injection H as <- <-. cbn [app]. rewrite <- (IH a' eq_refl).
    reflexivity.
Qed.

Lemma well_formed_strip_first (c : N) (s : str) :
  is_surrogate c = false -> well_formed s -> well_formed (strip_first c s).
Proof.
  intros Hc H. destruct s as [|d s]; [exact H|]. cbn [strip_first].
  destruct (d =? c) eqn:E; [|exact H].
  apply N.eqb_eq in E. subst d. apply (well_formed_tail c s Hc H).
Qed.

(** The body that [matter] hands to the parser is a part of the
    document cut at units that are no surrogates. *)
Lemma matter_kept (content : str) :
  well_formed content -> well_formed (snd (matter content)).
Proof.
  intros H. unfold matter.
  destruct (startsWith delimiter content
            && negb (startsWith [45] (skipn 3 content))) eqn:E; [|exact H].
  apply andb_true_iff in E. destruct E as (E & _).
  apply startsWith_split in E. change (List.length delimiter) with 3%nat in E.
  assert (H3 : well_formed (skipn 3 content)).
  { rewrite E in H. unfold delimiter in H. cbn [app] in H.
    do 3 apply (well_formed_tail 45 _ eq_refl) in H. exact H. }
  set (s := match break_at LF (skipn 3 content) with
            | Some (_, after) => LF :: after
            | None => skipn 3 content
            end).
  assert (Hs : well_formed s).
  { unfold s. destruct (break_at LF (skipn 3 content)) as [[a b]|] eqn:Eb;
      [|exact H3].
    apply break_at_split in Eb. rewrite Eb in H3.
    destruct (well_formed_cut _ _ _ (eq_refl : is_surrogate LF = false) H3)
      as (_ & Hb).
    apply well_formed_cons; [reflexivity | exact Hb]. }
  destruct (indexOf (LF :: delimiter) s) as [i|] eqn:Ei; [|reflexivity].
  cbn [snd]. apply indexOf_split in Ei.
  change (List.length (LF :: delimiter)) with 4%nat in Ei.
  rewrite Ei in Hs.
  destruct (well_formed_cut _ _ _ (eq_refl : is_surrogate LF = false) Hs)
    as (_ & Hb).
  unfold delimiter in Hb. cbn [app] in Hb.
  do 3 apply (well_formed_tail 45 _ eq_refl) in Hb.
  apply well_formed_strip_first; [reflexivity|].
  apply well_formed_strip_first; [reflexivity | exact Hb].
Qed.

(** A document without lone surrogates parses to names and texts without
    lone surrogates. *)
Lemma parseKanban_kept (content : str) :
  well_formed content ->
  Forall well_formed_column (columns (parseKanban content)).
Proof.
  intros H. pose proof (matter_kept content H) as Hb.
  unfold parseKanban. destruct (matter content) as [frontmatter bodyContent].
  cbn [snd] in Hb.
  pose proof (scan_lines_kept (split_lines bodyContent)
                (well_formed_split_lines _ Hb) [] None (Forall_nil _)) as K.
  destruct (scan_lines (split_lines bodyContent) [] None) as [cols cur].
  apply K. discriminate.
Qed.

(** ** What a tool has written is what the next read returns *)

Lemma parseKanban_parsed (content : str) :
  Forall parsed_column (columns (parseKanban content)).
Proof.
  unfold parseKanban. destruct (matter content) as [frontmatter bodyContent].
  pose proof (scan_lines_parsed (split_lines bodyContent) [] None
                (Forall_nil _)) as H.
  destruct (scan_lines (split_lines bodyContent) [] None) as [cols cur].
  apply H. discriminate.
Qed.

Lemma read_after_write (h : Host) (p : str) (b : Board) (v : str)
      (fs : Files) :
  obj_get kanban_plugin (settings b) = Some v ->
  v = basic \/ v = advanced ->
  Forall shaped_column (columns b) ->
  Forall well_formed_column (columns b) ->
  writable h p ->
  exists fs',
    writeKanbanFile h p b fs = (Ok tt, fs')
    /\ readFile fs' p = Some (serializeKanban b)
    /\ (forall q, q <> p -> q <> p ++ tmp_suffix -> fs' q = fs q)
    /\ readKanbanFile p fs'
       = (Ok (mkBoard p [(kanban_plugin, v)] (List.map plain_column (columns b))),
          fs').
Proof.
  intros Hs Hv Hc Hwf Hw.
  destruct (writeKanbanFile_writable h p b fs Hw)
    as (fs' & Ew & Et & _ & Hframe).
  exists fs'.
  assert (E : readFile fs' p = Some (serializeKanban b)).
  { unfold readFile. rewrite Et. cbn [option_map]. f_equal.
    apply serializeKanban_well_formed; [|exact Hwf].
    rewrite Hs. cbn [template]. destruct Hv as [-> | ->]; reflexivity. }
  split; [exact Ew | split; [exact E | split]].
  - exact Hframe.
  - unfold readKanbanFile. rewrite E. destruct b as [bp s cs].
    cbn [settings columns] in *.
    rewrite (parse_serialized_shaped s v cs bp Hs Hv Hc). reflexivity.
Qed.

Lemma holds_board_shaped (fs : Files) (p v : str) (cols : list Column) :
  holds_board fs p v cols ->
  Forall parsed_column cols /\ Forall well_formed_column cols
  /\ Forall shaped_column cols /\ List.map plain_column cols = cols.
Proof.
  intros (content & Hr & _ & _ & <- & Hn).
  pose proof (parseKanban_parsed content) as Hp.
  split; [exact Hp|].
  split; [apply parseKanban_kept, (readFile_well_formed _ _ _ Hr)|].
  apply parsed_columns_shaped; assumption.
Qed.

Lemma itemTextArg_shaped (s t : str) :
  itemTextArg s = Ok t -> has_line_separator t = false -> shaped_text t.
Proof.
  unfold itemTextArg, rbind, nonEmpty. destruct (strlen s =? 0); [discriminate|].
  unfold validateItemText.
  destruct (containsNullByte s); [discriminate|].
  destruct (containsControlCharacters s true); [discriminate|].
  cbv zeta.
  destruct (includes LF (trim s) || includes CR (trim s)) eqn:En;
    [discriminate|].
  destruct (strlen (trim s) =? 0); [discriminate|].
  destruct (MAX_ITEM_TEXT_LENGTH <? strlen (trim s)); [discriminate|].
  intros H. injection H as <-. intros Hs.
  apply orb_false_iff in En. destruct En as (Hl & Hr).
  split; [apply trim_twice | apply no_line_terminator; assumption].
Qed.

Lemma columnNameArg_shaped (s t : str) :
  columnNameArg s = Ok t -> has_line_separator t = false ->
  shaped_text t /\ t <> [].
Proof.
  unfold columnNameArg, rbind, nonEmpty. destruct (strlen s =? 0); [discriminate|].
  unfold validateColumnName.
  destruct (containsNullByte s); [discriminate|].
  destruct (includes LF s || includes CR s) eqn:En; [discriminate|].
  destruct (containsControlCharacters s false); [discriminate|].
  cbv zeta.
  destruct (strlen (trim s) =? 0) eqn:Ee; [discriminate|].
  destruct (MAX_COLUMN_NAME_LENGTH <? strlen (trim s)); [discriminate|].
  intros H. injection H as <-. intros Hs.
  apply orb_false_iff in En. destruct En as (Hl & Hr).
  assert (F : forall c, includes c s = false -> includes c (trim s) = false).
  { intros c Hc. apply includes_false. intros Hin.
    apply includes_false in Hc. apply Hc, In_trim, Hin. }
  split; [split; [apply trim_twice | apply no_line_terminator; auto]|].
  intros E. rewrite E in Ee. discriminate.
Qed.

Lemma kanbanRead_run (h : Host) (vault board p : str) (fs : Files) :
  vault <> [] -> board <> [] ->
  validateVaultPath h vault board = Ok p ->
  kanbanRead h vault board fs = readKanbanFile p fs.
Proof.
  intros Hv Hb Hp. unfold kanbanRead, bind, lift.
  rewrite (nonEmpty_ok _ Hv), (nonEmpty_ok _ Hb), Hp. reflexivity.
Qed.

(** X21.  An item that [kanbanItemAdd] has added is there at the next
    read: when the board file reads as a board with the plugin [basic] or
    [advanced] and no empty column name, the column exists, the validated
    text holds neither U+2028 nor U+2029 nor a surrogate outside a pair
    and the file can be written, the call succeeds and [kanbanRead] then
    returns the columns as they were read before, with the new item,
    unchecked unless asked otherwise, at the end of the first column of
    that name. *)
Theorem kanbanItemAdd_then_kanbanRead
  (h : Host) (vault board column txt : str) (flag : option bool)
  (fs : Files) (p v column' txt' : str) (cols : list Column)
  (ci : nat) (col : Column) :
  vault <> [] -> board <> [] ->
  columnNameArg column = Ok column' ->
  itemTextArg txt = Ok txt' ->
  has_line_separator txt' = false ->
  well_formed txt' ->
  validateVaultPath h vault board = Ok p ->
  holds_board fs p v cols ->
  findFirst (named column') cols = Some (ci, col) ->
  writable h p ->
  exists fs',
    kanbanItemAdd h vault board column txt flag fs
    = (Ok (mkAddResult board column' (mkItem txt' (completedArg flag) None)),
       fs')
    /\ kanbanRead h vault board fs'
       = (Ok (mkBoard p [(kanban_plugin, v)]
                (updateAt ci
                   (push_items [mkItem txt' (completedArg flag) None]) cols)),
          fs').
Proof.
  intros Hv Hb Hc Ht Hsep Hwt Hp Hh Hf Hw.
  destruct (holds_board_shaped _ _ _ _ Hh) as (Hpar & Hwf & Hsh & Hid).
  destruct Hh as (content & Hfs & Hs & Hv' & Hcols & _).
  set (item := mkItem txt' (completedArg flag) None).
  set (b := mkBoard p (settings (parseKanban content)) cols).
  set (b' := set_columns b (updateAt ci (push_items [item]) cols)).
  destruct (findFirst_Some _ _ _ _ Hf) as (Hn & _ & _).
  assert (Hsh' : Forall shaped_column (columns b')).
  { unfold b', set_columns. cbn [columns].
    apply (Forall_updateAt _ _ _ _ col Hsh Hn).
    rewrite Forall_forall in Hsh. apply nth_error_In in Hn.
    destruct (Hsh col Hn) as (H1 & H2 & H3).
    unfold shaped_column, push_items. cbn [name items].
    split; [exact H1 | split; [exact H2|]].
    apply Forall_app. split; [exact H3|]. constructor; [|constructor].
    apply (itemTextArg_shaped txt txt' Ht Hsep). }
  assert (Hid' : List.map plain_column (columns b') = columns b').
  { apply plain_columns_id. unfold b', set_columns. cbn [columns].
    assert (Hm : Forall (fun c => Forall (fun i => metadata i = None) (items c))
                        cols).
    { revert Hpar. apply Forall_impl. intros c (_ & H). revert H.
      apply Forall_impl. intros i (_ & Hi). exact Hi. }
    apply (Forall_updateAt _ _ _ _ col Hm Hn).
    rewrite Forall_forall in Hm. apply nth_error_In in Hn.
    unfold push_items. cbn [items]. apply Forall_app.
    split; [apply (Hm col Hn) | repeat constructor]. }
  assert (Hwf' : Forall well_formed_column (columns b')).
  { unfold b', set_columns. cbn [columns].
    apply (Forall_updateAt _ _ _ _ col Hwf Hn).
    rewrite Forall_forall in Hwf. apply nth_error_In in Hn.
    destruct (Hwf col Hn) as (H1 & H2).
    unfold well_formed_column, push_items. cbn [name items].
    split; [exact H1|].
    apply Forall_app. split; [exact H2|]. constructor; [exact Hwt|constructor]. }
  destruct (read_after_write h p b' v fs Hs Hv' Hsh' Hwf' Hw)
    as (fs' & Ew & _ & _ & Er).
  exists fs'. split.
  - unfold kanbanItemAdd, bind, lift, readKanbanFile.
    rewrite (nonEmpty_ok _ Hv), (nonEmpty_ok _ Hb), Hc, Ht, Hp, Hfs.
    rewrite Hcols. fold b. unfold addItem. change (columns b) with cols.
    rewrite Hf. fold item. fold b'. cbn [fst snd]. rewrite Ew. reflexivity.
  - rewrite (kanbanRead_run h vault board p fs' Hv Hb Hp), Er, Hid'.
    reflexivity.
Qed.

Lemma kanbanItemAdd_then_kanbanRead_witness :
  exists fs',
    kanbanItemAdd (vault_host [board_path]) vault_root board_md backlog
                  padded_task None (one_file board_path scenario_doc)
    = (Ok (mkAddResult board_md backlog (mkItem task false None)), fs')
    /\ kanbanRead (vault_host [board_path]) vault_root board_md fs'
       = (Ok (mkBoard board_path [(kanban_plugin, basic)]
                [ mkColumn backlog [mkItem task1 false None;
                                    mkItem task2 false None;
                                    mkItem task false None];
                  mkColumn done_col [mkItem done_task true None] ]),
          fs').
Proof.
  refine (kanbanItemAdd_then_kanbanRead
            (vault_host [board_path]) vault_root board_md backlog padded_task
            None (one_file board_path scenario_doc) board_path basic
            backlog task (columns scenario_board) 0
            (mkColumn backlog [mkItem task1 false None; mkItem task2 false None])
            _ _ _ _ _ _ _ _ _ _);
    try discriminate; try (vm_compute; reflexivity).
  - exists scenario_doc. repeat split; try (vm_compute; reflexivity).
    + left. reflexivity.
    + repeat constructor; discriminate.
  - split; reflexivity.
Defined.



Lemma settingsArg_plugin (stg stg' : option obj) :
  settingsArg stg = Ok stg' ->
  exists v, obj_get kanban_plugin (or_default_settings stg') = Some v
            /\ (v = basic \/ v = advanced).
Proof.
  unfold settingsArg. destruct stg as [s|].
  - destruct (obj_get kanban_plugin s) as [v|].
    + destruct (str_eqb v basic || str_eqb v advanced) eqn:E; [|discriminate].
      intros H. injection H as <-. exists v. cbn [or_default_settings obj_get].
      rewrite str_eqb_refl. split; [reflexivity|].
      apply orb_true_iff in E. destruct E as [E|E]; apply str_eqb_eq in E; auto.
    + intros H. injection H as <-. exists basic.
      cbn [or_default_settings obj_get]. rewrite str_eqb_refl. auto.
  - intros H. injection H as <-. exists basic. split; [reflexivity | auto].
Qed.

Lemma columnsArg_shaped (cols cols' : list str) :
  columnsArg cols = Ok cols' ->
  Forall (fun n => has_line_separator n = false) cols' ->
  Forall shaped_column (List.map (fun n => mkColumn n []) cols').
Proof.
  intros H. assert (Ha : columnNamesAll cols = Ok cols').
  { destruct cols; [discriminate | exact H]. }
  clear H. revert cols' Ha.
  induction cols as [|s cols IH]; intros cols' Ha Hs; cbn [columnNamesAll] in Ha.
  - injection Ha as <-. constructor.
  - unfold rbind in Ha. destruct (columnNameArg s) as [n|] eqn:En; [|discriminate].
    destruct (columnNamesAll cols) as [r|]; [|discriminate].
    injection Ha as <-. inversion Hs as [|? ? Hn Hr]; subst.
    cbn [List.map]. constructor; [|apply IH; [reflexivity | exact Hr]].
    destruct (columnNameArg_shaped s n En Hn) as (H1 & H2).
    split; [exact H1 | split; [exact H2 | constructor]].
Qed.

Lemma columnsArg_well_formed (cols' : list str) :
  Forall well_formed cols' ->
  Forall well_formed_column (List.map (fun n => mkColumn n []) cols').
Proof.
  induction 1 as [|n ns Hn _ IH]; cbn [List.map]; constructor;
    [split; [exact Hn | constructor] | exact IH].
Qed.

Lemma createArgs_accepted (h : Host) (vault p : str)
      (cols : list str) (stg : option obj)
      (cols' : list str) (stg' : option obj) (boardPath : str) :
  vault <> [] -> p <> [] ->
  columnsArg cols = Ok cols' ->
  settingsArg stg = Ok stg' ->
  validateVaultPath h vault p = Ok boardPath ->
  createArgs h vault p cols stg = Ok (cols', stg', boardPath).
Proof.
  intros Hv Hp Hc Hs Hb. unfold createArgs, rbind.
  rewrite (nonEmpty_ok _ Hv), (nonEmpty_ok _ Hp), Hc, Hs, Hb. reflexivity.
Qed.

(** X23.  [kanbanCreate] refuses a path at which something exists and
    then changes neither the files nor the directories.  When nothing
    exists there, [mkdir] makes the directory of the path and the file can
    be written, it succeeds, leaves the directories as [mkdir] left them,
    and a later [kanbanRead] of that path returns the validated column
    names, each with no items, in the order given, and settings that hold
    the plugin key alone, with the value the new board has (the names
    holding neither U+2028 nor U+2029 nor a surrogate outside a pair). *)
Theorem kanbanCreate_then_kanbanRead
  (h h' : Host) (d : Dirs) (vault p : str) (cols : list str)
  (stg : option obj) (fs : Files) (folders folders' : Folders)
  (cols' : list str) (stg' : option obj) (boardPath : str) :
  vault <> [] -> p <> [] ->
  columnsArg cols = Ok cols' ->
  settingsArg stg = Ok stg' ->
  validateVaultPath h vault p = Ok boardPath ->
  (access h boardPath = true ->
   kanbanCreate h d vault p cols stg (fs, folders)
   = (Thrown BoardAlreadyExists, (fs, folders)))
  /\ (access h boardPath = false ->
      includes_str already_exists (access_message d boardPath) = false ->
      mkdir d (dirname boardPath) folders = (true, folders') ->
      writable h boardPath ->
      Forall (fun n => has_line_separator n = false) cols' ->
      Forall well_formed cols' ->
      validateVaultPath h' vault p = Ok boardPath ->
      exists fs' v,
        kanbanCreate h d vault p cols stg (fs, folders)
        = (Fine (mkCreateResult boardPath
                   (mkBoard boardPath (or_default_settings stg')
                            (List.map (fun n => mkColumn n []) cols'))),
           (fs', folders'))
        /\ obj_get kanban_plugin (or_default_settings stg') = Some v
        /\ kanbanRead h' vault p fs'
           = (Ok (mkBoard boardPath [(kanban_plugin, v)]
                          (List.map (fun n => mkColumn n []) cols')), fs')).
Proof.
  intros Hv Hp Hc Hs Hb.
  pose proof (createArgs_accepted h vault p cols stg
                cols' stg' boardPath Hv Hp Hc Hs Hb) as Start.
  split.
  - intros Ha. unfold kanbanCreate. rewrite Start, Ha. reflexivity.
  - intros Ha Hm Hd Hw Hsep Hwf Hb'.
    destruct (settingsArg_plugin stg stg' Hs) as (v & Hg & Hv').
    pose proof (columnsArg_shaped cols cols' Hc Hsep) as Hsh.
    destruct (read_after_write h boardPath
                (mkBoard boardPath (or_default_settings stg')
                         (List.map (fun n => mkColumn n []) cols'))
                v fs Hg Hv' Hsh (columnsArg_well_formed cols' Hwf) Hw)
      as (fs' & Ew & _ & _ & Er).
    exists fs', v. split; [|split; [exact Hg|]].
    + unfold kanbanCreate. rewrite Start, Ha, Hm. cbn [fst snd].
      rewrite Hd. cbn [negb]. cbv zeta. rewrite Ew. reflexivity.
    + rewrite (kanbanRead_run h' vault p boardPath fs' Hv Hp Hb'), Er.
      cbn [columns]. rewrite map_map. reflexivity.
Qed.

Lemma kanbanCreate_then_kanbanRead_witness :
  exists fs',
    kanbanRead (vault_host [board_path]) vault_root board_md fs'
    = (Ok (mkBoard board_path [(kanban_plugin, basic)]
                   [mkColumn todo []; mkColumn done_col []]), fs').
Proof.
  destruct (kanbanCreate_then_kanbanRead
              (vault_host []) (vault_host [board_path]) obliging
              vault_root board_md [todo; done_col]
              (Some [(lane_width, three_hundred)]) (fun _ => None)
              (fun _ => false)
              (snd (mkdir obliging (dirname board_path) (fun _ => false)))
              [todo; done_col]
              (Some [(kanban_plugin, basic); (lane_width, three_hundred)])
              board_path)
    as (_ & H); try discriminate; try (vm_compute; reflexivity).
  destruct H as (fs' & v & _ & Hg & Hr);
    try (vm_compute; reflexivity).
  - split; reflexivity.
  - repeat constructor.
  - repeat constructor.
  - exists fs'. injection Hg as <-. exact Hr.
Defined.

(** ** What the path validators accept lies in the vault *)

Lemma split_on_pieces (sep : N) (s : str) :
  Forall (fun x => includes sep x = false) (split_on sep s).
Proof.
  induction s as [|c s IH]; cbn [split_on]; [repeat constructor|].
  destruct (c =? sep) eqn:E; [constructor; [reflexivity | exact IH]|].
  destruct (split_on sep s) as [|l ls].
  - constructor; [|constructor]. unfold includes. cbn [existsb].
    rewrite N.eqb_sym, E. reflexivity.
  - inversion IH as [|? ? Hl Hls]; subst. constructor; [|exact Hls].
    unfold includes in *. cbn [existsb]. rewrite N.eqb_sym, E. exact Hl.
Qed.

Lemma norm_step_clean (stk : list str) (seg : str) :
  Forall clean_segment stk ->
  includes PosixPath.SLASH seg = false ->
  Forall clean_segment (PosixPath.norm_step false stk seg).
Proof.
  intros Hstk Hseg. unfold PosixPath.norm_step.
  destruct (str_eqb seg [] || str_eqb seg PosixPath.dot) eqn:E1; [exact Hstk|].
  apply orb_false_iff in E1. destruct E1 as (E0 & E1).
  destruct (str_eqb seg PosixPath.dotdot) eqn:E2.
  - destruct stk as [|top stk']; [constructor|].
    destruct (str_eqb top PosixPath.dotdot); [exact Hstk|].
    inversion Hstk; assumption.
  - constructor; [|exact Hstk].
    repeat split; try (apply str_eqb_neq; assumption). exact Hseg.
Qed.

Lemma normalizeSegments_clean (p : str) :
  Forall clean_segment (PosixPath.normalizeSegments p false).
Proof.
  unfold PosixPath.normalizeSegments. apply Forall_rev.
  assert (G : forall segs stk,
             Forall (fun x => includes PosixPath.SLASH x = false) segs ->
             Forall clean_segment stk ->
             Forall clean_segment
               (fold_left (PosixPath.norm_step false) segs stk)).
  { induction segs as [|seg segs IH]; intros stk Hs Hstk; cbn [fold_left];
      [exact Hstk|].
    inversion Hs; subst. apply IH; [assumption|].
    apply norm_step_clean; assumption. }
  apply G; [apply split_on_pieces | constructor].
Qed.

Lemma resolve_loop_absolute (wd : str) :
  PosixPath.isAbsolute wd = true ->
  forall args acc, snd (PosixPath.resolve_loop (args ++ [wd]) acc) = true.
Proof.
  intros Hwd. destruct wd as [|c wd]; [discriminate|].
  cbn [PosixPath.isAbsolute] in Hwd.
  induction args as [|a args IH]; intros acc; cbn [app PosixPath.resolve_loop].
  - rewrite Hwd. reflexivity.
  - destruct a as [|x a]; [apply IH|].
    destruct (x =? PosixPath.SLASH); [reflexivity | apply IH].
Qed.

(** With an absolute working directory, [resolve] returns a slash followed
    by clean segments joined by slashes. *)
Lemma resolve_clean (wd : str) (args : list str) :
  PosixPath.isAbsolute wd = true ->
  exists segs,
    PosixPath.resolve wd args
    = PosixPath.SLASH :: join_with PosixPath.SLASH segs
    /\ Forall clean_segment segs.
Proof.
  intros Hwd. unfold PosixPath.resolve.
  pose proof (resolve_loop_absolute wd Hwd (rev args) []) as Ha.
  destruct (PosixPath.resolve_loop (rev args ++ [wd]) []) as [rp abs].
  cbn [snd] in Ha. subst abs. cbn [negb].
  exists (PosixPath.normalizeSegments rp false).
  split; [reflexivity | apply normalizeSegments_clean].
Qed.

Lemma segments_join (segs : list str) :
  Forall clean_segment segs ->
  PosixPath.segments (PosixPath.SLASH :: join_with PosixPath.SLASH segs) = segs.
Proof.
  intros H. destruct segs as [|s ss]; [reflexivity|].
  assert (Hs : Forall (fun x => includes PosixPath.SLASH x = false) (s :: ss)).
  { revert H. apply Forall_impl. intros x (_ & _ & _ & Hx). exact Hx. }
  pose proof (split_on_join PosixPath.SLASH ss s Hs) as E.
  inversion H as [|? ? (Hne & _) _]; subst.
  destruct s as [|c s]; [contradiction|].
  cbn [join_with app] in *. cbn [PosixPath.segments]. exact E.
Qed.

Lemma strip_common_spec (a : list str) :
  forall b up down,
    PosixPath.strip_common a b = (up, down) ->
    exists common, a = common ++ up /\ b = common ++ down.
Proof.
  induction a as [|x a IH]; intros b up down H.
  - cbn in H. injection H as <- <-. exists []. split; reflexivity.
  - destruct b as [|y b]; cbn [PosixPath.strip_common] in H.
    + injection H as <- <-. exists []. split; reflexivity.
    + destruct (str_eqb x y) eqn:E.
      * apply str_eqb_eq in E. subst y.
        destruct (IH _ _ _ H) as (common & -> & ->).
        exists (x :: common). split; reflexivity.
      * injection H as <- <-. exists []. split; reflexivity.
Qed.

Lemma escapes_upwards (up down : list str) :
  up <> [] ->
  escapes (join_with PosixPath.SLASH
             (List.map (fun _ => PosixPath.dotdot) up ++ down)) = true.
Proof.
  destruct up as [|x up]; [contradiction|]. intros _.
  cbn [List.map app join_with].
  destruct (List.map (fun _ => PosixPath.dotdot) up ++ down) as [|r rs].
  - cbn [flat_map]. rewrite app_nil_r. reflexivity.
  - reflexivity.
Qed.

Lemma relative_inside (wd from to : str) :
  PosixPath.isAbsolute wd = true ->
  escapes (PosixPath.relative wd from to) = false ->
  inside wd from to.
Proof.
  intros Hwd. unfold PosixPath.relative, inside.
  destruct (str_eqb from to) eqn:E.
  { apply str_eqb_eq in E. subst to. intros _. exists [].
    rewrite app_nil_r. split; [reflexivity | constructor]. }
  cbv zeta.
  destruct (str_eqb (PosixPath.resolve wd [from]) (PosixPath.resolve wd [to]))
    eqn:E'.
  { apply str_eqb_eq in E'. rewrite E'. intros _. exists [].
    rewrite app_nil_r. split; [reflexivity | constructor]. }
  destruct (resolve_clean wd [to] Hwd) as (segs & Eto & Hclean).
  destruct (PosixPath.strip_common
              (PosixPath.segments (PosixPath.resolve wd [from]))
              (PosixPath.segments (PosixPath.resolve wd [to])))
    as [up down] eqn:Es.
  intros Hesc.
  destruct up as [|x up];
    [|rewrite escapes_upwards in Hesc by discriminate; discriminate].
  destruct (strip_common_spec _ _ _ _ Es) as (common & Ea & Eb).
  rewrite app_nil_r in Ea. subst common.
  exists down. split; [exact Eb|].
  rewrite Eto, (segments_join segs Hclean) in Eb. rewrite Eb in Hclean.
  apply Forall_app in Hclean. apply Hclean.
Qed.

(** X24.  What [validateVaultPath] accepts lies in the vault.  When it
    returns a path, on a host whose working directory is absolute, neither
    argument is empty or holds a null byte, the vault has a real path, the
    normalized candidate is at most 4096 units long, and the path returned
    is that candidate or the real path of a candidate that exists; both
    the candidate and the path returned lie in the vault's real path or
    below it: resolved, their segments are those of the vault's real path
    followed by segments that are not empty, hold no slash and are neither
    a dot nor a double dot. *)
Theorem validateVaultPath_stays_inside (h : Host) (vault target p : str) :
  validateVaultPath h vault target = Ok p ->
  PosixPath.isAbsolute (cwd h) = true ->
  vault <> [] /\ target <> []
  /\ includes NUL vault = false /\ includes NUL target = false
  /\ exists canonicalVault candidate,
       realpath h (normalizeNFC h vault) = Some canonicalVault
       /\ inside (cwd h) canonicalVault candidate
       /\ strlen candidate <= MAX_PATH_LENGTH
       /\ inside (cwd h) canonicalVault p
       /\ (p = candidate
           \/ (access h candidate = true /\ realpath h candidate = Some p)).
Proof.
  unfold validateVaultPath. intros H Hwd.
  destruct (strlen vault =? 0) eqn:Ev; [discriminate|].
  destruct (strlen target =? 0) eqn:Et; [discriminate|].
  destruct (includes NUL vault || includes NUL target) eqn:En; [discriminate|].
  apply orb_false_iff in En. destruct En as (En1 & En2).
  cbv zeta in H.
  destruct (negb (PosixPath.isAbsolute (normalizeNFC h vault)));
    [discriminate|].
  destruct (realpath h (normalizeNFC h vault)) as [V|]; [|discriminate].
  set (cand := PosixPath.normalize
                 (if PosixPath.isAbsolute (normalizeNFC h target)
                  then PosixPath.resolve (cwd h) [normalizeNFC h target]
                  else PosixPath.resolve (cwd h) [V; normalizeNFC h target]))
    in *.
  destruct (escapes (PosixPath.relative (cwd h) V cand)) eqn:Ee;
    [discriminate|].
  destruct (MAX_PATH_LENGTH <? strlen cand) eqn:El; [discriminate|].
  apply N.ltb_ge in El.
  pose proof (relative_inside _ _ _ Hwd Ee) as Hin.
  assert (Hv : vault <> []) by (intros ->; discriminate Ev).
  assert (Ht : target <> []) by (intros ->; discriminate Et).
  split; [exact Hv|]. split; [exact Ht|].
  split; [exact En1|]. split; [exact En2|].
  exists V, cand. split; [reflexivity|]. split; [exact Hin|].
  split; [exact El|].
  destruct (access h cand) eqn:Ea.
  - destruct (realpath h cand) as [T|] eqn:Er.
    + destruct (escapes (PosixPath.relative (cwd h) V T)) eqn:Ee';
        [discriminate|].
      injection H as <-.
      split; [exact (relative_inside _ _ _ Hwd Ee') | right; auto].
    + injection H as <-. split; [exact Hin | left; reflexivity].
  - injection H as <-. split; [exact Hin | left; reflexivity].
Qed.

Lemma validateVaultPath_stays_inside_witness :
  inside home_user vault_root board_path.
Proof.
  destruct (validateVaultPath_stays_inside (vault_host []) vault_root board_md
              board_path eq_refl eq_refl)
    as (_ & _ & _ & _ & V & cand & Hr & _ & _ & Hin & _).
  injection Hr as <-. exact Hin.
Defined.

(** X25.  What [validateVaultPathSync] accepts lies in the vault as it is
    named: on a host whose working directory is absolute, the path
    returned is at most 4096 units long and, resolved, its segments are
    those of the vault followed by segments that are not empty, hold no
    slash and are neither a dot nor a double dot.  When the vault is its
    own real path and nothing exists at the path returned,
    [validateVaultPath] returns the same path. *)
Theorem validateVaultPathSync_stays_inside (h : Host) (vault target p : str) :
  validateVaultPathSync h vault target = Ok p ->
  PosixPath.isAbsolute (cwd h) = true ->
  strlen p <= MAX_PATH_LENGTH
  /\ inside (cwd h) (normalizeNFC h vault) p
  /\ (realpath h (normalizeNFC h vault) = Some (normalizeNFC h vault) ->
      access h p = false ->
      validateVaultPath h vault target = Ok p).
Proof.
  unfold validateVaultPathSync, validateVaultPath. intros H Hwd.
  destruct (strlen vault =? 0); [discriminate|].
  destruct (strlen target =? 0); [discriminate|].
  destruct (includes NUL vault || includes NUL target); [discriminate|].
  cbv zeta in H |- *.
  destruct (negb (PosixPath.isAbsolute (normalizeNFC h vault)));
    [discriminate|].
  set (V := normalizeNFC h vault) in *.
  set (cand := PosixPath.normalize
                 (if PosixPath.isAbsolute (normalizeNFC h target)
                  then PosixPath.resolve (cwd h) [normalizeNFC h target]
                  else PosixPath.resolve (cwd h) [V; normalizeNFC h target]))
    in *.
  destruct (escapes (PosixPath.relative (cwd h) V cand)) eqn:Ee;
    [discriminate|].
  destruct (MAX_PATH_LENGTH <? strlen cand) eqn:El; [discriminate|].
  injection H as <-.
  split; [apply N.ltb_ge, El|].
  split; [exact (relative_inside _ _ _ Hwd Ee)|].
  intros Hr Ha. rewrite Hr. fold cand. rewrite Ee, El, Ha. reflexivity.
Qed.

Lemma validateVaultPathSync_stays_inside_witness :
  inside home_user vault_root board_path
  /\ validateVaultPath (vault_host []) vault_root board_md = Ok board_path.
Proof.
  destruct (validateVaultPathSync_stays_inside (vault_host []) vault_root
              board_md board_path eq_refl eq_refl) as (_ & Hin & Hv).
  split; [exact Hin | apply Hv; reflexivity].
Defined.

(** ** Reordering keeps the items *)

Lemma insertAt_removeAt {A} (i : nat) (l : list A) (x : A) :
  nth_error l i = Some x -> insertAt i x (removeAt i l) = l.
Proof.
  revert i; induction l as [|a l IH]; intros [|i]; simpl; intros H;
    try discriminate.
  - injection H as ->. reflexivity.
  - destruct l as [|b l]; [destruct i; discriminate|].
    rewrite <- (IH i H) at 2. destruct i; reflexivity.
Qed.

Lemma removeAt_others {A B} (f : A -> B) (i : nat) (l : list A) (x : A) :
  NoDup (List.map f l) -> nth_error l i = Some x ->
  forall y, In y (removeAt i l) -> f y <> f x.
Proof.
  intros Hnd Hn y Hy E.
  assert (Hm : nth_error (List.map f l) i = Some (f x))
    by (rewrite nth_error_map, Hn; reflexivity).
  pose proof (Permutation_removeAt i _ _ Hm) as P.
  apply (Permutation_NoDup P) in Hnd. inversion Hnd as [|? ? Hnot _]; subst.
  apply Hnot. rewrite <- map_removeAt, <- E. apply in_map, Hy.
Qed.

Lemma clamp_within (position : Z) (n : nat) :
  (Z.to_nat (Z.max 0 (Z.min position (Z.of_nat n))) <= n)%nat.
Proof. lia. Qed.

Lemma clamp_index (i n : nat) :
  (i <= n)%nat ->
  Z.to_nat (Z.max 0 (Z.min (Z.of_nat i) (Z.of_nat n))) = i.
Proof. lia. Qed.

(** X26.  Reordering keeps the items.  When [reorderItem] succeeds, the
    column named holds the same items as before, in another order, the
    item at its new position; every other column, every name and the
    number of items are unchanged; a move to the position the item has
    changes nothing; and, the texts of the column being pairwise
    distinct, reordering the item back to its old position restores the
    board. *)
Theorem reorderItem_rearranges
  (board b' : Board) (column txt : str) (position : Z)
  (ci : nat) (col : Column) (item : Item) (oldPos newPos : nat) :
  findFirst (named column) (columns board) = Some (ci, col) ->
  reorderItem board column txt position = Ok (b', (item, oldPos, newPos)) ->
  (exists col',
      nth_error (columns b') ci = Some col'
      /\ name col' = name col
      /\ Permutation (items col) (items col')
      /\ nth_error (items col') newPos = Some item)
  /\ (forall j, j <> ci ->
                nth_error (columns b') j = nth_error (columns board) j)
  /\ List.map name (columns b') = List.map name (columns board)
  /\ item_count (columns b') = item_count (columns board)
  /\ (newPos = oldPos -> b' = board)
  /\ (NoDup (List.map text (items col)) ->
      reorderItem b' column txt (Z.of_nat oldPos)
      = Ok (board, (item, newPos, oldPos))).
Proof.
  intros Hc H. unfold reorderItem in H. rewrite Hc in H.
  destruct (findFirst (texted txt) (items col)) as [[o it]|] eqn:Hi;
    [|discriminate].
  cbv zeta in H. injection H as <- <- <- <-.
  set (rest := removeAt o (items col)).
  set (np := Z.to_nat (Z.max 0 (Z.min position (Z.of_nat (List.length rest))))).
  set (items2 := insertAt np it rest).
  destruct (findFirst_Some _ _ _ _ Hc) as (Hn & Hname & _).
  destruct (findFirst_Some _ _ _ _ Hi) as (Hio & Htxt & _).
  assert (Hnp : (np <= List.length rest)%nat) by apply clamp_within.
  assert (Ho : (o < List.length (items col))%nat)
    by (apply nth_error_Some; rewrite Hio; discriminate).
  assert (Hlen : S (List.length rest) = List.length (items col)).
  { unfold rest. rewrite length_removeAt by exact Ho. lia. }
  cbn [columns set_columns].
  split; [|split; [|split; [|split; [|split]]]].
  - exists (set_items items2 col). split; [apply nth_error_updateAt, Hn|].
    split; [reflexivity|]. cbn [items set_items]. split.
    + rewrite (Permutation_removeAt o _ _ Hio). symmetry.
      apply Permutation_insertAt.
    + apply nth_error_insertAt, Hnp.
  - intros j Hj. apply nth_error_updateAt_other. auto.
  - apply map_name_updateAt. reflexivity.
  - pose proof (item_count_updateAt ci (set_items items2) _ _ Hn) as E.
    cbn [items set_items] in E.
    assert (L : List.length items2 = S (List.length rest))
      by apply length_insertAt.
    lia.
  - intros E. unfold items2. rewrite E. unfold rest.
    rewrite (insertAt_removeAt _ _ _ Hio).
    rewrite (updateAt_fixed ci _ _ col Hn); [apply set_columns_same|].
    destruct col; reflexivity.
  - intros Hnd. unfold reorderItem. cbn [columns set_columns].
    rewrite (findFirst_updateAt (named column) (set_items items2) ci)
      by (intros x; apply named_set_items).
    rewrite Hc, Nat.eqb_refl. cbn [items set_items].
    assert (Hf : findFirst (texted txt) items2 = Some (np, it)).
    { apply findFirst_insertAt; [|exact Htxt | exact Hnp].
      intros y Hy. unfold texted. apply str_eqb_neq. intros E.
      apply (removeAt_others text o _ _ Hnd Hio y Hy).
      unfold texted in Htxt. apply str_eqb_eq in Htxt. congruence. }
    rewrite Hf. cbv zeta.
    assert (R : removeAt np items2 = rest)
      by (unfold items2; apply removeAt_insertAt, Hnp).
    assert (I : insertAt o it rest = items col)
      by (unfold rest; apply insertAt_removeAt, Hio).
    rewrite !R, (clamp_index o (List.length rest)) by lia.
    rewrite I, updateAt_twice.
    unfold set_columns. cbn [path settings].
    rewrite (updateAt_fixed ci _ _ col Hn)
      by (unfold set_items; cbn [name items]; destruct col; reflexivity).
    destruct board; reflexivity.
Qed.

Lemma reorderItem_rearranges_witness :
  reorderItem scenario_swapped backlog task1 0
  = Ok (scenario_board, (mkItem task1 false None, 1%nat, 0%nat)).
Proof.
  refine (proj2 (proj2 (proj2 (proj2 (proj2
            (reorderItem_rearranges scenario_board scenario_swapped backlog
               task1 5 0
               (mkColumn backlog [mkItem task1 false None;
                                  mkItem task2 false None])
               (mkItem task1 false None) 0 1 eq_refl eq_refl))))) _).
  repeat constructor; cbn [In]; intros H; repeat destruct H as [H|H];
    try discriminate H; exact H.
Defined.

(** ** Removing a column loses no item *)

Lemma item_count_removeAt (i : nat) (l : list Column) (c : Column) :
  nth_error l i = Some c ->
  (item_count (removeAt i l) + List.length (items c) = item_count l)%nat.
Proof.
  unfold item_count.
  revert i; induction l as [|a l IH]; intros [|i]; simpl; intros H;
    try discriminate.
  - injection H as ->. lia.
  - specialize (IH i H). lia.
Qed.

(** X27.  Removing a column loses no item.  When [removeColumn] succeeds,
    the column was there, the count returned is the number of items it
    held, the names left are the names as they were without the one at its
    index, and the board holds as many items as before: the column was
    empty, or its items went, in order, to the end of another column, the
    first one with the target's name. *)
Theorem removeColumn_keeps_items
  (board b' : Board) (n : str) (target : option str) (count : nat) :
  removeColumn board n target = Ok (b', count) ->
  exists ci column,
    findFirst (named n) (columns board) = Some (ci, column)
    /\ count = List.length (items column)
    /\ List.map name (columns b')
       = removeAt ci (List.map name (columns board))
    /\ item_count (columns b') = item_count (columns board)
    /\ (items column = [] -> columns b' = removeAt ci (columns board))
    /\ (items column <> [] ->
        exists t ti tc,
          target = Some t /\ t <> n
          /\ findFirst (named t) (columns board) = Some (ti, tc)
          /\ ti <> ci
          /\ columns b'
             = removeAt ci (updateAt ti (push_items (items column))
                                     (columns board))
          /\ In (mkColumn (name tc) (items tc ++ items column)) (columns b')).
Proof.
  unfold removeColumn.
  destruct (findFirst (named n) (columns board)) as [[ci column]|] eqn:Hc;
    [|discriminate].
  cbv zeta. destruct (findFirst_Some _ _ _ _ Hc) as (Hn & Hname & _).
  destruct (Nat.ltb 0 (List.length (items column))) eqn:El.
  - destruct (falsy target) eqn:Ef; [discriminate|].
    destruct target as [[|x t]|]; try discriminate.
    destruct (findFirst (named (x :: t)) (columns board)) as [[ti tc]|] eqn:Ht;
      [|discriminate].
    destruct (str_eqb (x :: t) n) eqn:Etn; [discriminate|].
    intros H. injection H as <- <-.
    destruct (findFirst_Some _ _ _ _ Ht) as (Hti & Htname & _).
    apply str_eqb_neq in Etn.
    assert (Hne : ti <> ci).
    { intros ->. rewrite Hn in Hti. injection Hti as <-.
      unfold named in *. apply str_eqb_eq in Hname, Htname. congruence. }
    assert (Hci : nth_error (updateAt ti (push_items (items column))
                                      (columns board)) ci = Some column).
    { rewrite nth_error_updateAt_other by exact Hne. exact Hn. }
    exists ci, column. cbn [columns set_columns].
    split; [reflexivity|]. split; [reflexivity|]. split; [|split; [|split]].
    + rewrite map_removeAt, map_name_updateAt by reflexivity. reflexivity.
    + pose proof (item_count_removeAt ci _ _ Hci) as E1.
      pose proof (item_count_updateAt ti (push_items (items column)) _ _ Hti)
        as E2.
      unfold push_items in E2 at 2. cbn [items] in E2.
      rewrite length_app in E2. lia.
    + intros E. rewrite E in El. discriminate.
    + intros _. exists (x :: t), ti, tc.
      split; [reflexivity|]. split; [exact Etn|]. split; [exact Ht|].
      split; [exact Hne|]. split; [reflexivity|].
      pose proof (nth_error_updateAt ti (push_items (items column)) _ _ Hti)
        as Hu.
      pose proof (Permutation_removeAt ci _ _ Hci) as P.
      apply nth_error_In in Hu. apply (Permutation_in _ P) in Hu.
      destruct Hu as [E|Hu]; [|exact Hu].
      exfalso. apply (f_equal name) in E. unfold push_items in E.
      cbn [name] in E. unfold named in *.
      apply str_eqb_eq in Hname, Htname. congruence.
  - intros H. injection H as <- <-.
    assert (E0 : items column = []).
    { destruct (items column); [reflexivity | discriminate El]. }
    exists ci, column. cbn [columns set_columns].
    split; [reflexivity|]. split; [reflexivity|]. split; [|split; [|split]].
    + apply map_removeAt.
    + pose proof (item_count_removeAt ci _ _ Hn) as E1.
      rewrite E0 in E1. cbn [List.length] in E1. lia.
    + reflexivity.
    + intros Hne. contradiction.
Qed.

Lemma removeColumn_keeps_items_witness :
  exists b',
    removeColumn scenario_board backlog (Some done_col) = Ok (b', 2%nat)
    /\ item_count (columns b') = 3%nat.
Proof.
  eexists. split; [reflexivity|].
  destruct (removeColumn_keeps_items scenario_board _ backlog (Some done_col)
              2 eq_refl) as (ci & column & _ & _ & _ & H & _).
  exact H.
Defined.
